(** * ReconRaptor: vendor reconciliation, normalisation and tiered matching

    A shallow embedding of the two reconciliation modules of the repository:

    - [src/recon_raptor_fincomms.py] (the v2.0 utility module), embedded in
      [Module Fincomms];
    - [src/server/uploads/1768655241286-973860099-recon_raptor.py] (the
      Streamlit application), embedded in [Module Streamlit].

    Conventions of the embedding.

    - A Python [str] is a [string]; every character is an ASCII code point.
      The character classes below ([\s], [\d], [\W], the case mappings) are
      the ASCII restrictions of Python's Unicode classes.
    - A spreadsheet cell is a [cell]: text, or the missing value NaN.
    - A Python [float] is a binary64 value, [spec_float] with precision 53 and
      maximal exponent 1024; arithmetic and comparisons are the IEEE ones.
    - A [DataFrame] is a list of rows paired with their index labels;
      [iterrows] walks the list in order. *)

From Stdlib Require Import Bool Arith ZArith Lia List String Ascii.
From Stdlib Require Import Permutation.
From Stdlib Require Import Floats.SpecFloat.
Import ListNotations.

Open Scope string_scope.
Open Scope bool_scope.
Open Scope nat_scope.

(* ===================================================================== *)
(** * Python strings *)
(* ===================================================================== *)

Module PyStr.

Definition code (c : ascii) : nat := nat_of_ascii c.

Definition between (lo hi : nat) (c : ascii) : bool :=
  (lo <=? code c) && (code c <=? hi).

(** [str.isspace] and the regex class [\s]: TAB..CR, FS..US and SPACE. *)
Definition is_space (c : ascii) : bool :=
  between 9 13 c || between 28 32 c.

(** [\d] and [[0-9]]. *)
Definition is_digit (c : ascii) : bool := between 48 57 c.
Definition is_upper (c : ascii) : bool := between 65 90 c.
Definition is_lower (c : ascii) : bool := between 97 122 c.
Definition is_alpha (c : ascii) : bool := is_upper c || is_lower c.

(** [\w] is [[a-zA-Z0-9_]]; [\W] is its complement. *)
Definition is_word (c : ascii) : bool :=
  is_alpha c || is_digit c || Ascii.eqb c "_".
Definition is_nonword (c : ascii) : bool := negb (is_word c).

Definition upper_char (c : ascii) : ascii :=
  if is_lower c then ascii_of_nat (code c - 32) else c.
Definition lower_char (c : ascii) : ascii :=
  if is_upper c then ascii_of_nat (code c + 32) else c.

Fixpoint map_str (f : ascii -> ascii) (s : string) : string :=
  match s with
  | "" => ""
  | String c r => String (f c) (map_str f r)
  end.

Definition upper : string -> string := map_str upper_char.
Definition lower : string -> string := map_str lower_char.

(** [re.sub("[^...]", "", s)]: keep the characters of a class. *)
Fixpoint keep (p : ascii -> bool) (s : string) : string :=
  match s with
  | "" => ""
  | String c r => if p c then String c (keep p r) else keep p r
  end.

Fixpoint all_chars (p : ascii -> bool) (s : string) : bool :=
  match s with
  | "" => true
  | String c r => p c && all_chars p r
  end.

(** [s.lstrip(chars)] and the anchored [re.sub("^[...]*", "", s)]. *)
Fixpoint lstrip_by (p : ascii -> bool) (s : string) : string :=
  match s with
  | "" => ""
  | String c r => if p c then lstrip_by p r else s
  end.

Definition is_empty (s : string) : bool :=
  match s with "" => true | _ => false end.

(** [s.rstrip(chars)]: a character goes when everything after it went. *)
Fixpoint rstrip_by (p : ascii -> bool) (s : string) : string :=
  match s with
  | "" => ""
  | String c r =>
      let r' := rstrip_by p r in
      if is_empty r' && p c then "" else String c r'
  end.

(** [s.strip()] *)
Definition strip (s : string) : string :=
  rstrip_by is_space (lstrip_by is_space s).

(** [s.count(c)] for a one-character needle. *)
Fixpoint count (c : ascii) (s : string) : nat :=
  match s with
  | "" => 0
  | String d r => (if Ascii.eqb d c then 1 else 0) + count c r
  end.

(** [s.find(c)] for a one-character needle: [None] stands for -1. *)
Fixpoint find (c : ascii) (s : string) : option nat :=
  match s with
  | "" => None
  | String d r =>
      if Ascii.eqb d c then Some 0
      else match find c r with Some i => Some (S i) | None => None end
  end.

(** The comparison [s.find(a) > s.find(b)] on Python integers. *)
Definition find_gt (a b : option nat) : bool :=
  match a, b with
  | Some i, Some j => j <? i
  | Some _, None => true
  | None, _ => false
  end.

(** [s.replace(old, new)] for a one-character [old]. *)
Fixpoint replace (old : ascii) (new : string) (s : string) : string :=
  match s with
  | "" => ""
  | String d r =>
      if Ascii.eqb d old then new ++ replace old new r
      else String d (replace old new r)
  end.

(** [s.replace(old, new, n)]: only the first [n] occurrences. *)
Fixpoint replace_n (old : ascii) (new : string) (n : nat) (s : string)
  : string :=
  match n with
  | 0 => s
  | S n' =>
      match s with
      | "" => ""
      | String d r =>
          if Ascii.eqb d old then new ++ replace_n old new n' r
          else String d (replace_n old new n r)
      end
  end.

(** [p] is a prefix of [s]: the rest of [s]. *)
Fixpoint strip_prefix (p s : string) : option string :=
  match p with
  | "" => Some s
  | String a p' =>
      match s with
      | "" => None
      | String b s' =>
          if Ascii.eqb a b then strip_prefix p' s' else None
      end
  end.

(** The same under [re.IGNORECASE]. *)
Fixpoint strip_prefix_ci (p s : string) : option string :=
  match p with
  | "" => Some s
  | String a p' =>
      match s with
      | "" => None
      | String b s' =>
          if Ascii.eqb (upper_char a) (upper_char b)
          then strip_prefix_ci p' s' else None
      end
  end.

(** [a in b] on strings. *)
Fixpoint contains (a b : string) : bool :=
  match strip_prefix a b with
  | Some _ => true
  | None => match b with
            | "" => false
            | String _ r => contains a r
            end
  end.

(** [re.split("[...]", s)] for a one-character class. *)
Fixpoint split_by (p : ascii -> bool) (s : string) : list string :=
  match s with
  | "" => [""]
  | String c r =>
      if p c then "" :: split_by p r
      else match split_by p r with
           | h :: t => String c h :: t
           | [] => [String c ""]
           end
  end.

(** An anchored alternation [^(a1|a2|...)]: the first alternative that
    matches wins (what follows it in the patterns below cannot fail). *)
Fixpoint first_alt (strip1 : string -> string -> option string)
         (alts : list string) (s : string) : option string :=
  match alts with
  | [] => None
  | a :: rest =>
      match strip1 a s with
      | Some r => Some r
      | None => first_alt strip1 rest s
      end
  end.

(** The four characters [20dd]. *)
Definition is_20dd (c1 c2 c3 c4 : ascii) : bool :=
  Ascii.eqb c1 "2" && Ascii.eqb c2 "0" && is_digit c3 && is_digit c4.

(** [re.sub("20[0-9]{2}[sep]*", "", s)]: leftmost matches, left to right;
    [skip] is set while the separator run that follows a match is eaten. *)
Fixpoint sub_years (sep : ascii -> bool) (skip : bool) (s : string)
  : string :=
  match s with
  | "" => ""
  | String c r =>
      if skip && sep c then sub_years sep true r
      else
        match r with
        | String c2 (String c3 (String c4 r4)) =>
            if is_20dd c c2 c3 c4 then sub_years sep true r4
            else String c (sub_years sep false r)
        | _ => String c (sub_years sep false r)
        end
  end.

(** A year-like token [20dd] occurs somewhere in [s]. *)
Fixpoint has_year (s : string) : bool :=
  match s with
  | "" => false
  | String c r =>
      match r with
      | String c2 (String c3 (String c4 _)) =>
          is_20dd c c2 c3 c4 || has_year r
      | _ => false
      end
  end.

Definition starts_with (p : ascii -> bool) (s : string) : bool :=
  match s with
  | "" => false
  | String c _ => p c
  end.

(** [c] starts with [0] and is longer than the sentinel ["0"]. *)
Definition leading_zero (c : string) : bool :=
  match c with
  | String d (String _ _) => Ascii.eqb d "0"
  | _ => false
  end.

(** [s or d] *)
Definition or_default (s d : string) : string :=
  if is_empty s then d else s.

End PyStr.

Import PyStr.

(** A spreadsheet cell as the code sees it: text (the tables are read with
    [dtype=str]) or the missing value. *)
Inductive cell : Type :=
  | Text (s : string)
  | NaN.

(** [str(v)] *)
Definition str_of (v : cell) : string :=
  match v with
  | Text s => s
  | NaN => "nan"
  end.

(** [not v]: the empty string is falsy, NaN is truthy. *)
Definition falsy (v : cell) : bool :=
  match v with
  | Text s => is_empty s
  | NaN => false
  end.

(** [pd.isna(v)] *)
Definition isna (v : cell) : bool :=
  match v with
  | Text _ => false
  | NaN => true
  end.

(* ===================================================================== *)
(** * Invoice-code normalisation *)
(* ===================================================================== *)

Module Fincomms_clean.

(** [[\s\-_./]] *)
Definition is_sep (c : ascii) : bool :=
  is_space c || Ascii.eqb c "-" || Ascii.eqb c "_" || Ascii.eqb c "."
  || Ascii.eqb c "/".

Definition known_prefixes : list string :=
  ["INV"; "INVOICE"; "FACT"; "FACTURA"; "TIM"; "CN"; "CREDIT"; "NOTE";
   "REF"; "DOC"; "NUM"; "NO"; "NR"; "AR"; "PA"; "PF"; "AB"; "APO"; "APD";
   "VS"].

(** [re.sub(r'^(INV|...|VS)[\s\-_./]*', '', s, flags=re.IGNORECASE)] *)
Definition sub_known_prefix (s : string) : string :=
  match first_alt strip_prefix_ci known_prefixes s with
  | Some r => lstrip_by is_sep r
  | None => s
  end.

(** Drop up to [n] leading characters of class [p]. *)
Fixpoint drop_upto (n : nat) (p : ascii -> bool) (s : string) : string :=
  match n with
  | 0 => s
  | S n' =>
      match s with
      | "" => ""
      | String c r => if p c then drop_upto n' p r else s
      end
  end.

(** [re.sub(r'^[A-Z]{1,3}[\s\-_./]*', '', s, flags=re.IGNORECASE)] *)
Definition sub_letter_prefix (s : string) : string :=
  if starts_with is_alpha s
  then lstrip_by is_sep (drop_upto 3 is_alpha s)
  else s.

(** [[A-Z0-9]] *)
Definition is_upper_alnum (c : ascii) : bool := is_upper c || is_digit c.

Definition is_zero (c : ascii) : bool := Ascii.eqb c "0".

(** [clean_invoice_number] of recon_raptor_fincomms.py *)
Definition clean_invoice_number (v : cell) : string :=
  if falsy v || isna v then ""
  else
    let s := upper (strip (str_of v)) in
    let s := sub_known_prefix s in
    let s := sub_letter_prefix s in
    let s := sub_years is_sep false s in
    let s := keep is_upper_alnum s in
    let s := lstrip_by is_zero s in
    or_default s "0".

End Fincomms_clean.

Module Streamlit_clean.

(** [[-_.\s]] *)
Definition is_split (c : ascii) : bool :=
  Ascii.eqb c "-" || Ascii.eqb c "_" || Ascii.eqb c "." || is_space c.

(** [re.fullmatch(r"\d{1,}", p)] *)
Definition all_digits (p : string) : bool :=
  negb (is_empty p) && all_chars is_digit p.

(** [re.fullmatch(r"20[0-3]\d", p)] *)
Definition year_like (p : string) : bool :=
  match p with
  | String c1 (String c2 (String c3 (String c4 ""))) =>
      Ascii.eqb c1 "2" && Ascii.eqb c2 "0" && between 48 51 c3
      && is_digit c4
  | _ => false
  end.

Definition is_zero (c : ascii) : bool := Ascii.eqb c "0".

(** The loop over [reversed(parts)]: the last all-digit part that is not
    year-like replaces [s], without its leading zeros. *)
Fixpoint pick_numeric (rparts : list string) (s : string) : string :=
  match rparts with
  | [] => s
  | p :: rest =>
      if all_digits p && negb (year_like p) then lstrip_by is_zero p
      else pick_numeric rest s
  end.

(** The Greek alternatives are kept as their UTF-8 bytes; they match no
    ASCII text. *)
Definition known_prefixes : list string :=
  ["αρ"; "τιμ"; "pf"; "ab"; "inv"; "tim"; "cn"; "ar"; "pa"; "πφ"; "πα";
   "apo"; "ref"; "doc"; "num"; "no"; "apd"; "vs"].

(** [re.sub(r"^(αρ|...|vs)\W*", "", s)] *)
Definition sub_known_prefix (s : string) : string :=
  match first_alt strip_prefix known_prefixes s with
  | Some r => lstrip_by is_nonword r
  | None => s
  end.

(** [[a-z0-9]] *)
Definition is_lower_alnum (c : ascii) : bool := is_lower c || is_digit c.

Definition no_sep (c : ascii) : bool := false.

(** [clean_invoice_code] of the Streamlit module *)
Definition clean_invoice_code (v : cell) : string :=
  if falsy v then ""
  else
    let s := lower (strip (str_of v)) in
    let parts := split_by is_split s in
    let s := pick_numeric (rev parts) s in
    let s := sub_known_prefix s in
    let s := sub_years no_sep false s in
    let s := keep is_lower_alnum s in
    let s := lstrip_by is_zero s in
    let s := keep is_digit s in
    or_default s "0".

End Streamlit_clean.

(* ===================================================================== *)
(** * Python floats *)
(* ===================================================================== *)

Module F64.

Definition prec : Z := 53.
Definition emax : Z := 1024.

Definition float : Type := spec_float.

Definition fadd : float -> float -> float := SFadd prec emax.
Definition fsub : float -> float -> float := SFsub prec emax.
Definition fmul : float -> float -> float := SFmul prec emax.
Definition fdiv : float -> float -> float := SFdiv prec emax.
Definition fabs : float -> float := SFabs.
Definition fneg : float -> float := SFopp.

(** [a < b], [a <= b], [a == b]; [a > b] is [flt b a], [a >= b] is
    [fle b a]. Every comparison with NaN is false. *)
Definition flt : float -> float -> bool := SFltb.
Definition fle : float -> float -> bool := SFleb.
Definition feq : float -> float -> bool := SFeqb.
Definition fgt (a b : float) : bool := flt b a.
Definition fge (a b : float) : bool := fle b a.

Definition zero : float := S754_zero false.


(** [float(n)] for a Python integer. *)
Definition of_Z (n : Z) : float := binary_normalize prec emax n 0 false.

(** The binary64 value nearest to [(-1)^neg * n / 10^scale], ties to even:
    what [float("...")] and a decimal literal denote. *)
Definition of_decimal (neg : bool) (n : Z) (scale : nat) : float :=
  match n with
  | Zpos m =>
      fdiv (S754_finite neg m 0)
           (S754_finite false (Z.to_pos (10 ^ Z.of_nat scale)) 0)
  | _ => S754_zero neg
  end.

(** The literal [d.dd...] with [scale] decimals, e.g. [lit 5 2] for 0.05. *)
Definition lit (n : Z) (scale : nat) : float := of_decimal false n scale.

(** [n / d] rounded to the nearest integer, ties to even ([0 < d]). *)
Definition div_half_even (n d : Z) : Z :=
  let q := (n / d)%Z in
  let r := (n mod d)%Z in
  match (2 * r ?= d)%Z with
  | Lt => q
  | Gt => (q + 1)%Z
  | Eq => if Z.even q then q else (q + 1)%Z
  end.

(** [|x| * k] rounded to an integer, ties to even, for a finite [x]. *)
Definition scaled_int (k : Z) (m : positive) (e : Z) : Z :=
  match e with
  | Zneg p => div_half_even (Zpos m * k) (Zpos (Pos.pow 2 p))
  | _ => (Zpos m * k * 2 ^ e)%Z
  end.

(** The builtin [round(x, 2)] on a Python float: the exact value is rounded
    to two decimals, ties to even, and the decimal is read back as a float;
    NaN and the infinities round to themselves. *)
Definition py_round2 (x : float) : float :=
  match x with
  | S754_finite s m e => of_decimal s (scaled_int 100 m e) 2
  | _ => x
  end.

(** [rint]: the nearest integral float, ties to even. *)
Definition rint (x : float) : float :=
  match x with
  | S754_finite s m (Zneg p) =>
      match scaled_int 1 m (Zneg p) with
      | Zpos n => binary_normalize prec emax (if s then Zneg n else Zpos n)
                                   0 false
      | _ => S754_zero s
      end
  | _ => x
  end.

(** NumPy's [round(x, 2)] on a [float64]: [rint(x * 100.0) / 100.0]. *)
Definition np_round2 (x : float) : float :=
  fdiv (rint (fmul x (of_Z 100))) (of_Z 100).

Fixpoint digits_to_Z (acc : Z) (s : string) : Z :=
  match s with
  | "" => acc
  | String c r => digits_to_Z (10 * acc + Z.of_nat (code c - 48)) r
  end.

(** The text before and after the first [.] of [s]. *)
Fixpoint cut_at_dot (s : string) : string * option string :=
  match s with
  | "" => ("", None)
  | String c r =>
      if Ascii.eqb c "." then ("", Some r)
      else let '(a, b) := cut_at_dot r in (String c a, b)
  end.

(** The builtin [float(s)] on text over the alphabet [0-9 , . -] (what is
    left after [normalize_number]'s filter): an optional [-], then digits
    with at most one [.] and at least one digit; anything else raises
    [ValueError], here [None]. *)
Definition py_float (s : string) : option float :=
  let '(neg, body) :=
    match s with
    | String "-" r => (true, r)
    | _ => (false, s)
    end in
  let '(ip, fp) := cut_at_dot body in
  let fp := match fp with Some f => f | None => "" end in
  if all_chars is_digit ip && all_chars is_digit fp
     && negb (is_empty (ip ++ fp))
  then Some (of_decimal neg (digits_to_Z 0 (ip ++ fp)) (String.length fp))
  else None.

End F64.

Import F64.

(* ===================================================================== *)
(** * Number normalisation (identical in both modules) *)
(* ===================================================================== *)

(** [[\d,.\-]] *)
Definition is_numeric_char (c : ascii) : bool :=
  is_digit c || Ascii.eqb c "," || Ascii.eqb c "." || Ascii.eqb c "-".

(** The [if]/[elif] chain of [normalize_number] on the filtered text. *)
Definition disambiguate (s : string) : string :=
  if (count "," s =? 1) && (count "." s =? 1) then
    if find_gt (find "," s) (find "." s)
    then replace "," "." (replace "." "" s)
    else replace "," "" s
  else if count "," s =? 1 then replace "," "." s
  else if 1 <? count "." s then replace_n "." "" (count "." s - 1) s
  else s.

(** The text handed to [float()]. *)
Definition number_text (v : cell) : string :=
  disambiguate (keep is_numeric_char (strip (str_of v))).

(** [normalize_number] *)
Definition normalize_number (v : cell) : float :=
  if isna v || is_empty (strip (str_of v)) then zero
  else match py_float (number_text v) with
       | Some x => x
       | None => zero
       end.


(** Neither separator occurs in [x]. *)
Definition no_separator (x : string) : bool :=
  (count "," x =? 0) && (count "." x =? 0).


(* ===================================================================== *)
(** * Tables and the greedy matching loop *)
(* ===================================================================== *)

(** A row of a raw table: column name to cell. *)
Definition row : Type := list (string * cell).

Fixpoint row_lookup (r : row) (col : string) : option cell :=
  match r with
  | [] => None
  | (k, v) :: rest => if String.eqb k col then Some v else row_lookup rest col
  end.

(** [row.get(col, default)] *)
Definition row_get (r : row) (col : string) (default : cell) : cell :=
  match row_lookup r col with
  | Some v => v
  | None => default
  end.

(** [col in row] *)
Definition row_has (r : row) (col : string) : bool :=
  match row_lookup r col with
  | Some _ => true
  | None => false
  end.

(** A [DataFrame]: its column names and its rows with their index labels,
    in order. [pd.DataFrame()] is [empty_frame]. *)
Record frame (R : Type) : Type := mkFrame {
  columns : list string;
  rows : list (nat * R)
}.
Arguments mkFrame {R} _ _.
Arguments columns {R} _.
Arguments rows {R} _.

Definition empty_frame {R : Type} : frame R := mkFrame [] [].

(** [df.empty] *)
Definition is_empty_frame {R : Type} (df : frame R) : bool :=
  match rows df with [] => true | _ => false end.

(** [col in df.columns] *)
Definition has_column {R : Type} (df : frame R) (col : string) : bool :=
  existsb (String.eqb col) (columns df).

Definition labels {R : Type} (l : list (nat * R)) : list nat := map fst l.

(** [i in used] for a Python set of index labels. *)
Definition mem (i : nat) (used : list nat) : bool := existsb (Nat.eqb i) used.

(** [df[~df.index.isin(used)]] *)
Definition drop_used {R : Type} (used : list nat) (l : list (nat * R))
  : list (nat * R) :=
  filter (fun p => negb (mem (fst p) used)) l.

(** [df.reset_index(drop=True)] *)
Definition reset_index {R : Type} (l : list (nat * R)) : list (nat * R) :=
  combine (seq 0 (List.length l)) (map snd l).

(** The inner loop shared by the first-match tiers:
    [for vi, v in ven.iterrows(): if vi in used_v: continue; ...;
     if ok: ...; break]. *)
Fixpoint scan_first {V : Type} (ok : nat -> V -> bool) (used_v : list nat)
         (ven : list (nat * V)) : option (nat * V) :=
  match ven with
  | [] => None
  | (vi, v) :: rest =>
      if mem vi used_v then scan_first ok used_v rest
      else if ok vi v then Some (vi, v)
      else scan_first ok used_v rest
  end.

(** A vendor row is skipped by the scan when it is used or fails the test. *)
Definition skipped {V : Type} (ok : nat -> V -> bool) (used_v : list nat)
           (p : nat * V) : Prop :=
  mem (fst p) used_v = true \/ ok (fst p) (snd p) = false.

(** Not NaN. *)
Definition not_nan (x : float) : bool :=
  match x with
  | S754_nan => false
  | _ => true
  end.

Section Greedy.
Context {E V M : Type}.
(** Does the outer loop start with [if ei in used_e: continue]? *)
Variable check_e : bool.
(** The inner loop: the vendor row chosen for an ERP row, if any. *)
Variable pick : nat -> E -> list nat -> option (nat * V).
(** The record appended for a pair. *)
Variable mk : nat -> E -> nat -> V -> M.

(** The loop state: the records so far, [used_e] and [used_v]. *)
Definition greedy_state : Type := (list M * list nat * list nat)%type.

Definition greedy_step (st : greedy_state) (e : nat * E) : greedy_state :=
  let '(ms, used_e, used_v) := st in
  if check_e && mem (fst e) used_e then st
  else
    match pick (fst e) (snd e) used_v with
    | Some (vi, v) =>
        ((ms ++ [mk (fst e) (snd e) vi v])%list, fst e :: used_e,
         vi :: used_v)
    | None => st
    end.

Definition greedy (erp : list (nat * E)) : greedy_state :=
  fold_left greedy_step erp ([], [], []).
End Greedy.


(* ===================================================================== *)
(** * difflib.SequenceMatcher(None, a, b).ratio() *)
(* ===================================================================== *)

(** The standard library's Ratcliff/Obershelp ratio, for strings shorter
    than 200 characters (the length from which [autojunk] starts to drop
    popular characters). The matchers take the ratio as a parameter; this
    instance evaluates them on concrete codes. *)
Module Difflib.

Definition at_ (a : list ascii) (i : nat) : ascii := nth i a "000"%char.

(** The length of the common run that ends at [a[i]] and [b[j]] and stays
    inside [a[alo:]] and [b[blo:]]: the entry [j2len[j]] of row [i]. *)
Fixpoint run_len (a b : list ascii) (alo blo : nat) (fuel i j : nat) : nat :=
  match fuel with
  | 0 => 0
  | S fuel' =>
      if Ascii.eqb (at_ a i) (at_ b j) then
        S (if (alo <? i) && (blo <? j)
           then run_len a b alo blo fuel' (i - 1) (j - 1) else 0)
      else 0
  end.

(** [find_longest_match(alo, ahi, blo, bhi)]: [(besti, bestj, bestsize)]. *)
Definition find_longest_match (a b : list ascii) (alo ahi blo bhi : nat)
  : nat * nat * nat :=
  fold_left
    (fun best i =>
       fold_left
         (fun best j =>
            let k := run_len a b alo blo (S i) i j in
            if snd best <? k then (i + 1 - k, j + 1 - k, k) else best)
         (seq blo (bhi - blo)) best)
    (seq alo (ahi - alo)) (alo, blo, 0).

(** The sum of the sizes of [get_matching_blocks()]. *)
Fixpoint matches (fuel : nat) (a b : list ascii) (alo ahi blo bhi : nat)
  : nat :=
  match fuel with
  | 0 => 0
  | S fuel' =>
      let '(i, j, k) := find_longest_match a b alo ahi blo bhi in
      if k =? 0 then 0
      else
        k
        + (if (alo <? i) && (blo <? j)
           then matches fuel' a b alo i blo j else 0)
        + (if (i + k <? ahi) && (j + k <? bhi)
           then matches fuel' a b (i + k) ahi (j + k) bhi else 0)
  end.

(** [2.0 * matches / length], and [1.0] for two empty strings. *)
Definition ratio (x y : string) : float :=
  let a := list_ascii_of_string x in
  let b := list_ascii_of_string y in
  let la := List.length a in
  let lb := List.length b in
  if la + lb =? 0 then of_Z 1
  else
    fdiv (fmul (of_Z 2) (of_Z (Z.of_nat (matches (S (la + lb)) a b 0 la 0 lb))))
         (of_Z (Z.of_nat (la + lb))).

End Difflib.


(* ===================================================================== *)
(** * Match records and the rows the tiers work on *)
(* ===================================================================== *)

(** One entry of a [matched] list. [erp_idx] and [ven_idx] are the index
    labels of the two rows the record was built from (the labels the loop
    adds to [used_e] and [used_v] next to the [append]); the other fields
    are the keys of the Python dict, a key the tier does not write being
    [None]. *)
Record match_record : Type := mkMatch {
  erp_idx : nat;
  ven_idx : nat;
  erp_invoice : string;
  vendor_invoice : string;
  erp_amount : float;
  vendor_amount : float;
  difference : float;
  erp_entity : option string;
  vendor_entity : option string;
  status : option string;
  fuzzy_score : option float;
  match_date : option string;
  match_type : option string
}.

(** A row of a missing-invoice table: [Invoice], [Amount] and, when the
    source table had the column, [Date] and [Entity]. *)
Record miss_row : Type := mkMiss {
  Invoice : cell;
  Amount : float;
  Date : option cell;
  Entity : option cell
}.

(** [str(row.get(col, ""))] for an optional column. *)
Definition opt_str (c : option cell) : string :=
  match c with
  | Some v => str_of v
  | None => ""
  end.

(** [str(row.get(col, "")) if col in row else ""] reads the same. *)
Definition entity_str (c : option cell) : string := opt_str c.

(* ===================================================================== *)
(** * recon_raptor_fincomms.py *)
(* ===================================================================== *)

Module Fincomms.

Import Fincomms_clean.

(** [f"{name}_{tag}"] *)
Definition col (name tag : string) : string := name ++ "_" ++ tag.

(** [calculate_amount_vendor] *)
Definition calculate_amount_vendor (r : row) (debit_col credit_col : string)
  : float :=
  let debit := normalize_number (row_get r debit_col (Text "0")) in
  let credit := normalize_number (row_get r credit_col (Text "0")) in
  if negb (feq debit zero) then debit
  else if negb (feq credit zero) then fneg (fabs credit)
  else zero.

(** [calculate_amount_erp] *)
Definition calculate_amount_erp (r : row) (debit_col credit_col : string)
  : float :=
  let debit := normalize_number (row_get r debit_col (Text "0")) in
  let credit := normalize_number (row_get r credit_col (Text "0")) in
  if negb (feq credit zero) then credit
  else if negb (feq debit zero) then fneg (fabs debit)
  else zero.

(** A row of the working copy: the source row with [__amount] and
    [__inv_clean]. *)
Record work_row : Type := mkWork {
  w_src : row;
  w_amount : float;
  w_inv_clean : string
}.

(** A consolidated row: the first row of its group with [__net_amount] and
    [__entry_count]. *)
Record cons_row : Type := mkCons {
  c_src : row;
  c_amount : float;
  c_inv_clean : string;
  c_net_amount : float;
  c_entry_count : nat
}.

(** [__inv_norm] and [__amt], the two columns [match_invoices] adds. *)
Definition inv_norm (c : cons_row) : string := c_inv_clean c.
Definition amt (c : cons_row) : float := fabs (c_net_amount c).

(** The mask element [x and x != "0"]: the empty string itself when [x] is
    empty ([None]), a boolean otherwise. *)
Definition has_invoice (x : string) : option bool :=
  if is_empty x then None else Some (negb (String.eqb x "0")).

(** The keys of [groupby(..., sort=True)]: each once, sorted. *)
Fixpoint insert_key (k : string) (keys : list string) : list string :=
  match keys with
  | [] => [k]
  | h :: t => if String.leb k h then k :: keys else h :: insert_key k t
  end.

Definition sort_keys (keys : list string) : list string :=
  fold_right insert_key [] keys.

Definition group_keys {R : Type} (key : R -> string) (l : list (nat * R))
  : list string :=
  sort_keys (nodup string_dec (map (fun p => key (snd p)) l)).

(** The rows of one group, in table order. *)
Definition group_of {R : Type} (key : R -> string) (k : string)
           (l : list (nat * R)) : list (nat * R) :=
  filter (fun p => String.eqb (key (snd p)) k) l.

Section Consolidation.
(** [Series.sum()] of pandas and [round(x, 2)] on a NumPy [float64]:
    library code, taken as parameters. *)
Variable series_sum : list float -> float.
Variable round2 : float -> float.

(** The body of the [for inv_clean, group in ...groupby(...)] loop: the
    rows it appends to [consolidated]. *)
Definition consolidate_group (inv_clean : string)
           (group : list (nat * work_row)) : list (nat * cons_row) :=
  if is_empty inv_clean || String.eqb inv_clean "0" then []
  else
    let net_amount := round2 (series_sum (map (fun p => w_amount (snd p)) group)) in
    if flt (fabs net_amount) (lit 1 2) then []
    else
      match group with
      | (i, b) :: _ =>
          [(i, mkCons (w_src b) (w_amount b) (w_inv_clean b) net_amount
                      (List.length group))]
      | [] => []
      end.

(** The working copy [df] with [__amount] and [__inv_clean]. *)
Definition work_rows (df : frame row) (tag : string)
           (amount_func : row -> string -> string -> float)
  : list (nat * work_row) :=
  map (fun p =>
         (fst p,
          mkWork (snd p)
                 (amount_func (snd p) (col "debit" tag) (col "credit" tag))
                 (clean_invoice_number
                    (row_get (snd p) (col "invoice" tag) NaN))))
      (rows df).

(** [df[has_invoice]] for [b = true], [df[~has_invoice]] for [b = false]. *)
Definition masked (b : bool) (work : list (nat * work_row))
  : list (nat * work_row) :=
  filter (fun p => match has_invoice (w_inv_clean (snd p)) with
                   | Some m => Bool.eqb m b
                   | None => false
                   end) work.

(** The rounded net of the rows of [work] whose cleaned code is [k]. *)
Definition net_of (k : string) (work : list (nat * work_row)) : float :=
  round2 (series_sum (map (fun p => w_amount (snd p))
                          (group_of w_inv_clean k work))).

(** [consolidate_invoices(df, tag, amount_func)]: the consolidated table
    and the payment rows. [None] is an exception of pandas: on a table with
    the invoice column and no row ([df.apply(..., axis=1)] then gives a
    table, not a column, and the selection that follows has no
    [__inv_clean] to group by), and when the mask [has_invoice] holds a
    string (an empty cleaned code) instead of booleans only. *)
Definition consolidate_invoices (df : frame row) (tag : string)
           (amount_func : row -> string -> string -> float)
  : option (frame cons_row * frame work_row) :=
  if negb (has_column df (col "invoice" tag)) then
    Some (empty_frame, empty_frame)
  else if is_empty_frame df then None
  else
    let work := work_rows df tag amount_func in
    if forallb (fun p => match has_invoice (w_inv_clean (snd p)) with
                         | Some _ => true
                         | None => false
                         end) work
    then
      let invoice_rows := masked true work in
      let payment_rows := masked false work in
      let consolidated :=
        flat_map (fun k => consolidate_group k
                             (group_of w_inv_clean k invoice_rows))
                 (group_keys w_inv_clean invoice_rows) in
      let cols := (columns df ++ ["__amount"; "__inv_clean"])%list in
      Some (match consolidated with
            | [] => empty_frame
            | _ => mkFrame (cols ++ ["__net_amount"; "__entry_count"])%list
                           consolidated
            end,
            mkFrame cols payment_rows)
    else None.
End Consolidation.

(** The [Status] of a Tier-1 record. *)
Definition tier1_status (diff : float) : string :=
  if flt diff (lit 1 2) then "Perfect Match" else "Difference Match".

(** The dict appended by Tier 1. *)
Definition tier1_record (ei : nat) (e : cons_row) (vi : nat) (v : cons_row)
  : match_record :=
  let e_amt := fabs (amt e) in
  let v_amt := fabs (amt v) in
  let diff := fabs (fsub e_amt v_amt) in
  mkMatch ei vi
    (str_of (row_get (c_src e) "invoice_erp" (Text "")))
    (str_of (row_get (c_src v) "invoice_ven" (Text "")))
    (py_round2 e_amt) (py_round2 v_amt) (py_round2 diff)
    (Some (entity_str (row_lookup (c_src e) "entity_erp")))
    (Some (entity_str (row_lookup (c_src v) "entity_ven")))
    (Some (tier1_status diff)) None None (Some "Tier-1").

(** The test of the Tier-1 inner loop: [e_inv == v_inv and e_inv]. *)
Definition tier1_ok (e : cons_row) (vi : nat) (v : cons_row) : bool :=
  String.eqb (inv_norm e) (inv_norm v) && negb (is_empty (inv_norm e)).

(** The Tier-1 inner loop for one ERP row. *)
Definition tier1_pick (ven : list (nat * cons_row)) (ei : nat) (e : cons_row)
           (used_v : list nat) : option (nat * cons_row) :=
  scan_first (tier1_ok e) used_v ven.

(** The Tier-1 loops of [match_invoices]. *)
Definition tier1 (erp ven : list (nat * cons_row))
  : greedy_state (M := match_record) :=
  greedy true (tier1_pick ven) tier1_record erp.

(** The renaming and column selection that formats a missing table. *)
Definition to_miss (tag : string) (c : cons_row) : miss_row :=
  mkMiss (row_get (c_src c) (col "invoice" tag) NaN) (amt c)
         (row_lookup (c_src c) (col "date" tag))
         (row_lookup (c_src c) (col "entity" tag)).

Definition miss_columns (tag : string) (cols : list string) : list string :=
  let has c := existsb (String.eqb c) cols in
  ((if has (col "invoice" tag) then ["Invoice"] else [])
   ++ ["Amount"]
   ++ (if has (col "date" tag) then ["Date"] else [])
   ++ (if has (col "entity" tag) then ["Entity"] else []))%list.

(** The unmatched rows of one side after Tier 1, formatted. *)
Definition missing (tag : string) (c : frame cons_row) (used : list nat)
  : frame miss_row :=
  if is_empty_frame c then empty_frame
  else
    match drop_used used (rows c) with
    | [] => mkFrame (columns c ++ ["__inv_norm"; "__amt"])%list []
    | m => mkFrame (miss_columns tag (columns c))
                   (reset_index (map (fun p => (fst p, to_miss tag (snd p))) m))
    end.

Section MatchInvoices.
Variable series_sum : list float -> float.
Variable round2 : float -> float.

(** [match_invoices(erp_df, ven_df)]:
    [(matched, miss_erp, miss_ven, erp_payments, ven_payments)]. *)
Definition match_invoices (erp_df ven_df : frame row)
  : option (list match_record * frame miss_row * frame miss_row
            * frame work_row * frame work_row) :=
  match consolidate_invoices series_sum round2 erp_df "erp"
                             calculate_amount_erp,
        consolidate_invoices series_sum round2 ven_df "ven"
                             calculate_amount_vendor with
  | Some (erp_c, erp_payments), Some (ven_c, ven_payments) =>
      if is_empty_frame erp_c && is_empty_frame ven_c then
        Some ([], empty_frame, empty_frame, erp_payments, ven_payments)
      else
        let '(matched, used_erp, used_ven) :=
          if negb (is_empty_frame erp_c) && negb (is_empty_frame ven_c)
          then tier1 (rows erp_c) (rows ven_c)
          else ([], [], []) in
        Some (matched, missing "erp" erp_c used_erp,
              missing "ven" ven_c used_ven, erp_payments, ven_payments)
  | _, _ => None
  end.
End MatchInvoices.

Section Tiers.
(** [fuzzy_ratio]: [SequenceMatcher(None, a, b).ratio()], library code. *)
Variable fuzzy_ratio : string -> string -> float.

(** The cleaned code of a missing row: [clean_invoice_number(str(...))]. *)
Definition code_of (r : miss_row) : string :=
  clean_invoice_number (Text (str_of (Invoice r))).

(** [abs(float(row.get("Amount", 0)))] *)
Definition amount_of (r : miss_row) : float := fabs (Amount r).

(** Tier 2: [1.0] on containment, else the ratio. *)
Definition similarity (e_code v_code : string) : float :=
  if contains e_code v_code || contains v_code e_code then of_Z 1
  else fuzzy_ratio e_code v_code.

(** The Tier-2 inner loop with its [best_match] and [best_score]. *)
Fixpoint scan_best (e_amt : float) (e_code : string) (used_v : list nat)
         (ven : list (nat * miss_row))
         (best_match : option (nat * miss_row * float))
         (best_score : float) : option (nat * miss_row * float) :=
  match ven with
  | [] => best_match
  | (vi, vr) :: rest =>
      if mem vi used_v then
        scan_best e_amt e_code used_v rest best_match best_score
      else if fgt (fabs (fsub e_amt (amount_of vr))) (lit 100 2) then
        scan_best e_amt e_code used_v rest best_match best_score
      else
        let sim := similarity e_code (code_of vr) in
        if fge sim (lit 90 2) && fgt sim best_score then
          scan_best e_amt e_code used_v rest (Some (vi, vr, sim)) sim
        else scan_best e_amt e_code used_v rest best_match best_score
  end.

(** A Tier-2 candidate for [er]: unconsumed, amount not more than 1.00
    away, similarity at least 0.90. *)
Definition tier2_candidate (er : miss_row) (used_v : list nat)
           (p : nat * miss_row) : bool :=
  negb (mem (fst p) used_v)
  && negb (fgt (fabs (fsub (amount_of er) (amount_of (snd p)))) (lit 100 2))
  && fge (similarity (code_of er) (code_of (snd p))) (lit 90 2).

Definition tier2_pick (ven : list (nat * miss_row)) (ei : nat)
           (er : miss_row) (used_v : list nat) : option (nat * miss_row) :=
  match scan_best (amount_of er) (code_of er) used_v ven None zero with
  | Some (vi, vr, _) => Some (vi, vr)
  | None => None
  end.

(** The dict appended by Tier 2. *)
Definition tier2_record (ei : nat) (er : miss_row) (vi : nat)
           (vr : miss_row) : match_record :=
  let e_amt := amount_of er in
  let v_amt := amount_of vr in
  mkMatch ei vi (str_of (Invoice er)) (str_of (Invoice vr))
    (py_round2 e_amt) (py_round2 v_amt)
    (py_round2 (fabs (fsub e_amt v_amt)))
    (Some (entity_str (Entity er))) (Some (entity_str (Entity vr)))
    None (Some (py_round2 (similarity (code_of er) (code_of vr)))) None
    (Some "Tier-2").

(** [tier2_match(erp_miss, ven_miss)]: [(mdf, rem_e, rem_v)]. *)
Definition tier2_match (erp_miss ven_miss : frame miss_row)
  : list match_record * frame miss_row * frame miss_row :=
  if is_empty_frame erp_miss || is_empty_frame ven_miss then
    ([], erp_miss, ven_miss)
  else
    let '(matches, used_e, used_v) :=
      greedy true (tier2_pick (rows ven_miss)) tier2_record
             (rows erp_miss) in
    (matches,
     mkFrame (columns erp_miss) (drop_used used_e (rows erp_miss)),
     mkFrame (columns ven_miss) (drop_used used_v (rows ven_miss))).

(** The test of the Tier-3 inner loop. *)
Definition tier3_ok (er : miss_row) (vi : nat) (vr : miss_row) : bool :=
  let e_date := opt_str (Date er) in
  let v_date := opt_str (Date vr) in
  negb (is_empty v_date || negb (String.eqb e_date v_date))
  && fge (fuzzy_ratio (code_of er) (code_of vr)) (lit 75 2).

Definition tier3_pick (ven : list (nat * miss_row)) (ei : nat)
           (er : miss_row) (used_v : list nat) : option (nat * miss_row) :=
  if is_empty (opt_str (Date er)) then None
  else scan_first (tier3_ok er) used_v ven.

(** The dict appended by Tier 3. *)
Definition tier3_record (ei : nat) (er : miss_row) (vi : nat)
           (vr : miss_row) : match_record :=
  let e_amt := amount_of er in
  let v_amt := amount_of vr in
  mkMatch ei vi (str_of (Invoice er)) (str_of (Invoice vr))
    (py_round2 e_amt) (py_round2 v_amt)
    (py_round2 (fabs (fsub e_amt v_amt)))
    (Some (entity_str (Entity er))) (Some (entity_str (Entity vr)))
    None (Some (py_round2 (fuzzy_ratio (code_of er) (code_of vr))))
    (Some (opt_str (Date er))) (Some "Tier-3").

(** [tier3_match(erp_miss, ven_miss)]: [(mdf, rem_e, rem_v)]. *)
Definition tier3_match (erp_miss ven_miss : frame miss_row)
  : list match_record * frame miss_row * frame miss_row :=
  if is_empty_frame erp_miss || is_empty_frame ven_miss then
    ([], erp_miss, ven_miss)
  else if negb (has_column erp_miss "Date")
          || negb (has_column ven_miss "Date") then
    ([], erp_miss, ven_miss)
  else
    let '(matches, used_e, used_v) :=
      greedy true (tier3_pick (rows ven_miss)) tier3_record
             (rows erp_miss) in
    (matches,
     mkFrame (columns erp_miss) (drop_used used_e (rows erp_miss)),
     mkFrame (columns ven_miss) (drop_used used_v (rows ven_miss))).
End Tiers.

(** One entry of the matched-payment list, with the labels of its rows. *)
Record pay_record : Type := mkPay {
  p_erp_idx : nat;
  p_ven_idx : nat;
  p_erp_amount : float;
  p_vendor_amount : float;
  p_erp_date : string;
  p_vendor_date : string;
  p_difference : float
}.

(** [__pay_amt] *)
Definition pay_amt (r : work_row) : float := fabs (w_amount r).

(** The test of the payment loop: [abs(e_amt - v_amt) <= 0.05]. *)
Definition pay_ok (e : work_row) (vi : nat) (v : work_row) : bool :=
  fle (fabs (fsub (pay_amt e) (pay_amt v))) (lit 5 2).

Definition pay_record_of (ei : nat) (e : work_row) (vi : nat) (v : work_row)
  : pay_record :=
  mkPay ei vi (py_round2 (pay_amt e)) (py_round2 (pay_amt v))
        (str_of (row_get (w_src e) "date_erp" (Text "")))
        (str_of (row_get (w_src v) "date_ven" (Text "")))
        (py_round2 (fabs (fsub (pay_amt e) (pay_amt v)))).

(** The inner loop of [match_payments] for one ERP payment. *)
Definition pay_pick (ven : list (nat * work_row)) (ei : nat) (e : work_row)
           (used_v : list nat) : option (nat * work_row) :=
  scan_first (pay_ok e) used_v ven.

(** The loops of [match_payments]: the records and the labels used (the
    code keeps [used_v] only; the ERP labels are kept here next to it). *)
Definition payment_loop (erp ven : list (nat * work_row))
  : greedy_state (M := pay_record) :=
  greedy false (pay_pick ven) pay_record_of erp.


End Fincomms.


(* ===================================================================== *)
(** * The Streamlit module (server/uploads/...-recon_raptor.py) *)
(* ===================================================================== *)

Module Streamlit.

Import Streamlit_clean.

(** The values of the [__type] column. *)
Inductive doc_kind : Type := INV | CN | IGNORE | UNKNOWN.

Definition is_inv_or_cn (k : doc_kind) : bool :=
  match k with
  | INV | CN => true
  | _ => false
  end.

Definition is_cn (k : doc_kind) : bool :=
  match k with
  | CN => true
  | _ => false
  end.

Definition pay_kw : list string :=
  ["πληρωμ"; "payment"; "remittance"; "bank transfer"; "transferencia";
   "trf"; "remesa"; "pago"; "deposit"; "μεταφορά"; "έμβασμα"; "εξόφληση";
   "pagado"; "paid"; "cobro"].

Definition cn_kw : list string :=
  ["credit"; "nota"; "abono"; "cn"; "πιστωτικό"; "πίστωση"; "ακυρωτικό"].

Definition inv_kw : list string :=
  ["factura"; "invoice"; "inv"; "τιμολόγιο"; "παραστατικό"].

(** [any(k in txt for k in kws)] *)
Definition any_in (kws : list string) (txt : string) : bool :=
  existsb (fun k => contains k txt) kws.

(** [doc_type(row, tag)] *)
Definition doc_type (r : row) (tag : string) : doc_kind :=
  let txt := lower (str_of (row_get r ("reason_" ++ tag) (Text "")) ++ " "
                    ++ str_of (row_get r ("invoice_" ++ tag) (Text ""))) in
  let debit := normalize_number (row_get r ("debit_" ++ tag) (Text "0")) in
  let credit := normalize_number (row_get r ("credit_" ++ tag) (Text "0")) in
  if any_in pay_kw txt then IGNORE
  else if any_in cn_kw txt then CN
  else if any_in inv_kw txt || fgt debit zero || fgt credit zero then INV
  else UNKNOWN.

(** A row with its [__type]. *)
Record typed_row : Type := mkTyped {
  t_src : row;
  t_type : doc_kind
}.

(** [df["__type"] = df.apply(doc_type)] and the filter on INV and CN. *)
Definition classify (df : frame row) (tag : string) : frame typed_row :=
  mkFrame (columns df ++ ["__type"])%list
    (filter (fun p => is_inv_or_cn (t_type (snd p)))
            (map (fun p => (fst p, mkTyped (snd p) (doc_type (snd p) tag)))
                 (rows df))).

(** A consolidated row: the base row of its group with [__inv_clean] and
    [__amt]. *)
Record cons_row : Type := mkCons {
  c_src : row;
  c_type : doc_kind;
  c_inv_clean : string;
  c_amt : float
}.

(** The signed value of one line: [d - c], made non-positive for a credit
    note and non-negative otherwise. *)
Definition signed_value (tag : string) (r : typed_row) : float :=
  let d := normalize_number (row_get (t_src r) ("debit_" ++ tag) (Text "0")) in
  let c := normalize_number (row_get (t_src r) ("credit_" ++ tag) (Text "0")) in
  let raw := fsub d c in
  if is_cn (t_type r) then fneg (fabs raw) else fabs raw.

(** [total = 0.0; for r in g: total += raw] *)
Definition group_total (tag : string) (g : list (nat * typed_row)) : float :=
  fold_left (fun total p => fadd total (signed_value tag (snd p))) g zero.

Definition inv_clean_of (tag : string) (r : typed_row) : string :=
  clean_invoice_code (row_get (t_src r) ("invoice_" ++ tag) NaN).

(** [inv_rows.iloc[0] if not inv_rows.empty else g.iloc[0]] *)
Definition base_row (g : list (nat * typed_row)) : option (nat * typed_row) :=
  match filter (fun p => match t_type (snd p) with INV => true | _ => false end) g with
  | b :: _ => Some b
  | [] => match g with
          | b :: _ => Some b
          | [] => None
          end
  end.

(** The body of the [groupby] loop of [consolidate]: what it appends to
    [grouped]. *)
Definition consolidate_group (tag : string) (inv_clean : string)
           (g : list (nat * typed_row)) : list (nat * cons_row) :=
  if is_empty inv_clean || String.eqb inv_clean "0" then []
  else
    let net_val := py_round2 (group_total tag g) in
    if feq (fabs net_val) zero then []
    else
      match base_row g with
      | Some (i, b) =>
          [(i, mkCons (t_src b) (t_type b) inv_clean (fabs net_val))]
      | None => []
      end.

(** What [consolidate] returns: the table as it came when there is no
    invoice column, [pd.DataFrame(grouped)] otherwise. *)
Inductive consolidated : Type :=
  | Unchanged (df : frame typed_row)
  | Grouped (grouped : list (nat * cons_row)).

(** [consolidate(df, tag)] inside [match_invoices] *)
Definition consolidate (df : frame typed_row) (tag : string) : consolidated :=
  if negb (has_column df ("invoice_" ++ tag)) then Unchanged df
  else
    Grouped
      (flat_map (fun k => consolidate_group tag k
                            (Fincomms.group_of (inv_clean_of tag) k (rows df)))
                (Fincomms.group_keys (inv_clean_of tag) (rows df))).

(** A row of [erp_use] / [ven_use]: the base row and its cleaned [__amt]. *)
Record use_row : Type := mkUse {
  u_src : row;
  u_amt : float
}.

Section Matching.
(** Library code taken as parameters: [str(x)] of a float,
    [SequenceMatcher(None, a, b).ratio()], and [normalize_date] (pandas'
    [to_datetime]). *)
Variable float_str : float -> string.
Variable fuzzy_ratio : string -> string -> float.
Variable normalize_date : cell -> string.

(** The final cleanup of [__amt]: [round(normalize_number(x), 2)]. *)
Definition clean_amt (x : float) : float :=
  py_round2 (normalize_number (Text (float_str x))).

(** The rows Tier 1 runs on. [None]: the code raises, which it does when
    [consolidate] left the table unchanged (no invoice column: KeyError at
    [erp_use["invoice_erp"]] at the latest) and when nothing was grouped
    (the empty table has no [__amt] and no debit column to build it
    from). *)
Definition use_rows (c : consolidated) : option (list (nat * use_row)) :=
  match c with
  | Unchanged _ => None
  | Grouped [] => None
  | Grouped g =>
      Some (map (fun p => (fst p, mkUse (c_src (snd p))
                                        (clean_amt (c_amt (snd p)))))
                (filter (fun p => is_inv_or_cn (c_type (snd p))) g))
  end.

(** [str(row.get("invoice_<tag>", "")).strip()] *)
Definition inv_str (tag : string) (r : use_row) : string :=
  strip (str_of (row_get (u_src r) ("invoice_" ++ tag) (Text ""))).

(** [round(float(row.get("__amt", 0.0)), 2)] *)
Definition amt2 (r : use_row) : float := py_round2 (u_amt r).

Definition tier1_status (diff : float) : string :=
  if fle diff (lit 1 2) then "Perfect Match" else "Difference Match".

(** The test of the Tier-1 inner loop: [e_inv == v_inv]. *)
Definition tier1_ok (e : use_row) (vi : nat) (v : use_row) : bool :=
  String.eqb (inv_str "erp" e) (inv_str "ven" v).

Definition tier1_record (ei : nat) (e : use_row) (vi : nat) (v : use_row)
  : match_record :=
  let diff := fabs (fsub (amt2 e) (amt2 v)) in
  mkMatch ei vi (inv_str "erp" e) (inv_str "ven" v) (amt2 e) (amt2 v)
          (py_round2 diff) None None (Some (tier1_status diff)) None None
          None.

Definition tier1_pick (ven : list (nat * use_row)) (ei : nat) (e : use_row)
           (used_v : list nat) : option (nat * use_row) :=
  scan_first (tier1_ok e) used_v ven.

(** The Tier-1 loops of [match_invoices] (the code keeps [used_vendor]
    only). *)
Definition tier1 (erp ven : list (nat * use_row))
  : greedy_state (M := match_record) :=
  greedy false (tier1_pick ven) tier1_record erp.

(** [__inv_norm] *)
Definition inv_norm (tag : string) (r : use_row) : string :=
  clean_invoice_code (row_get (u_src r) ("invoice_" ++ tag) NaN).

Definition code_in (c : string) (l : list string) : bool :=
  existsb (String.eqb c) l.

Definition to_miss (tag : string) (r : use_row) : miss_row :=
  mkMiss (row_get (u_src r) ("invoice_" ++ tag) NaN) (u_amt r)
         (row_lookup (u_src r) ("date_" ++ tag)) None.

(** [miss = use[~use["__inv_norm"].isin(matched codes)]], renamed, cut to
    [Invoice], [Amount], [Date] and re-indexed. *)
Definition missing (tag : string) (cols : list string)
           (use : list (nat * use_row)) (matched_inv : list string)
  : frame miss_row :=
  let codes := map (fun s => clean_invoice_code (Text s)) matched_inv in
  mkFrame
    (["Invoice"; "Amount"]
     ++ (if existsb (String.eqb ("date_" ++ tag)) cols then ["Date"] else []))%list
    (reset_index
       (map (fun p => (fst p, to_miss tag (snd p)))
            (filter (fun p => negb (code_in (inv_norm tag (snd p)) codes))
                    use))).

(** [match_invoices(erp_df, ven_df)]: [(matched_df, miss_erp, miss_ven)],
    or [None] when it raises. *)
Definition match_invoices (erp_df ven_df : frame row)
  : option (list match_record * frame miss_row * frame miss_row) :=
  let erp_t := classify erp_df "erp" in
  let ven_t := classify ven_df "ven" in
  match use_rows (consolidate erp_t "erp"),
        use_rows (consolidate ven_t "ven") with
  | Some erp_use, Some ven_use =>
      let matched := fst (fst (tier1 erp_use ven_use)) in
      Some (matched,
            missing "erp" (columns erp_t) erp_use (map erp_invoice matched),
            missing "ven" (columns ven_t) ven_use
                    (map vendor_invoice matched))
  | _, _ => None
  end.

Definition code_of (r : miss_row) : string :=
  clean_invoice_code (Text (str_of (Invoice r))).

(** [round(float(row.get("Amount", 0.0)), 2)] *)
Definition amount_of (r : miss_row) : float := py_round2 (Amount r).

Definition similarity (e_code v_code : string) : float :=
  if contains e_code v_code || contains v_code e_code then of_Z 1
  else fuzzy_ratio e_code v_code.

(** The test of the Tier-2 inner loop: [diff <= 1.00 and sim >= 0.90]. *)
Definition tier2_ok (er : miss_row) (vi : nat) (vr : miss_row) : bool :=
  fle (fabs (fsub (amount_of er) (amount_of vr))) (lit 100 2)
  && fge (similarity (code_of er) (code_of vr)) (lit 90 2).

Definition tier2_pick (ven : list (nat * miss_row)) (ei : nat)
           (er : miss_row) (used_v : list nat) : option (nat * miss_row) :=
  scan_first (tier2_ok er) used_v ven.

Definition tier2_record (ei : nat) (er : miss_row) (vi : nat)
           (vr : miss_row) : match_record :=
  mkMatch ei vi (str_of (Invoice er)) (str_of (Invoice vr))
    (amount_of er) (amount_of vr)
    (py_round2 (fabs (fsub (amount_of er) (amount_of vr)))) None None
    None (Some (py_round2 (similarity (code_of er) (code_of vr)))) None
    (Some "Tier-2").

(** [tier2_match(erp_miss, ven_miss)]:
    [(mdf, used_e, used_v, rem_e, rem_v)]. *)
Definition tier2_match (erp_miss ven_miss : frame miss_row)
  : list match_record * list nat * list nat
    * frame miss_row * frame miss_row :=
  if is_empty_frame erp_miss || is_empty_frame ven_miss then
    ([], [], [], erp_miss, ven_miss)
  else
    let '(matches, used_e, used_v) :=
      greedy true (tier2_pick (rows ven_miss)) tier2_record
             (rows erp_miss) in
    (matches, used_e, used_v,
     mkFrame (columns erp_miss) (drop_used used_e (rows erp_miss)),
     mkFrame (columns ven_miss) (drop_used used_v (rows ven_miss))).

(** [normalize_date(row.get("Date", "")) if "Date" in row else ""] *)
Definition date_of (r : miss_row) : string :=
  match Date r with
  | Some d => normalize_date d
  | None => ""
  end.

(** The test of the Tier-3 inner loop. *)
Definition tier3_ok (er : miss_row) (vi : nat) (vr : miss_row) : bool :=
  negb (is_empty (date_of vr))
  && (String.eqb (date_of er) (date_of vr)
      && fge (fuzzy_ratio (code_of er) (code_of vr)) (lit 75 2)).

Definition tier3_pick (ven : list (nat * miss_row)) (ei : nat)
           (er : miss_row) (used_v : list nat) : option (nat * miss_row) :=
  if is_empty (date_of er) then None
  else scan_first (tier3_ok er) used_v ven.

Definition tier3_record (ei : nat) (er : miss_row) (vi : nat)
           (vr : miss_row) : match_record :=
  mkMatch ei vi (str_of (Invoice er)) (str_of (Invoice vr))
    (amount_of er) (amount_of vr)
    (py_round2 (fabs (fsub (amount_of er) (amount_of vr)))) None None
    None (Some (py_round2 (fuzzy_ratio (code_of er) (code_of vr))))
    (Some (date_of er)) (Some "Tier-3").

(** [tier3_match(erp_miss, ven_miss)] *)
Definition tier3_match (erp_miss ven_miss : frame miss_row)
  : list match_record * list nat * list nat
    * frame miss_row * frame miss_row :=
  if is_empty_frame erp_miss || is_empty_frame ven_miss then
    ([], [], [], erp_miss, ven_miss)
  else
    let '(matches, used_e, used_v) :=
      greedy true (tier3_pick (rows ven_miss)) tier3_record
             (rows erp_miss) in
    (matches, used_e, used_v,
     mkFrame (columns erp_miss) (drop_used used_e (rows erp_miss)),
     mkFrame (columns ven_miss) (drop_used used_v (rows ven_miss))).

(** [df[~df["Invoice"].astype(str).isin(used)]] when [df] is not empty. *)
Definition drop_invoices (used : list string) (df : frame miss_row)
  : frame miss_row :=
  mkFrame (columns df)
    (filter (fun p => negb (code_in (str_of (Invoice (snd p))) used))
            (rows df)).

(** [df[~df["Invoice"].apply(clean_invoice_code).isin(
        [clean_invoice_code(x) for x in used])]] when [df] is not empty. *)
Definition drop_codes (used : list string) (df : frame miss_row)
  : frame miss_row :=
  mkFrame (columns df)
    (filter (fun p => negb (code_in (clean_invoice_code (Invoice (snd p)))
                              (map (fun x => clean_invoice_code (Text x))
                                   used)))
            (rows df)).

(** The result of one run of the page: the three tiers' records and the
    two final missing tables. *)
Record run_result : Type := mkRun {
  r_tier1 : list match_record;
  r_tier2 : list match_record;
  r_tier3 : list match_record;
  final_erp_miss : frame miss_row;
  final_ven_miss : frame miss_row
}.

(** The reconciliation the page runs once both files are uploaded:
    Tier 1, the de-duplication filters, Tier 2, Tier 3. *)
Definition reconcile (erp_df ven_df : frame row) : option run_result :=
  match match_invoices erp_df ven_df with
  | None => None
  | Some (tier1, miss_erp, miss_ven) =>
      let used_erp_inv := map erp_invoice tier1 in
      let used_ven_inv := map vendor_invoice tier1 in
      let miss_erp := drop_invoices used_erp_inv miss_erp in
      let miss_ven := drop_invoices used_ven_inv miss_ven in
      let '(tier2, _, _, miss_erp2, miss_ven2) :=
        tier2_match miss_erp miss_ven in
      let used_erp_inv := (used_erp_inv ++ map erp_invoice tier2)%list in
      let used_ven_inv := (used_ven_inv ++ map vendor_invoice tier2)%list in
      let miss_erp2 :=
        match tier2 with
        | [] => miss_erp2
        | _ => drop_codes used_erp_inv miss_erp2
        end in
      let miss_ven2 :=
        match tier2 with
        | [] => miss_ven2
        | _ => drop_codes used_ven_inv miss_ven2
        end in
      let '(tier3, _, _, final_erp, final_ven) :=
        tier3_match miss_erp2 miss_ven2 in
      Some (mkRun tier1 tier2 tier3
                  (drop_codes used_erp_inv final_erp)
                  (drop_codes used_ven_inv final_ven))
  end.
End Matching.

(** A payment row with its computed [Amount]. *)
Record pay_row : Type := mkPayRow {
  pay_src : row;
  pay_amount : float
}.

(** The test of the payment loop of [extract_payments]. *)
Definition pay_ok (e : pay_row) (vi : nat) (v : pay_row) : bool :=
  fle (fabs (fsub (pay_amount e) (pay_amount v))) (lit 5 2).

(** One entry of [pay_match], with the labels of its rows. *)
Record pay_record : Type := mkPay {
  p_erp_idx : nat;
  p_ven_idx : nat;
  p_erp_reason : cell;
  p_vendor_reason : cell;
  p_erp_amount : float;
  p_vendor_amount : float;
  p_difference : float
}.

Definition pay_record_of (ei : nat) (e : pay_row) (vi : nat) (v : pay_row)
  : pay_record :=
  mkPay ei vi (row_get (pay_src e) "reason_erp" (Text ""))
        (row_get (pay_src v) "reason_ven" (Text ""))
        (pay_amount e) (pay_amount v)
        (py_round2 (fabs (fsub (pay_amount e) (pay_amount v)))).

Definition pay_pick (ven_pay : list (nat * pay_row)) (ei : nat) (e : pay_row)
           (used_v : list nat) : option (nat * pay_row) :=
  scan_first (pay_ok e) used_v ven_pay.

(** The matching loops at the end of [extract_payments]. *)
Definition payment_loop (erp_pay ven_pay : list (nat * pay_row))
  : greedy_state (M := pay_record) :=
  greedy false (pay_pick ven_pay) pay_record_of erp_pay.

End Streamlit.


(** What [clean_invoice_code] does to the stripped text of a cell. *)
Definition streamlit_clean_body (t : string) : string :=
  let s := lower t in
  let s := Streamlit_clean.pick_numeric
             (rev (split_by Streamlit_clean.is_split s)) s in
  let s := Streamlit_clean.sub_known_prefix s in
  let s := sub_years Streamlit_clean.no_sep false s in
  let s := keep Streamlit_clean.is_lower_alnum s in
  let s := lstrip_by Streamlit_clean.is_zero s in
  let s := keep is_digit s in
  or_default s "0".

(** The normalised code a record carries on its ERP and on its vendor
    side, in the Streamlit module. *)
Definition erp_code (m : match_record) : string :=
  Streamlit_clean.clean_invoice_code (Text (erp_invoice m)).
Definition ven_code (m : match_record) : string :=
  Streamlit_clean.clean_invoice_code (Text (vendor_invoice m)).


(** The normalised codes of the rows of a missing-invoice table. *)
Definition miss_codes (df : frame miss_row) : list string :=
  map (fun p => Streamlit.code_of (snd p)) (rows df).

(** The normalised codes of the rows Tier 1 runs on. *)
Definition use_codes (tag : string) (use : list (nat * Streamlit.use_row))
  : list string :=
  map (fun p => Streamlit.inv_norm tag (snd p)) use.


(** The normalised code a record carries on its ERP and on its vendor
    side, in recon_raptor_fincomms.py, and the codes of a missing table. *)
Definition fincomms_erp_code (m : match_record) : string :=
  Fincomms_clean.clean_invoice_number (Text (erp_invoice m)).
Definition fincomms_ven_code (m : match_record) : string :=
  Fincomms_clean.clean_invoice_number (Text (vendor_invoice m)).
Definition fincomms_miss_codes (df : frame miss_row) : list string :=
  map (fun p => Fincomms.code_of (snd p)) (rows df).


(* ===================================================================== *)
(** * Further code of the two modules *)
(* ===================================================================== *)

(** ** Text that [float()] refuses *)

(** A [-] occurs somewhere after a digit of [s] ([seen]: a digit is already
    behind). *)
Fixpoint minus_after_digit (seen : bool) (s : string) : bool :=
  match s with
  | "" => false
  | String c r =>
      (seen && Ascii.eqb c "-") || minus_after_digit (seen || is_digit c) r
  end.

(** [[0-9.]] *)
Definition is_digit_or_dot (c : ascii) : bool :=
  is_digit c || Ascii.eqb c ".".

(** ** The validity test of recon_raptor_fincomms.py *)

(** [has_valid_invoice_number] of recon_raptor_fincomms.py *)
Definition has_valid_invoice_number (inv_str : cell) : bool :=
  if falsy inv_str || isna inv_str then false
  else
    let s := strip (str_of inv_str) in
    if String.length s <? 2 then false
    else
      let cleaned := Fincomms_clean.clean_invoice_number (Text s) in
      (1 <=? String.length cleaned) && negb (String.eqb cleaned "0").

(** ** [normalize_columns]: the rename map and the column labels *)

(** A Python [dict] from strings to strings, in insertion order. *)
Definition dict : Type := list (string * string).

(** [d[k] = v]: an existing key keeps its place. *)
Fixpoint dict_set (k v : string) (d : dict) : dict :=
  match d with
  | [] => [(k, v)]
  | (k', v') :: r =>
      if String.eqb k' k then (k, v) :: r else (k', v') :: dict_set k v r
  end.

(** [d.get(k)] *)
Fixpoint dict_get (k : string) (d : dict) : option string :=
  match d with
  | [] => None
  | (k', v') :: r => if String.eqb k' k then Some v' else dict_get k r
  end.

(** [{c: str(c).strip().lower() for c in df.columns}] *)
Definition cols_lower (cols : list string) : dict :=
  fold_left (fun d c => dict_set c (lower (strip c)) d) cols [].

(** [any(a in low for a in aliases)] *)
Definition alias_in (aliases : list string) (low : string) : bool :=
  existsb (fun a => contains a low) aliases.

(** [f"{key}_{tag}"] *)
Definition tagged (tag key : string) : string := key ++ "_" ++ tag.

(** [v.split('_')[0]] *)
Fixpoint split_head (v : string) : string :=
  match v with
  | "" => ""
  | String c r => if Ascii.eqb c "_" then "" else String c (split_head r)
  end.

Definition no_underscore (k : string) : bool :=
  all_chars (fun c => negb (Ascii.eqb c "_")) k.

(** [df.rename(columns=rename_map).columns] *)
Definition renamed (rename_map : dict) (cols : list string) : list string :=
  map (fun c => match dict_get c rename_map with
                | Some n => n
                | None => c
                end) cols.

(** [if c not in out.columns: out[c] = 0.0], on the column labels. *)
Definition ensure_column (c : string) (cols : list string) : list string :=
  if existsb (String.eqb c) cols then cols else (cols ++ [c])%list.

Module Fincomms_columns.

(** The [mapping] of recon_raptor_fincomms.py, in its order. *)
Definition mapping : list (string * list string) :=
  [("invoice",
    ["invoice"; "invoice number"; "inv no"; "inv"; "factura"; "fact";
     "numero"; "document"; "doc"; "ref"; "reference";
     "alternative document"; "alt document"; "alt. document";
     "voucher"; "bill"; "receipt"]);
   ("debit", ["debit"; "debe"; "cargo"; "dr"; "charge"]);
   ("credit", ["credit"; "haber"; "abono"; "cr"; "payment"]);
   ("amount", ["amount"; "importe"; "valor"; "total"; "value"; "sum"; "net"]);
   ("date", ["date"; "fecha"; "data"; "issue date"; "posting date";
             "doc date"; "document date"]);
   ("entity", ["entity"; "company"; "business unit"; "bu"; "cost center";
               "cc"; "department"; "dept"; "organization"; "org"])].

(** The inner loop up to its [break]: the first column, in table order,
    whose lowered label holds one of the aliases. *)
Fixpoint first_col (aliases : list string) (items : dict) : option string :=
  match items with
  | [] => None
  | (col, low) :: r =>
      if alias_in aliases low then Some col else first_col aliases r
  end.

(** One turn of the outer loop. *)
Definition assign (tag : string) (items : dict) (rename_map : dict)
           (ka : string * list string) : dict :=
  match first_col (snd ka) items with
  | Some col =>
      if negb (existsb (String.eqb (fst ka))
                       (map (fun kv => split_head (snd kv)) rename_map))
      then dict_set col (tagged tag (fst ka)) rename_map
      else rename_map
  | None => rename_map
  end.

(** [rename_map] once the loops are over. *)
Definition rename_map (tag : string) (cols : list string) : dict :=
  fold_left (assign tag (cols_lower cols)) mapping [].

(** The column labels after the renaming and the two guarantees. *)
Definition normalized_columns (tag : string) (cols : list string)
  : list string :=
  ensure_column (tagged tag "credit")
    (ensure_column (tagged tag "debit") (renamed (rename_map tag cols) cols)).

(** The last key of [mp], in its order, whose first matching column is
    [col]. *)
Definition last_claim (items : dict) (col : string)
           (mp : list (string * list string)) : option string :=
  fold_left (fun acc ka =>
               match first_col (snd ka) items with
               | Some c => if String.eqb c col then Some (fst ka) else acc
               | None => acc
               end) mp None.

End Fincomms_columns.

Module Streamlit_columns.

(** The [mapping] of the Streamlit module, in its order; the labels that
    are not ASCII are kept as their UTF-8 bytes. *)
Definition invoice_aliases : list string :=
  ["invoice"; "invoice number"; "inv no"; "factura"; "fact"; "nº"; "num";
   "numero"; "document"; "doc"; "ref"; "αρ"; "παραστ";
   "alternative document"; "alt document"; "alt. document";
   "alternative doc"].

Definition credit_aliases : list string :=
  ["credit"; "haber"; "credito"; "abono"].

Definition debit_aliases : list string :=
  ["debit"; "debe"; "cargo"; "importe"; "amount"; "valor"; "total"].

Definition reason_aliases : list string :=
  ["reason"; "motivo"; "concepto"; "descripcion"; "detalle"; "περιγραφή"].

Definition date_aliases : list string :=
  ["date"; "fecha"; "data"; "issue date"; "posting date"; "ημερομηνία"].

Definition mapping : list (string * list string) :=
  [("invoice", invoice_aliases); ("credit", credit_aliases);
   ("debit", debit_aliases); ("reason", reason_aliases);
   ("date", date_aliases)].

(** The inner loop: every column whose lowered label holds one of the
    aliases is given the name. *)
Definition assign (tag : string) (items : dict) (rename_map : dict)
           (ka : string * list string) : dict :=
  fold_left (fun m cl =>
               if alias_in (snd ka) (snd cl)
               then dict_set (fst cl) (tagged tag (fst ka)) m
               else m) items rename_map.

Definition rename_map (tag : string) (cols : list string) : dict :=
  fold_left (assign tag (cols_lower cols)) mapping [].

(** The labels of [out] after the renaming and the loop that guarantees the
    debit and the credit column, before the date column is normalised. *)
Definition guaranteed_columns (tag : string) (cols : list string)
  : list string :=
  ensure_column (tagged tag "credit")
    (ensure_column (tagged tag "debit") (renamed (rename_map tag cols) cols)).

(** [normalize_columns(df, tag)], on the labels of the table it returns.
    [None] is the [ValueError] of the date normalisation: when two columns
    carry [date_<tag>], [out["date_<tag>"]] is a table, [apply] hands
    [normalize_date] a whole column, and [pd.isna(v) or ...] has no truth
    value. On a table with no row [apply] keeps the table as it is. *)
Definition normalize_columns (df : frame row) (tag : string)
  : option (list string) :=
  let out := guaranteed_columns tag (columns df) in
  if (1 <? count_occ string_dec out (tagged tag "date"))
     && negb (is_empty_frame df)
  then None
  else Some out.

(** The last key of [mp], in its order, one of whose aliases occurs in
    [low]. *)
Definition last_key (low : string) (mp : list (string * list string))
  : option string :=
  fold_left (fun acc ka => if alias_in (snd ka) low then Some (fst ka)
                           else acc) mp None.

End Streamlit_columns.

(** ** The payment filter of [extract_payments] (Streamlit module) *)
Module Streamlit_payments.

Definition pay_kw : list string :=
  ["πληρωμή"; "payment"; "remittance"; "bank transfer"; "transferencia";
   "trf"; "remesa"; "pago"; "deposit"; "μεταφορά"; "έμβασμα"; "εξόφληση";
   "pagado"; "paid"; "cobro"].

Definition excl_kw : list string :=
  ["invoice of expenses"; "expense invoice"; "τιμολόγιο εξόδων";
   "διόρθωση"; "correction"; "reclass"; "adjustment"; "μεταφορά υπολοίπου"].

(** The text both [doc_type] and [is_payment] search. *)
Definition row_text (r : row) (tag : string) : string :=
  lower (str_of (row_get r ("reason_" ++ tag) (Text "")) ++ " "
         ++ str_of (row_get r ("invoice_" ++ tag) (Text ""))).

(** [is_payment(row, tag)] *)
Definition is_payment (r : row) (tag : string) : bool :=
  let txt := lower (str_of (row_get r ("reason_" ++ tag) (Text "")) ++ " "
                    ++ str_of (row_get r ("invoice_" ++ tag) (Text ""))) in
  Streamlit.any_in pay_kw txt && negb (Streamlit.any_in excl_kw txt).

(** [df[df.apply(lambda r: is_payment(r, tag), axis=1)]] *)
Definition payments (df : frame row) (tag : string) : list (nat * row) :=
  filter (fun p => is_payment (snd p) tag) (rows df).

End Streamlit_payments.

(** ** [parse_amt] of the balance summary (Streamlit module) *)
Module Streamlit_balance.

(** [[\d.\-]] *)
Definition is_amount_char (c : ascii) : bool :=
  is_digit c || Ascii.eqb c "." || Ascii.eqb c "-".

(** [parse_amt(v)]: the cells are text or the missing value, never [None];
    the euro sign is not an ASCII character, so its [replace] leaves the
    text as it is. *)
Definition parse_amt (v : cell) : float :=
  if is_empty (strip (str_of v)) then S754_nan
  else
    let s := strip (replace " " "" (replace "," "." (str_of v))) in
    let s := keep is_amount_char s in
    match py_float s with
    | Some x => x
    | None => S754_nan
    end.

End Streamlit_balance.


(** ** Tables with distinct column labels *)

(** No label occurs twice. *)
Fixpoint distinct (l : list string) : bool :=
  match l with
  | [] => true
  | x :: r => negb (existsb (String.eqb x) r) && distinct r
  end.

Fixpoint same_labels (a b : list string) : bool :=
  match a, b with
  | [], [] => true
  | x :: a', y :: b' => String.eqb x y && same_labels a' b'
  | _, _ => false
  end.

(** The column labels of the table are distinct and every row carries the
    columns of the table, each once. With a repeated label [row.get] gives
    a [Series] where the code expects one cell, and [row_get] does not stand
    for it. *)
Definition distinct_columns (df : frame row) : bool :=
  distinct (columns df)
  && forallb (fun p => same_labels (map fst (snd p)) (columns df)) (rows df).


(** ** ASCII text *)

(** A character of the ASCII range. On text of such characters [upper] and
    [lower] are Python's [str.upper] and [str.lower]; outside it they are
    not (the upper case of the sharp s is two letters). *)
Definition is_ascii (c : ascii) : bool := code c <? 128.


(* ===================================================================== *)
(** * Properties *)
(* ===================================================================== *)

Example fincomms_clean_doc1 :
  Fincomms_clean.clean_invoice_number (Text "INV00/0123") = "123".
Proof. reflexivity. Qed.

Example fincomms_clean_doc2 :
  Fincomms_clean.clean_invoice_number (Text "inv-000123") = "123".
Proof. reflexivity. Qed.

Example fincomms_clean_doc3 :
  Fincomms_clean.clean_invoice_number (Text "INV 123") = "123".
Proof. reflexivity. Qed.

Example streamlit_clean_42A :
  Streamlit_clean.clean_invoice_code (Text "42-A") = "42".
Proof. reflexivity. Qed.

(** ** Facts about the string primitives *)

Ltac each_char c :=
  destruct c as [[|] [|] [|] [|] [|] [|] [|] [|]].

Lemma keep_all (p : ascii -> bool) (s : string) :
  all_chars p s = true -> keep p s = s.
Proof.
  induction s as [|c r IH]; simpl; intros H; [reflexivity|].
  apply andb_true_iff in H as [Hc Hr].
  rewrite Hc, IH by assumption. reflexivity.
Qed.

Lemma all_chars_keep (p : ascii -> bool) (s : string) :
  all_chars p (keep p s) = true.
Proof.
  induction s as [|c r IH]; simpl; [reflexivity|].
  destruct (p c) eqn:Hc; simpl; [rewrite Hc|]; assumption.
Qed.

Lemma all_chars_impl (p q : ascii -> bool) (s : string) :
  (forall c, p c = true -> q c = true) ->
  all_chars p s = true -> all_chars q s = true.
Proof.
  intros Hpq. induction s as [|c r IH]; simpl; intros H; [reflexivity|].
  apply andb_true_iff in H as [Hc Hr].
  rewrite (Hpq _ Hc), IH by assumption. reflexivity.
Qed.

Lemma all_chars_lstrip (p q : ascii -> bool) (s : string) :
  all_chars p s = true -> all_chars p (lstrip_by q s) = true.
Proof.
  induction s as [|c r IH]; simpl; intros H; [reflexivity|].
  destruct (q c); [|exact H].
  apply andb_true_iff in H as [_ Hr]. auto.
Qed.

Lemma starts_with_lstrip (p : ascii -> bool) (s : string) :
  starts_with p (lstrip_by p s) = false.
Proof.
  induction s as [|c r IH]; simpl; [reflexivity|].
  destruct (p c) eqn:Hc; [assumption|]. simpl. exact Hc.
Qed.

Lemma lstrip_by_id (p : ascii -> bool) (s : string) :
  starts_with p s = false -> lstrip_by p s = s.
Proof.
  destruct s as [|c r]; simpl; intros H; [reflexivity|].
  rewrite H. reflexivity.
Qed.

Lemma rstrip_by_id (p : ascii -> bool) (s : string) :
  all_chars (fun c => negb (p c)) s = true -> rstrip_by p s = s.
Proof.
  induction s as [|c r IH]; simpl; intros H; [reflexivity|].
  apply andb_true_iff in H as [Hc Hr].
  rewrite IH by assumption.
  apply negb_true_iff in Hc. rewrite Hc, andb_false_r. reflexivity.
Qed.

Lemma map_str_id (f : ascii -> ascii) (p : ascii -> bool) (s : string) :
  (forall c, p c = true -> f c = c) ->
  all_chars p s = true -> map_str f s = s.
Proof.
  intros Hf. induction s as [|c r IH]; simpl; intros H; [reflexivity|].
  apply andb_true_iff in H as [Hc Hr].
  rewrite (Hf _ Hc), IH by assumption. reflexivity.
Qed.

Lemma all_chars_starts_with (p q : ascii -> bool) (s : string) :
  (forall c, p c = true -> q c = false) ->
  all_chars p s = true -> starts_with q s = false.
Proof.
  intros Hpq. destruct s as [|c r]; simpl; intros H; [reflexivity|].
  apply andb_true_iff in H as [Hc _]. auto.
Qed.

Lemma strip_id (p : ascii -> bool) (s : string) :
  (forall c, p c = true -> is_space c = false) ->
  all_chars p s = true -> strip s = s.
Proof.
  intros Hp H. unfold strip.
  rewrite lstrip_by_id by (eapply all_chars_starts_with; eauto).
  apply rstrip_by_id.
  eapply all_chars_impl; [|exact H].
  intros c Hc. rewrite (Hp _ Hc). reflexivity.
Qed.

Lemma sub_years_id (sep : ascii -> bool) (s : string) :
  has_year s = false -> sub_years sep false s = s.
Proof.
  induction s as [|c r IH]; [reflexivity|].
  intros H. cbn [sub_years andb].
  destruct r as [|c2 [|c3 [|c4 r4]]].
  - reflexivity.
  - cbn. reflexivity.
  - cbn. reflexivity.
  - cbn [has_year] in H. apply orb_false_iff in H as [H1 H2].
    rewrite H1. f_equal. apply IH. exact H2.
Qed.

Lemma first_alt_none strip1 (alts : list string) (s : string) :
  (forall a, In a alts -> strip1 a s = None) ->
  first_alt strip1 alts s = None.
Proof.
  induction alts as [|a rest IH]; simpl; intros H; [reflexivity|].
  rewrite (H a) by (left; reflexivity). apply IH.
  intros b Hb. apply H. right. exact Hb.
Qed.

Lemma is_empty_true (s : string) : is_empty s = true -> s = "".
Proof. destruct s; [reflexivity|discriminate]. Qed.

Lemma or_default_nonempty (s d : string) :
  is_empty s = false -> or_default s d = s.
Proof. unfold or_default. intros ->. reflexivity. Qed.

(** ** Character-class facts, by enumeration of the 256 characters *)

Lemma upper_alnum_not_space (c : ascii) :
  Fincomms_clean.is_upper_alnum c = true -> is_space c = false.
Proof. each_char c; vm_compute; congruence. Qed.

Lemma upper_alnum_upper (c : ascii) :
  Fincomms_clean.is_upper_alnum c = true -> upper_char c = c.
Proof. each_char c; vm_compute; congruence. Qed.

Lemma upper_char_alpha (c : ascii) :
  is_alpha (upper_char c) = is_alpha c.
Proof. each_char c; vm_compute; congruence. Qed.

Lemma digit_not_space (c : ascii) : is_digit c = true -> is_space c = false.
Proof. each_char c; vm_compute; congruence. Qed.

Lemma digit_lower (c : ascii) : is_digit c = true -> lower_char c = c.
Proof. each_char c; vm_compute; congruence. Qed.

Lemma digit_not_split (c : ascii) :
  is_digit c = true -> Streamlit_clean.is_split c = false.
Proof. each_char c; vm_compute; congruence. Qed.

Lemma digit_lower_alnum (c : ascii) :
  is_digit c = true -> Streamlit_clean.is_lower_alnum c = true.
Proof. unfold Streamlit_clean.is_lower_alnum. intros ->. apply orb_true_r. Qed.

(** ** Invoice-code normalisation: shape of the result and fixed points *)

Lemma strip_prefix_ci_nonalpha (a s : string) :
  starts_with is_alpha a = true -> starts_with is_alpha s = false ->
  strip_prefix_ci a s = None.
Proof.
  destruct a as [|a0 p]; [discriminate|].
  destruct s as [|d r]; [reflexivity|]. simpl. intros Ha Hd.
  destruct (Ascii.eqb (upper_char a0) (upper_char d)) eqn:E; [|reflexivity].
  apply Ascii.eqb_eq in E.
  rewrite <- (upper_char_alpha a0), E, upper_char_alpha in Ha. congruence.
Qed.

Lemma fincomms_known_prefix_id (s : string) :
  starts_with is_alpha s = false -> Fincomms_clean.sub_known_prefix s = s.
Proof.
  intros H. unfold Fincomms_clean.sub_known_prefix.
  rewrite first_alt_none; [reflexivity|].
  intros a Ha. apply strip_prefix_ci_nonalpha; [|exact H].
  assert (F : forallb (starts_with is_alpha) Fincomms_clean.known_prefixes
              = true) by reflexivity.
  rewrite forallb_forall in F. apply F. exact Ha.
Qed.

(** What [clean_invoice_number] can return: nothing, the sentinel, or an
    upper-case alphanumeric code without a leading zero. *)
Lemma fincomms_clean_shape (v : cell) :
  let c := Fincomms_clean.clean_invoice_number v in
  c = "" \/ c = "0" \/
  (is_empty c = false /\
   all_chars Fincomms_clean.is_upper_alnum c = true /\
   starts_with Fincomms_clean.is_zero c = false).
Proof.
  unfold Fincomms_clean.clean_invoice_number.
  destruct (falsy v || isna v); [left; reflexivity|]. right.
  set (k := keep Fincomms_clean.is_upper_alnum _).
  unfold or_default.
  destruct (is_empty (lstrip_by Fincomms_clean.is_zero k)) eqn:E;
    [left; reflexivity|right].
  split; [exact E|]. split.
  - apply all_chars_lstrip. apply all_chars_keep.
  - apply starts_with_lstrip.
Qed.

(** A code that starts with no letter and holds no year-like token is left
    alone by a second normalisation. *)
Lemma fincomms_clean_fixed (c : string) :
  is_empty c = false ->
  all_chars Fincomms_clean.is_upper_alnum c = true ->
  starts_with Fincomms_clean.is_zero c = false ->
  starts_with is_alpha c = false ->
  has_year c = false ->
  Fincomms_clean.clean_invoice_number (Text c) = c.
Proof.
  intros Hne Hall Hz Ha Hy.
  unfold Fincomms_clean.clean_invoice_number. cbn [falsy isna str_of].
  rewrite Hne. cbn [orb].
  rewrite (strip_id _ _ upper_alnum_not_space Hall).
  unfold upper. rewrite (map_str_id _ _ _ upper_alnum_upper Hall).
  rewrite (fincomms_known_prefix_id _ Ha).
  unfold Fincomms_clean.sub_letter_prefix. rewrite Ha.
  rewrite (sub_years_id _ _ Hy).
  rewrite (keep_all _ _ Hall).
  rewrite (lstrip_by_id _ _ Hz).
  apply or_default_nonempty. exact Hne.
Qed.

Lemma strip_prefix_first (a s : string) (p : ascii -> bool) :
  starts_with (fun x => negb (p x)) a = true ->
  starts_with p s = true ->
  strip_prefix a s = None.
Proof.
  destruct a as [|a0 a']; [discriminate|].
  destruct s as [|d r]; [reflexivity|]. simpl. intros Ha Hd.
  destruct (Ascii.eqb a0 d) eqn:E; [|reflexivity].
  apply Ascii.eqb_eq in E. subst d. rewrite Hd in Ha. discriminate.
Qed.

Lemma streamlit_known_prefix_id (s : string) :
  starts_with is_digit s = true -> Streamlit_clean.sub_known_prefix s = s.
Proof.
  intros H. unfold Streamlit_clean.sub_known_prefix.
  rewrite first_alt_none; [reflexivity|].
  intros a Ha. apply (strip_prefix_first a s is_digit); [|exact H].
  assert (F : forallb (starts_with (fun x => negb (is_digit x)))
                Streamlit_clean.known_prefixes = true) by reflexivity.
  rewrite forallb_forall in F. apply F. exact Ha.
Qed.

Lemma split_by_none (p : ascii -> bool) (s : string) :
  all_chars (fun c => negb (p c)) s = true -> split_by p s = [s].
Proof.
  induction s as [|c r IH]; simpl; intros H; [reflexivity|].
  apply andb_true_iff in H as [Hc Hr]. apply negb_true_iff in Hc.
  rewrite Hc, IH by assumption. reflexivity.
Qed.

(** A digit string of length four that is year-like holds a year token. *)
Lemma year_like_has_year (c : string) :
  Streamlit_clean.year_like c = true -> has_year c = true.
Proof.
  destruct c as [|c1 [|c2 [|c3 [|c4 [|c5 r]]]]]; try discriminate.
  cbn. unfold is_20dd. intros H.
  repeat (apply andb_true_iff in H as [H ?]).
  rewrite H, H0, H2. cbn.
  assert (is_digit c3 = true) as ->; [|reflexivity].
  revert H1. clear. each_char c3; vm_compute; congruence.
Qed.

(** What [clean_invoice_code] returns on a truthy cell: a non-empty string
    of decimal digits. *)
Lemma streamlit_clean_shape (v : cell) :
  falsy v = false ->
  let c := Streamlit_clean.clean_invoice_code v in
  is_empty c = false /\ all_chars is_digit c = true.
Proof.
  intros Hv. unfold Streamlit_clean.clean_invoice_code. rewrite Hv.
  set (k := keep is_digit _). unfold or_default.
  destruct (is_empty k) eqn:E; [split; reflexivity|].
  split; [exact E|]. apply all_chars_keep.
Qed.

Lemma streamlit_clean_fixed (c : string) :
  is_empty c = false ->
  all_chars is_digit c = true ->
  leading_zero c = false ->
  has_year c = false ->
  Streamlit_clean.clean_invoice_code (Text c) = c.
Proof.
  intros Hne Hall Hz Hy.
  unfold Streamlit_clean.clean_invoice_code. cbn [falsy str_of].
  rewrite Hne.
  rewrite (strip_id _ _ digit_not_space Hall).
  unfold lower. rewrite (map_str_id _ _ _ digit_lower Hall).
  rewrite split_by_none
    by (eapply all_chars_impl; [|exact Hall];
        intros x Hx; rewrite (digit_not_split _ Hx); reflexivity).
  cbn [rev app Streamlit_clean.pick_numeric].
  unfold Streamlit_clean.all_digits. rewrite Hne, Hall. cbn [negb andb].
  destruct (Streamlit_clean.year_like c) eqn:Ey.
  { apply year_like_has_year in Ey. congruence. }
  cbn [negb].
  destruct c as [|d r]; [discriminate|].
  destruct (Ascii.eqb d "0") eqn:Ed.
  - (* the sentinel itself *)
    destruct r as [|d2 r2]; [|cbn in Hz; congruence].
    apply Ascii.eqb_eq in Ed. subst d. reflexivity.
  - assert (Hs : starts_with Streamlit_clean.is_zero (String d r) = false)
      by exact Ed.
    rewrite (lstrip_by_id _ _ Hs).
    rewrite streamlit_known_prefix_id
      by (cbn; cbn in Hall; apply andb_true_iff in Hall as [? _]; assumption).
    rewrite (sub_years_id _ _ Hy).
    rewrite (keep_all Streamlit_clean.is_lower_alnum)
      by exact (all_chars_impl is_digit _ _ digit_lower_alnum Hall).
    rewrite (lstrip_by_id _ _ Hs).
    rewrite (keep_all _ _ Hall). reflexivity.
Qed.

(** ** Number normalisation *)

Lemma append_assoc (a b c : string) : (a ++ b) ++ c = a ++ (b ++ c).
Proof. induction a as [|x a IH]; simpl; [reflexivity|]. now rewrite IH. Qed.

Lemma append_nil_r (a : string) : a ++ "" = a.
Proof. induction a as [|x a IH]; simpl; [reflexivity|]. now rewrite IH. Qed.

Lemma length_append (a b : string) :
  String.length (a ++ b) = String.length a + String.length b.
Proof. induction a as [|x a IH]; simpl; [reflexivity|]. now rewrite IH. Qed.

Lemma count_app (c : ascii) (a b : string) :
  count c (a ++ b) = count c a + count c b.
Proof. induction a as [|x a IH]; simpl; [reflexivity|]. rewrite IH. lia. Qed.

Lemma replace_app (o : ascii) (n a b : string) :
  replace o n (a ++ b) = replace o n a ++ replace o n b.
Proof.
  induction a as [|x a IH]; simpl; [reflexivity|].
  destruct (Ascii.eqb x o); rewrite IH; [|reflexivity].
  now rewrite append_assoc.
Qed.

Lemma replace_absent (o : ascii) (n s : string) :
  count o s = 0 -> replace o n s = s.
Proof.
  induction s as [|x s IH]; simpl; [reflexivity|].
  destruct (Ascii.eqb x o); [discriminate|].
  intros H. now rewrite IH.
Qed.

Lemma find_app_absent (c : ascii) (a r : string) :
  count c a = 0 -> find c (a ++ String c r) = Some (String.length a).
Proof.
  induction a as [|x a IH]; simpl.
  - now rewrite Ascii.eqb_refl.
  - destruct (Ascii.eqb x c); [discriminate|].
    intros H. now rewrite IH.
Qed.

Lemma replace_n_count (o : ascii) (a t : string) :
  replace_n o "" (count o a) (a ++ t) = replace o "" a ++ t.
Proof.
  induction a as [|x a IH].
  - cbn. destruct t; reflexivity.
  - cbn [count append replace].
    destruct (Ascii.eqb x o) eqn:E.
    + cbn [Nat.add replace_n]. rewrite E. cbn [append]. exact IH.
    + cbn [Nat.add append]. rewrite <- IH.
      destruct (count o a) eqn:C.
      * cbn [replace_n]. destruct (a ++ t); reflexivity.
      * cbn [replace_n]. rewrite E. reflexivity.
Qed.

Lemma no_separator_counts (x : string) :
  no_separator x = true -> count "," x = 0 /\ count "." x = 0.
Proof.
  unfold no_separator. intros H. apply andb_true_iff in H as [H1 H2].
  apply Nat.eqb_eq in H1, H2. split; assumption.
Qed.

(** Period first, comma later: the period goes, the comma is the decimal
    point. *)
Lemma disambiguate_period_comma (a b c : string) :
  no_separator a = true -> no_separator b = true -> no_separator c = true ->
  disambiguate (a ++ "." ++ b ++ "," ++ c) = a ++ b ++ "." ++ c.
Proof.
  intros Ha Hb Hc.
  apply no_separator_counts in Ha as [Ha1 Ha2], Hb as [Hb1 Hb2],
    Hc as [Hc1 Hc2].
  unfold disambiguate.
  assert (C1 : count "," (a ++ "." ++ b ++ "," ++ c) = 1)
    by (rewrite !count_app; cbn; lia).
  assert (C2 : count "." (a ++ "." ++ b ++ "," ++ c) = 1)
    by (rewrite !count_app; cbn; lia).
  rewrite C1, C2. cbn [Nat.eqb andb].
  assert (F2 : find "." (a ++ "." ++ b ++ "," ++ c)
               = Some (String.length a))
    by (apply find_app_absent; assumption).
  assert (F1 : find "," (a ++ "." ++ b ++ "," ++ c)
               = Some (String.length (a ++ "." ++ b))).
  { replace (a ++ "." ++ b ++ "," ++ c) with ((a ++ "." ++ b) ++ "," ++ c)
      by (rewrite !append_assoc; reflexivity).
    apply find_app_absent. rewrite !count_app. cbn. lia. }
  rewrite F1, F2. cbn [find_gt].
  rewrite !length_append. cbn [String.length].
  replace (String.length a <? String.length a + (1 + String.length b))
    with true by (symmetry; apply Nat.ltb_lt; lia).
  rewrite !replace_app. cbn.
  rewrite !(replace_absent "." "") by assumption.
  rewrite !(replace_absent "," ".") by assumption.
  reflexivity.
Qed.

(** Comma first, period later: the comma goes, the period is the decimal
    point. *)
Lemma disambiguate_comma_period (a b c : string) :
  no_separator a = true -> no_separator b = true -> no_separator c = true ->
  disambiguate (a ++ "," ++ b ++ "." ++ c) = a ++ b ++ "." ++ c.
Proof.
  intros Ha Hb Hc.
  apply no_separator_counts in Ha as [Ha1 Ha2], Hb as [Hb1 Hb2],
    Hc as [Hc1 Hc2].
  unfold disambiguate.
  assert (C1 : count "," (a ++ "," ++ b ++ "." ++ c) = 1)
    by (rewrite !count_app; cbn; lia).
  assert (C2 : count "." (a ++ "," ++ b ++ "." ++ c) = 1)
    by (rewrite !count_app; cbn; lia).
  rewrite C1, C2. cbn [Nat.eqb andb].
  assert (F1 : find "," (a ++ "," ++ b ++ "." ++ c)
               = Some (String.length a))
    by (apply find_app_absent; assumption).
  assert (F2 : find "." (a ++ "," ++ b ++ "." ++ c)
               = Some (String.length (a ++ "," ++ b))).
  { replace (a ++ "," ++ b ++ "." ++ c) with ((a ++ "," ++ b) ++ "." ++ c)
      by (rewrite !append_assoc; reflexivity).
    apply find_app_absent. rewrite !count_app. cbn. lia. }
  rewrite F1, F2. cbn [find_gt].
  rewrite !length_append. cbn [String.length].
  replace (String.length a + (1 + String.length b) <? String.length a)
    with false by (symmetry; apply Nat.ltb_ge; lia).
  rewrite !replace_app. cbn.
  rewrite !(replace_absent "," "") by assumption.
  reflexivity.
Qed.

(** One comma and not exactly one period: the comma becomes a period. *)
Lemma disambiguate_comma_only (s : string) :
  count "," s = 1 -> count "." s <> 1 ->
  disambiguate s = replace "," "." s.
Proof.
  intros H1 H2. unfold disambiguate. rewrite H1. cbn [Nat.eqb].
  apply Nat.eqb_neq in H2. rewrite H2. reflexivity.
Qed.

(** Several periods and not exactly one comma: every period but the last
    goes, the last one stays. *)
Lemma disambiguate_periods (a b : string) :
  count "," (a ++ "." ++ b) <> 1 ->
  1 <= count "." a -> count "." b = 0 ->
  disambiguate (a ++ "." ++ b) = replace "." "" a ++ "." ++ b.
Proof.
  intros H1 Ha Hb. unfold disambiguate.
  apply Nat.eqb_neq in H1. rewrite H1. cbn [andb].
  assert (C : count "." (a ++ "." ++ b) = S (count "." a))
    by (rewrite !count_app; cbn; lia).
  rewrite C.
  replace (1 <? S (count "." a)) with true
    by (symmetry; apply Nat.ltb_lt; lia).
  replace (S (count "." a) - 1) with (count "." a) by lia.
  apply replace_n_count.
Qed.

Lemma disambiguate_plain (s : string) :
  count "," s <> 1 -> count "." s <= 1 -> disambiguate s = s.
Proof.
  intros H1 H2. unfold disambiguate.
  apply Nat.eqb_neq in H1. rewrite H1. cbn [andb].
  replace (1 <? count "." s) with false
    by (symmetry; apply Nat.ltb_ge; lia).
  reflexivity.
Qed.

Lemma normalize_number_unparsable (v : cell) :
  py_float (number_text v) = None -> normalize_number v = zero.
Proof.
  intros H. unfold normalize_number. rewrite H.
  destruct (isna v || is_empty (strip (str_of v))); reflexivity.
Qed.

(** ** The scanning loop and the greedy loop *)

Lemma mem_In (i : nat) (l : list nat) : mem i l = true <-> In i l.
Proof.
  unfold mem. rewrite existsb_exists. split.
  - intros [x [Hx E]]. apply Nat.eqb_eq in E. subst. exact Hx.
  - intros H. exists i. split; [exact H|apply Nat.eqb_refl].
Qed.

Lemma mem_false (i : nat) (l : list nat) : mem i l = false <-> ~ In i l.
Proof.
  rewrite <- mem_In. destruct (mem i l); split; congruence.
Qed.

(** The scan returns the first row, in table order, that is neither used
    nor failing the test. *)
Lemma scan_first_some {V : Type} (ok : nat -> V -> bool) (used_v : list nat)
      (ven : list (nat * V)) (vi : nat) (v : V) :
  scan_first ok used_v ven = Some (vi, v) <->
  exists before after,
    ven = (before ++ (vi, v) :: after)%list /\
    Forall (skipped ok used_v) before /\
    mem vi used_v = false /\ ok vi v = true.
Proof.
  induction ven as [|[j w] rest IH]; simpl.
  - split; [discriminate|]. intros (b & a & H & _). destruct b; discriminate.
  - destruct (mem j used_v) eqn:Hm; [|destruct (ok j w) eqn:Hok].
    + rewrite IH. split.
      * intros (b & a & -> & Hb & Hu & Ho).
        exists ((j, w) :: b), a. repeat split; try assumption.
        constructor; [left; exact Hm|exact Hb].
      * intros (b & a & H & Hb & Hu & Ho).
        destruct b as [|p b]; simpl in H; inversion H; subst.
        -- congruence.
        -- inversion Hb; subst. exists b, a. auto.
    + split.
      * intros H. inversion H; subst. exists [], rest. auto.
      * intros (b & a & H & Hb & Hu & Ho).
        destruct b as [|p b]; simpl in H; inversion H; subst.
        -- reflexivity.
        -- inversion Hb as [|? ? [Hp|Hp] ?]; subst; simpl in Hp; congruence.
    + rewrite IH. split.
      * intros (b & a & -> & Hb & Hu & Ho).
        exists ((j, w) :: b), a. repeat split; try assumption.
        constructor; [right; exact Hok|exact Hb].
      * intros (b & a & H & Hb & Hu & Ho).
        destruct b as [|p b]; simpl in H; inversion H; subst.
        -- congruence.
        -- inversion Hb; subst. exists b, a. auto.
Qed.

Lemma scan_first_none {V : Type} (ok : nat -> V -> bool) (used_v : list nat)
      (ven : list (nat * V)) :
  scan_first ok used_v ven = None <-> Forall (skipped ok used_v) ven.
Proof.
  induction ven as [|[j w] rest IH]; simpl.
  - split; auto.
  - destruct (mem j used_v) eqn:Hm; [|destruct (ok j w) eqn:Hok].
    + rewrite IH. split; intros H.
      * constructor; [left; exact Hm|exact H].
      * inversion H; assumption.
    + split; [discriminate|]. intros H.
      inversion H as [|? ? [Hp|Hp] ?]; subst; simpl in Hp; congruence.
    + rewrite IH. split; intros H.
      * constructor; [right; exact Hok|exact H].
      * inversion H; assumption.
Qed.

Lemma scan_first_sound {V : Type} (ok : nat -> V -> bool) (used_v : list nat)
      (ven : list (nat * V)) (vi : nat) (v : V) :
  scan_first ok used_v ven = Some (vi, v) ->
  mem vi used_v = false /\ In (vi, v) ven /\ ok vi v = true.
Proof.
  intros H. apply scan_first_some in H as (b & a & -> & _ & Hu & Ho).
  repeat split; try assumption. apply in_or_app. right. left. reflexivity.
Qed.

Section GreedyFacts.
Context {E V M : Type}.
Variable check_e : bool.
Variable pick : nat -> E -> list nat -> option (nat * V).
Variable mk : nat -> E -> nat -> V -> M.
Variable idx_e idx_v : M -> nat.
Variable ven : list (nat * V).

Hypothesis mk_idx_e : forall ei e vi v, idx_e (mk ei e vi v) = ei.
Hypothesis mk_idx_v : forall ei e vi v, idx_v (mk ei e vi v) = vi.
Hypothesis pick_sound : forall ei e used_v vi v,
    pick ei e used_v = Some (vi, v) ->
    mem vi used_v = false /\ In (vi, v) ven.

(** What holds of the loop state once the ERP rows [done] are behind. *)
Definition greedy_inv (done : list (nat * E))
           (st : greedy_state (M := M)) : Prop :=
  let '(ms, used_e, used_v) := st in
  used_e = rev (map idx_e ms) /\
  used_v = rev (map idx_v ms) /\
  NoDup used_v /\
  incl used_v (labels ven) /\
  incl used_e (labels done) /\
  (check_e = true \/ NoDup (labels done) -> NoDup used_e).

Lemma greedy_inv_init : greedy_inv [] ([], [], []).
Proof.
  cbn. repeat split; try constructor; try (intros x []).
Qed.

Lemma greedy_inv_step (done : list (nat * E)) (st : greedy_state)
      (e : nat * E) :
  greedy_inv done st ->
  greedy_inv (done ++ [e]) (greedy_step check_e pick mk st e).
Proof.
  destruct st as [[ms ue] uv]. destruct e as [ei e].
  intros (He & Hv & Nv & Iv & Ie & Ne).
  assert (Ie' : incl ue (labels (done ++ [(ei, e)]))).
  { unfold labels. rewrite map_app. apply incl_appl. exact Ie. }
  assert (Keep : greedy_inv (done ++ [(ei, e)]) (ms, ue, uv)).
  { cbn. repeat split; try assumption.
    intros [C|N]; apply Ne; [left; exact C|right].
    unfold labels in *. rewrite map_app in N.
    apply NoDup_app_remove_r in N. exact N. }
  unfold greedy_step. cbn [fst snd].
  destruct (check_e && mem ei ue) eqn:Hc; [exact Keep|].
  destruct (pick ei e uv) as [[vi v]|] eqn:Hp; [|exact Keep].
  apply pick_sound in Hp as [Hu Hin].
  cbn. rewrite !map_app, !rev_app_distr. cbn.
  rewrite mk_idx_e, mk_idx_v, <- He, <- Hv.
  repeat split.
  - constructor; [apply mem_false; exact Hu|exact Nv].
  - intros x [<-|Hx]; [|apply Iv; exact Hx].
    unfold labels. apply (in_map fst) in Hin. exact Hin.
  - intros x [<-|Hx]; [|apply Ie'; exact Hx].
    unfold labels. rewrite map_app. apply in_or_app. right. left.
    reflexivity.
  - intros [C|N].
    + constructor; [|apply Ne; left; exact C].
      rewrite C in Hc. cbn in Hc. apply mem_false. exact Hc.
    + unfold labels in N. rewrite map_app in N. cbn in N.
      constructor.
      * intros Hx. apply Ie in Hx.
        apply NoDup_remove_2 in N. rewrite app_nil_r in N.
        apply N. exact Hx.
      * apply Ne. right. apply NoDup_app_remove_r in N. exact N.
Qed.

Lemma greedy_inv_fold (erp done : list (nat * E)) (st : greedy_state) :
  greedy_inv done st ->
  greedy_inv (done ++ erp)
             (fold_left (greedy_step check_e pick mk) erp st).
Proof.
  revert done st. induction erp as [|e erp IH]; intros done st H; simpl.
  - rewrite app_nil_r. exact H.
  - replace (done ++ e :: erp)%list with ((done ++ [e]) ++ erp)%list
      by (rewrite <- app_assoc; reflexivity).
    apply IH. apply greedy_inv_step. exact H.
Qed.

Lemma greedy_invariant (erp : list (nat * E)) :
  greedy_inv erp (greedy check_e pick mk erp).
Proof. apply (greedy_inv_fold erp [] _ greedy_inv_init). Qed.
End GreedyFacts.

Section FirstMatchFacts.
Context {E V M : Type}.
Variable check_e : bool.
Variable ok : E -> nat -> V -> bool.
Variable mk : nat -> E -> nat -> V -> M.
Variable ven : list (nat * V).

Let pick (ei : nat) (e : E) (used_v : list nat) : option (nat * V) :=
  scan_first (ok e) used_v ven.

(** An ERP row already in [used_e] is passed over. *)
Lemma first_match_step_used ms used_e used_v ei e :
  check_e && mem ei used_e = true ->
  greedy_step check_e pick mk (ms, used_e, used_v) (ei, e)
  = (ms, used_e, used_v).
Proof. intros H. unfold greedy_step. cbn [fst snd]. now rewrite H. Qed.


(** With no such vendor row nothing changes. *)
Lemma first_match_step_miss ms used_e used_v ei e :
  Forall (skipped (ok e) used_v) ven ->
  greedy_step check_e pick mk (ms, used_e, used_v) (ei, e)
  = (ms, used_e, used_v).
Proof.
  intros H. unfold greedy_step. cbn [fst snd].
  destruct (check_e && mem ei used_e); [reflexivity|].
  assert (P : pick ei e used_v = None)
    by (unfold pick; apply scan_first_none; exact H).
  now rewrite P.
Qed.
End FirstMatchFacts.

Section GreedyTrace.
Context {E V M : Type}.
Variable check_e : bool.
Variable pick : nat -> E -> list nat -> option (nat * V).
Variable mk : nat -> E -> nat -> V -> M.

(** Every record was appended for an ERP row of the table and the vendor
    row its inner loop picked. *)
Definition traced (erp : list (nat * E)) (m : M) : Prop :=
  exists ei e vi v used_v,
    In (ei, e) erp /\ pick ei e used_v = Some (vi, v) /\ m = mk ei e vi v.

Lemma greedy_trace_fold (erp done : list (nat * E))
      (st : greedy_state (M := M)) :
  Forall (traced (done ++ erp)) (fst (fst st)) ->
  Forall (traced (done ++ erp))
         (fst (fst (fold_left (greedy_step check_e pick mk) erp st))).
Proof.
  revert done st. induction erp as [|[ei e] erp IH]; intros done st H.
  - exact H.
  - cbn [fold_left].
    replace (done ++ (ei, e) :: erp)%list
      with ((done ++ [(ei, e)]) ++ erp)%list in *
      by (rewrite <- app_assoc; reflexivity).
    apply IH. destruct st as [[ms ue] uv]. unfold greedy_step.
    cbn [fst snd] in *.
    destruct (check_e && mem ei ue); [exact H|].
    destruct (pick ei e uv) as [[vi v]|] eqn:P; [|exact H].
    cbn [fst]. apply Forall_app. split; [exact H|].
    constructor; [|constructor].
    exists ei, e, vi, v, uv. repeat split; try assumption.
    apply in_or_app. left. apply in_or_app. right. left. reflexivity.
Qed.

Lemma greedy_trace (erp : list (nat * E)) :
  Forall (traced erp) (fst (fst (greedy check_e pick mk erp))).
Proof. apply (greedy_trace_fold erp [] ([], [], [])). constructor. Qed.
End GreedyTrace.

(** ** Order facts on binary64 comparisons *)

Ltac cmp_cases :=
  repeat match goal with
  | |- context [Z.compare ?a ?b] => destruct (Z.compare_spec a b)
  | |- context [Pos.compare_cont Eq ?a ?b] =>
      change (Pos.compare_cont Eq a b) with (Pos.compare a b);
      destruct (Pos.compare_spec a b)
  end.

Ltac float_cases a b c :=
  unfold fgt, fge, flt, fle, SFltb, SFleb, SFcompare;
  destruct a as [[|]|[|]| |[|] ? ?], b as [[|]|[|]| |[|] ? ?],
    c as [[|]|[|]| |[|] ? ?];
  try discriminate; try reflexivity; cbn;
  cmp_cases; subst; cbn; intros;
  try congruence; try reflexivity; try lia.

Lemma flt_trans (a b c : float) :
  flt a b = true -> flt b c = true -> flt a c = true.
Proof. float_cases a b c. Qed.

Lemma fle_flt_trans (w s x : float) :
  not_nan w = true -> flt s w = false -> flt s x = true -> flt w x = true.
Proof. float_cases w s x. Qed.

Lemma not_flt_trans (x s w : float) :
  flt x s = false -> flt s w = false ->
  not_nan x = true -> not_nan s = true -> not_nan w = true ->
  flt x w = false.
Proof. float_cases x s w. Qed.

Lemma flt_not_flt_trans (s x w : float) :
  flt s x = true -> flt s w = false -> not_nan w = true ->
  flt x w = false.
Proof. float_cases s x w. Qed.

Lemma fge_not_nan (x c : float) : fge x c = true -> not_nan x = true.
Proof.
  unfold fge, fle, SFleb, SFcompare.
  destruct c as [[|]|[|]| |[|] ? ?], x as [[|]|[|]| |[|] ? ?];
    try discriminate; reflexivity.
Qed.

Lemma fge_090_positive (x : float) :
  fge x (lit 90 2) = true -> flt zero x = true.
Proof.
  unfold fge, fle, flt, SFleb, SFltb.
  replace (lit 90 2) with (S754_finite false 8106479329266893 (-53))
    by (vm_compute; reflexivity).
  destruct x as [[|]|[|]| |[|] ? ?]; cbn; try discriminate; reflexivity.
Qed.


(** ** Tier 2 of recon_raptor_fincomms.py: the best candidate *)

Section FincommsTier2Facts.
Variable fuzzy_ratio : string -> string -> float.
Variable er : miss_row.
Variable used_v : list nat.

Let sim (p : nat * miss_row) : float :=
  Fincomms.similarity fuzzy_ratio (Fincomms.code_of er)
                      (Fincomms.code_of (snd p)).
Let candidate (p : nat * miss_row) : bool :=
  Fincomms.tier2_candidate fuzzy_ratio er used_v p.

(** What [best_match] holds once the rows [seen] are behind: nothing when
    no row of [seen] is a candidate, else a candidate that beats every
    candidate before it and is not beaten by any after it. *)
Definition best_of (seen : list (nat * miss_row))
           (best : option (nat * miss_row * float)) : Prop :=
  match best with
  | None => forall p, In p seen -> candidate p = false
  | Some (vi, vr, s) =>
      s = sim (vi, vr) /\
      exists before after,
        seen = (before ++ (vi, vr) :: after)%list /\
        candidate (vi, vr) = true /\
        (forall p, In p before -> candidate p = true ->
                   flt (sim p) s = true) /\
        (forall p, In p after -> candidate p = true ->
                   flt s (sim p) = false)
  end.

Definition score_of (best : option (nat * miss_row * float)) : float :=
  match best with
  | None => zero
  | Some (_, _, s) => s
  end.

Lemma best_of_skip seen best p :
  candidate p = false -> best_of seen best -> best_of (seen ++ [p]) best.
Proof.
  intros Hp. destruct best as [[[bi br] s]|]; cbn.
  - intros (Hs & b & a & -> & Hc & Hb & Ha). split; [exact Hs|].
    exists b, (a ++ [p])%list. rewrite <- app_assoc. cbn.
    repeat split; try assumption.
    intros q Hq Hcq. apply in_app_or in Hq as [Hq|[<-|[]]].
    + apply Ha; assumption.
    + congruence.
  - intros H q Hq. apply in_app_or in Hq as [Hq|[<-|[]]]; auto.
Qed.

Lemma candidate_sim p :
  candidate p = true ->
  fge (sim p) (lit 90 2) = true /\ not_nan (sim p) = true.
Proof.
  unfold candidate, Fincomms.tier2_candidate. intros H.
  apply andb_true_iff in H as [_ H]. split; [exact H|].
  eapply fge_not_nan. exact H.
Qed.

Lemma scan_best_inv (ven seen : list (nat * miss_row))
      (best : option (nat * miss_row * float)) :
  best_of seen best ->
  best_of (seen ++ ven)
          (Fincomms.scan_best fuzzy_ratio (Fincomms.amount_of er)
                              (Fincomms.code_of er) used_v ven best
                              (score_of best)).
Proof.
  revert seen best. induction ven as [|[vi vr] ven IH]; intros seen best H.
  - rewrite app_nil_r. exact H.
  - replace (seen ++ (vi, vr) :: ven)%list
      with ((seen ++ [(vi, vr)]) ++ ven)%list
      by (rewrite <- app_assoc; reflexivity).
    cbn [Fincomms.scan_best].
    destruct (mem vi used_v) eqn:Hm.
    { apply IH. apply best_of_skip; [|exact H].
      unfold candidate, Fincomms.tier2_candidate. cbn [fst snd].
      now rewrite Hm. }
    destruct (fgt (fabs (fsub (Fincomms.amount_of er)
                              (Fincomms.amount_of vr))) (lit 100 2)) eqn:Hd.
    { apply IH. apply best_of_skip; [|exact H].
      unfold candidate, Fincomms.tier2_candidate. cbn [fst snd].
      rewrite Hm, Hd. reflexivity. }
    change (Fincomms.similarity fuzzy_ratio (Fincomms.code_of er)
              (Fincomms.code_of vr)) with (sim (vi, vr)).
    destruct (fge (sim (vi, vr)) (lit 90 2)) eqn:Hs.
    2:{ cbn [andb]. apply IH. apply best_of_skip; [|exact H].
        unfold candidate, Fincomms.tier2_candidate. cbn [fst snd].
        change (Fincomms.similarity fuzzy_ratio (Fincomms.code_of er)
                (Fincomms.code_of vr)) with (sim (vi, vr)).
        rewrite Hm, Hd, Hs. reflexivity. }
    assert (Hc : candidate (vi, vr) = true).
    { unfold candidate, Fincomms.tier2_candidate. cbn [fst snd].
      change (Fincomms.similarity fuzzy_ratio (Fincomms.code_of er)
                (Fincomms.code_of vr)) with (sim (vi, vr)).
        rewrite Hm, Hd, Hs. reflexivity. }
    cbn [andb].
    destruct (fgt (sim (vi, vr)) (score_of best)) eqn:Hg.
    + (* a new best *)
      change (sim (vi, vr)) with (score_of (Some (vi, vr, sim (vi, vr)))) at 2.
      apply IH. cbn. split; [reflexivity|].
      exists seen, []. repeat split; try assumption.
      * intros q Hq Hcq.
        destruct best as [[[bi br] s]|]; cbn in H.
        -- destruct H as (Hs' & b & a & -> & Hcb & Hb & Ha).
           cbn in Hg. unfold fgt in Hg.
           apply in_app_or in Hq as [Hq|[<-|Hq]].
           ++ eapply flt_trans; [apply Hb; assumption|exact Hg].
           ++ rewrite <- Hs'. exact Hg.
           ++ apply (fle_flt_trans _ s).
              ** apply candidate_sim. exact Hcq.
              ** apply Ha; assumption.
              ** exact Hg.
        -- rewrite (H q Hq) in Hcq. discriminate.
      * intros q [].
    + (* the best so far stays *)
      apply IH.
      destruct best as [[[bi br] s]|]; cbn in H |- *.
      -- destruct H as (Hs' & b & a & -> & Hcb & Hb & Ha).
         split; [exact Hs'|].
         exists b, (a ++ [(vi, vr)])%list. rewrite <- app_assoc. cbn.
         repeat split; try assumption.
         intros q Hq Hcq. apply in_app_or in Hq as [Hq|[<-|[]]].
         ++ apply Ha; assumption.
         ++ exact Hg.
      -- cbn in Hg. unfold fgt in Hg.
         rewrite (fge_090_positive _ Hs) in Hg. discriminate.
Qed.

(** The inner loop of Tier 2 returns the candidate of highest similarity,
    the earliest one among equals. *)
Lemma tier2_pick_best (ven : list (nat * miss_row)) (ei vi : nat)
      (vr : miss_row) :
  Fincomms.tier2_pick fuzzy_ratio ven ei er used_v = Some (vi, vr) ->
  exists before after,
    ven = (before ++ (vi, vr) :: after)%list /\
    candidate (vi, vr) = true /\
    (forall p, In p before -> candidate p = true ->
               flt (sim p) (sim (vi, vr)) = true) /\
    (forall p, In p after -> candidate p = true ->
               flt (sim (vi, vr)) (sim p) = false).
Proof.
  unfold Fincomms.tier2_pick.
  pose proof (scan_best_inv ven [] None) as H. cbn [app score_of] in H.
  destruct (Fincomms.scan_best _ _ _ _ _ _ _) as [[[bi br] s]|];
    [|discriminate].
  intros E. inversion E; subst.
  destruct H as (Hs & b & a & Hv & Hc & Hb & Ha).
  { intros p []. }
  exists b, a. subst s. auto.
Qed.

End FincommsTier2Facts.

(** ** The difference of two finite amounts is a number *)

Lemma iter_pos_invariant {A : Type} (P : A -> Prop) (f : A -> A) :
  (forall x, P x -> P (f x)) ->
  forall p x, P x -> P (iter_pos f p x).
Proof.
  intros Hf. induction p as [p IH|p IH|]; intros x Hx; cbn; auto.
Qed.

Lemma shr_1_nonneg (mrs : shr_record) :
  (0 <= shr_m mrs)%Z -> (0 <= shr_m (shr_1 mrs))%Z.
Proof.
  destruct mrs as [m r s]. cbn.
  destruct m as [|[p|p|]|[p|p|]]; cbn; lia.
Qed.

Lemma shr_nonneg (mrs : shr_record) (e n : Z) :
  (0 <= shr_m mrs)%Z -> (0 <= shr_m (fst (shr mrs e n)))%Z.
Proof.
  intros H. unfold shr. destruct n; cbn; try exact H.
  apply (iter_pos_invariant (fun x => (0 <= shr_m x)%Z)); [|exact H].
  exact shr_1_nonneg.
Qed.

Lemma shr_fexp_nonneg (m e : Z) (l : location) :
  (0 <= m)%Z -> (0 <= shr_m (fst (shr_fexp prec emax m e l)))%Z.
Proof.
  intros H. unfold shr_fexp. apply shr_nonneg.
  destruct l as [|[| |]]; exact H.
Qed.

Lemma binary_round_aux_not_nan (s : bool) (m e : Z) (l : location) :
  (0 <= m)%Z -> not_nan (binary_round_aux prec emax s m e l) = true.
Proof.
  intros H. unfold binary_round_aux.
  pose proof (shr_fexp_nonneg m e l H) as H1.
  destruct (shr_fexp prec emax m e l) as [mrs' e']. cbn [fst] in H1.
  assert (H2 : (0 <= round_nearest_even (shr_m mrs')
                                        (loc_of_shr_record mrs'))%Z).
  { unfold round_nearest_even.
    destruct (loc_of_shr_record mrs') as [|[| |]]; try lia.
    destruct (Z.even (shr_m mrs')); lia. }
  pose proof (shr_fexp_nonneg _ e' loc_Exact H2) as H3.
  destruct (shr_fexp prec emax _ e' loc_Exact) as [mrs'' e''].
  cbn [fst] in H3.
  destruct (shr_m mrs'') as [|p|p]; [reflexivity| |lia].
  destruct (e'' <=? emax - prec)%Z; reflexivity.
Qed.



Section FirstMatchRecords.
Context {E V M : Type}.
Variable check_e : bool.
Variable ok : E -> nat -> V -> bool.
Variable mk : nat -> E -> nat -> V -> M.
Variable idx_e idx_v : M -> nat.
Variable ven : list (nat * V).

Hypothesis mk_idx_e : forall ei e vi v, idx_e (mk ei e vi v) = ei.
Hypothesis mk_idx_v : forall ei e vi v, idx_v (mk ei e vi v) = vi.

Let pick (ei : nat) (e : E) (used_v : list nat) : option (nat * V) :=
  scan_first (ok e) used_v ven.

(** Each record of a first-match loop pairs an ERP row with a vendor row
    that passes the loop's test. *)
Lemma first_match_records (erp : list (nat * E)) :
  Forall (fun m => exists e v,
              In (idx_e m, e) erp /\ In (idx_v m, v) ven /\
              ok e (idx_v m) v = true /\ m = mk (idx_e m) e (idx_v m) v)
         (fst (fst (greedy check_e pick mk erp))).
Proof.
  eapply Forall_impl; [|apply greedy_trace].
  intros m (ei & e & vi & v & uv & He & Hp & ->).
  apply scan_first_sound in Hp as (_ & Hv & Ho).
  rewrite mk_idx_e, mk_idx_v. exists e, v. auto.
Qed.

End FirstMatchRecords.

(* ===================================================================== *)
(** * The claims *)
(* ===================================================================== *)

(** ** C6: idempotence of the invoice-code normalisation *)

(** Neither normalisation is idempotent: a code that is left with a leading
    letter, or that closes up into a year-like token, changes again. *)
Lemma clean_not_idempotent :
  Fincomms_clean.clean_invoice_number (Text "XYZW") = "W" /\
  Fincomms_clean.clean_invoice_number (Text "W") = "0" /\
  Fincomms_clean.clean_invoice_number (Text "20-24") = "2024" /\
  Fincomms_clean.clean_invoice_number (Text "2024") = "0" /\
  Streamlit_clean.clean_invoice_code (Text "a01") = "01" /\
  Streamlit_clean.clean_invoice_code (Text "01") = "1".
Proof. repeat split; reflexivity. Qed.

(** C6, as amended: a second normalisation leaves the result of the first
    alone whenever that result holds no year-like token [20dd] and, for
    [clean_invoice_number], does not start with a letter, for
    [clean_invoice_code], has no leading zero. *)
Theorem clean_idempotent_on_plain_codes (v : cell) :
  (let c := Fincomms_clean.clean_invoice_number v in
   starts_with is_alpha c = false -> has_year c = false ->
   Fincomms_clean.clean_invoice_number (Text c) = c) /\
  (let c := Streamlit_clean.clean_invoice_code v in
   leading_zero c = false -> has_year c = false ->
   Streamlit_clean.clean_invoice_code (Text c) = c).
Proof.
  split; cbv zeta.
  - intros Ha Hy.
    destruct (fincomms_clean_shape v) as [E|[E|(Hne & Hall & Hz)]].
    + rewrite E. reflexivity.
    + rewrite E. reflexivity.
    + apply fincomms_clean_fixed; assumption.
  - intros Hz Hy. destruct (falsy v) eqn:Hv.
    + unfold Streamlit_clean.clean_invoice_code at 2. rewrite Hv.
      unfold Streamlit_clean.clean_invoice_code. rewrite Hv. reflexivity.
    + destruct (streamlit_clean_shape v Hv) as [Hne Hall].
      apply streamlit_clean_fixed; assumption.
Qed.

Lemma clean_idempotent_on_plain_codes_witness :
  Fincomms_clean.clean_invoice_number
    (Text (Fincomms_clean.clean_invoice_number (Text "INV-0042A")))
  = Fincomms_clean.clean_invoice_number (Text "INV-0042A") /\
  Streamlit_clean.clean_invoice_code
    (Text (Streamlit_clean.clean_invoice_code (Text "INV-0042")))
  = Streamlit_clean.clean_invoice_code (Text "INV-0042").
Proof.
  split.
  - apply (proj1 (clean_idempotent_on_plain_codes (Text "INV-0042A")));
      reflexivity.
  - apply (proj2 (clean_idempotent_on_plain_codes (Text "INV-0042")));
      reflexivity.
Defined.

(** ** C10: the Streamlit normalisation returns digits only *)

(** On the empty string [clean_invoice_code] returns the empty string,
    neither the sentinel nor a digit string; and two codes that differ in
    one letter only can get different keys. *)
Lemma clean_invoice_code_empty_and_letters :
  Streamlit_clean.clean_invoice_code (Text "") = "" /\
  Streamlit_clean.clean_invoice_code (Text "ab01") = "1" /\
  Streamlit_clean.clean_invoice_code (Text "xb01") = "01".
Proof. repeat split; reflexivity. Qed.

(** C10, as amended: on every input but the empty string,
    [clean_invoice_code] returns a non-empty string of decimal digits (the
    sentinel "0" included), so no letter survives; "42-A" and "42-B" get
    the same key. *)
Theorem clean_invoice_code_digits (v : cell) :
  falsy v = false ->
  is_empty (Streamlit_clean.clean_invoice_code v) = false /\
  all_chars is_digit (Streamlit_clean.clean_invoice_code v) = true /\
  Streamlit_clean.clean_invoice_code (Text "42-A")
  = Streamlit_clean.clean_invoice_code (Text "42-B").
Proof.
  intros Hv. destruct (streamlit_clean_shape v Hv) as [H1 H2].
  repeat split; assumption || reflexivity.
Qed.

Lemma clean_invoice_code_digits_witness :
  is_empty (Streamlit_clean.clean_invoice_code (Text "Fact. 2023/0815-b"))
  = false /\
  all_chars is_digit
    (Streamlit_clean.clean_invoice_code (Text "Fact. 2023/0815-b")) = true /\
  Streamlit_clean.clean_invoice_code (Text "42-A")
  = Streamlit_clean.clean_invoice_code (Text "42-B").
Proof.
  apply (clean_invoice_code_digits (Text "Fact. 2023/0815-b")). reflexivity.
Defined.

(** ** C7: separators in [normalize_number] *)

(** With several periods the last one is kept as the decimal point:
    "1.234.567" is read as 1234.567, not as 1234567. *)
Lemma normalize_number_keeps_last_period :
  number_text (Text "1.234.567") = "1234.567" /\
  normalize_number (Text "1.234.567") = lit 1234567 3 /\
  normalize_number (Text "1.234.567") <> of_Z 1234567.
Proof.
  repeat split; try reflexivity. vm_compute. discriminate.
Qed.

(** C7, as amended. On the filtered text: with one comma and one period the
    later one becomes the decimal point and the earlier one goes; with one
    comma and any other number of periods the comma becomes a period; with
    several periods (and not exactly one comma) every period but the last
    goes and the last stays as the decimal point; and text that
    [float()] refuses gives 0.0. *)
Theorem normalize_number_separators :
  (forall a b c,
      no_separator a = true -> no_separator b = true ->
      no_separator c = true ->
      disambiguate (a ++ "." ++ b ++ "," ++ c) = a ++ b ++ "." ++ c /\
      disambiguate (a ++ "," ++ b ++ "." ++ c) = a ++ b ++ "." ++ c) /\
  (forall s, count "," s = 1 -> count "." s <> 1 ->
             disambiguate s = replace "," "." s) /\
  (forall a b,
      count "," (a ++ "." ++ b) <> 1 -> 1 <= count "." a ->
      count "." b = 0 ->
      disambiguate (a ++ "." ++ b) = replace "." "" a ++ "." ++ b) /\
  (forall v, number_text v
             = disambiguate (keep is_numeric_char (strip (str_of v)))) /\
  (forall v, py_float (number_text v) = None ->
             normalize_number v = zero).
Proof.
  split; [|split; [|split; [|split]]].
  - intros a b c Ha Hb Hc. split.
    + apply disambiguate_period_comma; assumption.
    + apply disambiguate_comma_period; assumption.
  - apply disambiguate_comma_only.
  - apply disambiguate_periods.
  - reflexivity.
  - apply normalize_number_unparsable.
Qed.

Lemma normalize_number_separators_witness :
  (disambiguate ("1" ++ "." ++ "234" ++ "," ++ "56") = "1" ++ "234" ++ "." ++ "56" /\
   disambiguate ("1" ++ "," ++ "234" ++ "." ++ "56") = "1" ++ "234" ++ "." ++ "56") /\
  disambiguate "12,5" = replace "," "." "12,5" /\
  disambiguate ("1.234" ++ "." ++ "567") = replace "." "" "1.234" ++ "." ++ "567" /\
  normalize_number (Text "12..5,3,") = zero.
Proof.
  pose proof normalize_number_separators as (H1 & H2 & H3 & _ & H5).
  split; [split|split; [|split]].
  - apply (H1 "1" "234" "56"); reflexivity.
  - apply (H1 "1" "234" "56"); reflexivity.
  - apply (H2 "12,5"); [reflexivity|cbn; discriminate].
  - apply (H3 "1.234" "567"); [cbn; discriminate|cbn; lia|reflexivity].
  - apply (H5 (Text "12..5,3,")). reflexivity.
Defined.

(** ** C2: Tier 1 pairs the first vendor invoice with the same code *)




(** An ERP invoice that is already consumed, or for which every vendor
    invoice is consumed or has another code, changes nothing. *)
Lemma fincomms_tier1_no_pair
      (ven : list (nat * Fincomms.cons_row)) (ms : list match_record)
      (used_e used_v : list nat) (ei : nat) (e : Fincomms.cons_row) :
  mem ei used_e = true \/
  Forall (fun p => mem (fst p) used_v = true \/
                   Fincomms.inv_norm (snd p) <> Fincomms.inv_norm e) ven ->
  greedy_step true (Fincomms.tier1_pick ven) Fincomms.tier1_record
              (ms, used_e, used_v) (ei, e)
  = (ms, used_e, used_v).
Proof.
  intros [H|H].
  - apply (first_match_step_used true (fun e => Fincomms.tier1_ok e)).
    rewrite H. reflexivity.
  - apply (first_match_step_miss true (fun e => Fincomms.tier1_ok e)).
    eapply Forall_impl; [|exact H].
    intros p [Hp|Hp]; [left; exact Hp|right].
    unfold Fincomms.tier1_ok.
    destruct (String.eqb_spec (Fincomms.inv_norm e)
                              (Fincomms.inv_norm (snd p))) as [E|E];
      [congruence|reflexivity].
Qed.

(** Every Tier-1 record joins two rows of the tables that have the same
    non-empty normalised code. *)
Lemma fincomms_tier1_records (erp ven : list (nat * Fincomms.cons_row)) :
  Forall (fun m => exists e v,
              In (erp_idx m, e) erp /\ In (ven_idx m, v) ven /\
              Fincomms.inv_norm e = Fincomms.inv_norm v /\
              Fincomms.inv_norm e <> "" /\
              m = Fincomms.tier1_record (erp_idx m) e (ven_idx m) v)
         (fst (fst (Fincomms.tier1 erp ven))).
Proof.
  eapply Forall_impl;
    [|apply (first_match_records true (fun e => Fincomms.tier1_ok e)
               Fincomms.tier1_record erp_idx ven_idx ven);
      reflexivity].
  intros m (e & v & He & Hv & Ho & Hm). exists e, v.
  unfold Fincomms.tier1_ok in Ho. apply andb_true_iff in Ho as [H1 H2].
  apply String.eqb_eq in H1. repeat split; try assumption.
  intros E. rewrite E in H2. discriminate.
Qed.

(** ** C3: Tier 2 takes the best candidate *)




(** ** A first-match loop leaves no pair behind *)


Section FirstMatchComplete.
Context {E V M : Type}.
Variable check_e : bool.
Variable ok : E -> nat -> V -> bool.
Variable mk : nat -> E -> nat -> V -> M.
Variable idx_e idx_v : M -> nat.
Variable ven : list (nat * V).

Hypothesis mk_idx_e : forall ei e vi v, idx_e (mk ei e vi v) = ei.
Hypothesis mk_idx_v : forall ei e vi v, idx_v (mk ei e vi v) = vi.

Let pick (ei : nat) (e : E) (used_v : list nat) : option (nat * V) :=
  scan_first (ok e) used_v ven.




End FirstMatchComplete.

(** ** C8: payments are paired by amount, first match, vendor lines once *)



(** ** Grouping *)

Lemma insert_key_perm (k : string) (l : list string) :
  Permutation (Fincomms.insert_key k l) (k :: l).
Proof.
  induction l as [|h t IH]; cbn; [reflexivity|].
  destruct (String.leb k h); [reflexivity|].
  rewrite IH. apply perm_swap.
Qed.

Lemma sort_keys_perm (l : list string) :
  Permutation (Fincomms.sort_keys l) l.
Proof.
  induction l as [|h t IH]; cbn; [reflexivity|].
  rewrite insert_key_perm. now apply perm_skip.
Qed.

Lemma group_keys_NoDup {R : Type} (key : R -> string) (l : list (nat * R)) :
  NoDup (Fincomms.group_keys key l).
Proof.
  unfold Fincomms.group_keys.
  eapply Permutation_NoDup; [symmetry; apply sort_keys_perm|].
  apply NoDup_nodup.
Qed.

Lemma group_keys_In {R : Type} (key : R -> string) (l : list (nat * R))
      (k : string) :
  In k (Fincomms.group_keys key l) <-> exists p, In p l /\ key (snd p) = k.
Proof.
  unfold Fincomms.group_keys. split.
  - intros H. apply (Permutation_in _ (sort_keys_perm _)) in H.
    apply nodup_In in H. apply in_map_iff in H as (p & Hk & Hp).
    exists p. auto.
  - intros (p & Hp & Hk).
    apply (Permutation_in _ (Permutation_sym (sort_keys_perm _))).
    apply nodup_In. apply in_map_iff. exists p. auto.
Qed.

Lemma group_of_In {R : Type} (key : R -> string) (k : string)
      (l : list (nat * R)) (p : nat * R) :
  In p (Fincomms.group_of key k l) <-> In p l /\ key (snd p) = k.
Proof.
  unfold Fincomms.group_of. rewrite filter_In, String.eqb_eq. tauto.
Qed.

Lemma group_of_filter {R : Type} (key : R -> string) (k : string)
      (f : nat * R -> bool) (l : list (nat * R)) :
  (forall p, key (snd p) = k -> f p = true) ->
  Fincomms.group_of key k (filter f l) = Fincomms.group_of key k l.
Proof.
  intros H. unfold Fincomms.group_of.
  induction l as [|p l IH]; cbn; [reflexivity|].
  destruct (f p) eqn:Hf; cbn.
  - now rewrite IH.
  - destruct (String.eqb_spec (key (snd p)) k) as [E|E].
    + rewrite (H p E) in Hf. discriminate.
    + exact IH.
Qed.

Lemma reset_index_In {R : Type} (l : list (nat * R)) (i : nat) (r : R) :
  In (i, r) (reset_index l) -> In r (map snd l).
Proof. unfold reset_index. apply in_combine_r. Qed.

Lemma reset_index_labels {R : Type} (l : list (nat * R)) :
  labels (reset_index l) = seq 0 (List.length l).
Proof.
  unfold labels, reset_index.
  assert (H : forall (a : list nat) (b : list R),
             List.length a = List.length b -> map fst (combine a b) = a).
  { induction a as [|x a IH]; intros [|y b]; cbn; try discriminate; auto.
    intros E. f_equal. apply IH. now inversion E. }
  apply H. rewrite length_seq, length_map. reflexivity.
Qed.

Lemma reset_index_rows {R : Type} (l : list (nat * R)) :
  map snd (reset_index l) = map snd l.
Proof.
  unfold reset_index.
  assert (H : forall (a : list nat) (b : list R),
             List.length a = List.length b -> map snd (combine a b) = b).
  { induction a as [|x a IH]; intros [|y b]; cbn; try discriminate; auto.
    intros E. f_equal. apply IH. now inversion E. }
  apply H. rewrite length_seq, length_map. reflexivity.
Qed.

(** ** Consolidation in recon_raptor_fincomms.py *)

Lemma has_invoice_true (k : string) :
  Fincomms.has_invoice k = Some true <->
  is_empty k = false /\ String.eqb k "0" = false.
Proof.
  unfold Fincomms.has_invoice.
  destruct (is_empty k); [split; [discriminate|intros [? _]; discriminate]|].
  destruct (String.eqb k "0"); cbn; split; try tauto;
    try discriminate; intros [_ ?]; discriminate.
Qed.

Lemma masked_In (b : bool) (work : list (nat * Fincomms.work_row))
      (p : nat * Fincomms.work_row) :
  In p (Fincomms.masked b work) <->
  In p work /\ Fincomms.has_invoice (Fincomms.w_inv_clean (snd p)) = Some b.
Proof.
  unfold Fincomms.masked. rewrite filter_In.
  destruct (Fincomms.has_invoice (Fincomms.w_inv_clean (snd p))) as [m|].
  - destruct m, b; cbn; split; intros [? ?]; split;
      try assumption; try reflexivity; discriminate.
  - split; intros [? ?]; discriminate.
Qed.

Section FincommsConsolidationFacts.
Variable series_sum : list float -> float.
Variable round2 : float -> float.

(** The rows of the consolidated table: each carries a usable code, the
    cleaned invoice cell of its base row, and the rounded net of the rows
    with that code, which is not below 0.01 in absolute value. *)
Lemma fincomms_consolidated_rows (df : frame row) (tag : string)
      (amount_func : row -> string -> string -> float)
      (cons : frame Fincomms.cons_row) (pay : frame Fincomms.work_row)
      (i : nat) (c : Fincomms.cons_row) :
  Fincomms.consolidate_invoices series_sum round2 df tag amount_func
  = Some (cons, pay) ->
  In (i, c) (rows cons) ->
  let work := Fincomms.work_rows df tag amount_func in
  Fincomms.has_invoice (Fincomms.c_inv_clean c) = Some true /\
  Fincomms.c_inv_clean c
  = Fincomms_clean.clean_invoice_number
      (row_get (Fincomms.c_src c) (Fincomms.col "invoice" tag) NaN) /\
  Fincomms.c_net_amount c
  = Fincomms.net_of series_sum round2 (Fincomms.c_inv_clean c) work /\
  flt (fabs (Fincomms.net_of series_sum round2 (Fincomms.c_inv_clean c) work))
      (lit 1 2) = false.
Proof.
  unfold Fincomms.consolidate_invoices.
  destruct (negb (has_column df (Fincomms.col "invoice" tag))).
  { intros E. inversion E; subst. intros []. }
  destruct (is_empty_frame df); [discriminate|].
  set (work := Fincomms.work_rows df tag amount_func).
  destruct (forallb _ work); [|discriminate].
  set (inv_rows := Fincomms.masked true work).
  set (consolidated := flat_map _ _).
  intros E Hin.
  assert (Hc : In (i, c) consolidated).
  { inversion E; subst. destruct consolidated; [destruct Hin|exact Hin]. }
  clear E Hin. cbv zeta.
  apply in_flat_map in Hc as (k & Hk & Hc).
  unfold Fincomms.consolidate_group in Hc.
  destruct (is_empty k || String.eqb k "0") eqn:Hv; [destruct Hc|].
  apply orb_false_iff in Hv as [Hv1 Hv2].
  assert (Hk' : Fincomms.has_invoice k = Some true)
    by (apply has_invoice_true; auto).
  assert (G : Fincomms.group_of Fincomms.w_inv_clean k inv_rows
              = Fincomms.group_of Fincomms.w_inv_clean k work).
  { apply group_of_filter. intros p Hp. rewrite Hp, Hk'. reflexivity. }
  rewrite G in Hc.
  fold (Fincomms.net_of series_sum round2 k work) in Hc.
  destruct (flt (fabs (Fincomms.net_of series_sum round2 k work)) (lit 1 2))
    eqn:Hn; [destruct Hc|].
  destruct (Fincomms.group_of Fincomms.w_inv_clean k work) as [|[i0 b] g]
    eqn:Hg; [destruct Hc|].
  destruct Hc as [Hc|[]]. inversion Hc; subst. cbn.
  assert (Hb : In (i, b) (Fincomms.group_of Fincomms.w_inv_clean k work))
    by (rewrite Hg; left; reflexivity).
  apply group_of_In in Hb as [Hb Hbk]. cbn in Hbk.
  unfold work, Fincomms.work_rows in Hb.
  apply in_map_iff in Hb as (p & Hp & _). inversion Hp; subst. cbn in *.
  repeat split; assumption || reflexivity.
Qed.

(** The payment rows carry the sentinel code. *)
Lemma fincomms_payment_rows (df : frame row) (tag : string)
      (amount_func : row -> string -> string -> float)
      (cons : frame Fincomms.cons_row) (pay : frame Fincomms.work_row)
      (i : nat) (w : Fincomms.work_row) :
  Fincomms.consolidate_invoices series_sum round2 df tag amount_func
  = Some (cons, pay) ->
  In (i, w) (rows pay) ->
  Fincomms.w_inv_clean w = "0".
Proof.
  unfold Fincomms.consolidate_invoices.
  destruct (negb (has_column df (Fincomms.col "invoice" tag))).
  { intros E. inversion E; subst. intros []. }
  destruct (is_empty_frame df); [discriminate|].
  destruct (forallb _ _); [|discriminate].
  intros E Hin. inversion E; subst. cbn in Hin.
  apply masked_In in Hin as [_ H]. cbn in H.
  unfold Fincomms.has_invoice in H.
  destruct (is_empty (Fincomms.w_inv_clean w)); [discriminate|].
  destruct (String.eqb_spec (Fincomms.w_inv_clean w) "0"); [assumption|].
  discriminate.
Qed.
End FincommsConsolidationFacts.

Lemma fincomms_clean_of_text (src : row) (c : string) :
  Fincomms.has_invoice
    (Fincomms_clean.clean_invoice_number (row_get src c NaN)) = Some true ->
  Fincomms_clean.clean_invoice_number
    (Text (str_of (row_get src c (Text ""))))
  = Fincomms_clean.clean_invoice_number (row_get src c NaN).
Proof.
  unfold row_get. destruct (row_lookup src c) as [[s|]|];
    [reflexivity|discriminate|discriminate].
Qed.

Lemma fincomms_missing_rows (tag : string) (c : frame Fincomms.cons_row)
      (used : list nat) (i : nat) (r : miss_row) :
  In (i, r) (rows (Fincomms.missing tag c used)) ->
  exists j cr, In (j, cr) (rows c) /\ r = Fincomms.to_miss tag cr.
Proof.
  unfold Fincomms.missing.
  destruct (is_empty_frame c); [intros []|].
  destruct (drop_used used (rows c)) as [|p l] eqn:E; [intros []|].
  cbn [rows]. intros H. apply reset_index_In in H.
  rewrite map_map in H. cbn [snd] in H.
  apply in_map_iff in H as ([j cr] & Hr & Hin).
  exists j, cr. split; [|symmetry; exact Hr].
  assert (Hd : In (j, cr) (drop_used used (rows c)))
    by (rewrite E; exact Hin).
  unfold drop_used in Hd. apply filter_In in Hd as [Hd _]. exact Hd.
Qed.

(** ** A group that nets to zero leaves no trace *)

(** In recon_raptor_fincomms.py, on either side, when the rounded net of
    the lines that share a usable normalised code is below 0.01 in absolute
    value, the consolidated table has no row for that code, and no match
    record, missing row or payment row of [match_invoices] carries it. *)
Lemma fincomms_cancelled_group
        (series_sum : list float -> float) (round2 : float -> float)
        (erp_df ven_df : frame row) (matched : list match_record)
        (miss_erp miss_ven : frame miss_row)
        (erp_payments ven_payments : frame Fincomms.work_row) (k : string) :
  Fincomms.match_invoices series_sum round2 erp_df ven_df
  = Some (matched, miss_erp, miss_ven, erp_payments, ven_payments) ->
  Fincomms.has_invoice k = Some true ->
  (flt (fabs (Fincomms.net_of series_sum round2 k
                (Fincomms.work_rows erp_df "erp"
                                    Fincomms.calculate_amount_erp)))
       (lit 1 2) = true ->
   (forall cons pay i c,
       Fincomms.consolidate_invoices series_sum round2 erp_df "erp"
                                     Fincomms.calculate_amount_erp
       = Some (cons, pay) ->
       In (i, c) (rows cons) -> Fincomms.c_inv_clean c <> k) /\
   (forall m, In m matched ->
              Fincomms_clean.clean_invoice_number (Text (erp_invoice m))
              <> k) /\
   (forall i r, In (i, r) (rows miss_erp) ->
                Fincomms_clean.clean_invoice_number (Invoice r) <> k) /\
   (forall i w, In (i, w) (rows erp_payments) ->
                Fincomms.w_inv_clean w <> k)) /\
  (flt (fabs (Fincomms.net_of series_sum round2 k
                (Fincomms.work_rows ven_df "ven"
                                    Fincomms.calculate_amount_vendor)))
       (lit 1 2) = true ->
   (forall cons pay i c,
       Fincomms.consolidate_invoices series_sum round2 ven_df "ven"
                                     Fincomms.calculate_amount_vendor
       = Some (cons, pay) ->
       In (i, c) (rows cons) -> Fincomms.c_inv_clean c <> k) /\
   (forall m, In m matched ->
              Fincomms_clean.clean_invoice_number (Text (vendor_invoice m))
              <> k) /\
   (forall i r, In (i, r) (rows miss_ven) ->
                Fincomms_clean.clean_invoice_number (Invoice r) <> k) /\
   (forall i w, In (i, w) (rows ven_payments) ->
                Fincomms.w_inv_clean w <> k)).
Proof.
  intros Hm Hk. unfold Fincomms.match_invoices in Hm.
  destruct (Fincomms.consolidate_invoices series_sum round2 erp_df "erp" _)
    as [[erp_c erp_p]|] eqn:Ce; [|discriminate].
  destruct (Fincomms.consolidate_invoices series_sum round2 ven_df "ven" _)
    as [[ven_c ven_p]|] eqn:Cv; [|discriminate].
  assert (Hsentinel : k <> "0").
  { apply has_invoice_true in Hk as [_ Hk]. intros ->. discriminate. }
  assert (Rows : forall df tag f cons pay i c,
             Fincomms.consolidate_invoices series_sum round2 df tag f
             = Some (cons, pay) ->
             flt (fabs (Fincomms.net_of series_sum round2 k
                          (Fincomms.work_rows df tag f))) (lit 1 2) = true ->
             In (i, c) (rows cons) -> Fincomms.c_inv_clean c <> k).
  { intros df tag f cons pay i c Hc Hn Hin E.
    destruct (fincomms_consolidated_rows series_sum round2 df tag f cons pay
                                         i c Hc Hin) as (_ & _ & _ & Hf).
    rewrite E in Hf. congruence. }
  assert (Recs : Forall (fun m => exists e v,
                     In (erp_idx m, e) (rows erp_c) /\
                     In (ven_idx m, v) (rows ven_c) /\
                     m = Fincomms.tier1_record (erp_idx m) e (ven_idx m) v)
                        matched /\
                 (forall i r, In (i, r) (rows miss_erp) ->
                    exists j cr, In (j, cr) (rows erp_c) /\
                                 r = Fincomms.to_miss "erp" cr) /\
                 (forall i r, In (i, r) (rows miss_ven) ->
                    exists j cr, In (j, cr) (rows ven_c) /\
                                 r = Fincomms.to_miss "ven" cr) /\
                 erp_payments = erp_p /\ ven_payments = ven_p).
  { destruct (is_empty_frame erp_c && is_empty_frame ven_c).
    { inversion Hm; subst. repeat split; try constructor; intros ? ? []. }
    destruct (negb (is_empty_frame erp_c) && negb (is_empty_frame ven_c)).
    - pose proof (fincomms_tier1_records (rows erp_c) (rows ven_c)) as T.
      destruct (Fincomms.tier1 (rows erp_c) (rows ven_c)) as [[ms ue] uv].
      inversion Hm; subst. cbn [fst] in T. repeat split.
      + eapply Forall_impl; [|exact T].
        intros m (e & v & ? & ? & _ & _ & ?). exists e, v. auto.
      + intros i r. apply fincomms_missing_rows.
      + intros i r. apply fincomms_missing_rows.
    - inversion Hm; subst. repeat split; try constructor.
      + intros i r. apply fincomms_missing_rows.
      + intros i r. apply fincomms_missing_rows. }
  destruct Recs as (Rm & Re & Rv & -> & ->).
  rewrite Forall_forall in Rm.
  split; intros Hn; (split; [|split; [|split]]).
  - intros cons pay i c Hc. inversion Hc; subst.
    apply (Rows _ _ _ _ _ _ _ Ce Hn).
  - intros m Hin. destruct (Rm m Hin) as (e & v & He & _ & ->).
    cbn [erp_invoice Fincomms.tier1_record].
    destruct (fincomms_consolidated_rows _ _ _ _ _ _ _ _ _ Ce He)
      as (Hval & Hcode & _).
    change "invoice_erp" with (Fincomms.col "invoice" "erp").
    rewrite Hcode in Hval. rewrite (fincomms_clean_of_text _ _ Hval).
    rewrite <- Hcode. apply (Rows _ _ _ _ _ _ _ Ce Hn He).
  - intros i r Hin. destruct (Re i r Hin) as (j & cr & Hj & ->).
    cbn [Invoice Fincomms.to_miss].
    destruct (fincomms_consolidated_rows _ _ _ _ _ _ _ _ _ Ce Hj)
      as (_ & Hcode & _).
    rewrite <- Hcode. apply (Rows _ _ _ _ _ _ _ Ce Hn Hj).
  - intros i w Hin.
    rewrite (fincomms_payment_rows _ _ _ _ _ _ _ _ _ Ce Hin).
    congruence.
  - intros cons pay i c Hc. inversion Hc; subst.
    apply (Rows _ _ _ _ _ _ _ Cv Hn).
  - intros m Hin. destruct (Rm m Hin) as (e & v & _ & Hv & ->).
    cbn [vendor_invoice Fincomms.tier1_record].
    destruct (fincomms_consolidated_rows _ _ _ _ _ _ _ _ _ Cv Hv)
      as (Hval & Hcode & _).
    change "invoice_ven" with (Fincomms.col "invoice" "ven").
    rewrite Hcode in Hval. rewrite (fincomms_clean_of_text _ _ Hval).
    rewrite <- Hcode. apply (Rows _ _ _ _ _ _ _ Cv Hn Hv).
  - intros i r Hin. destruct (Rv i r Hin) as (j & cr & Hj & ->).
    cbn [Invoice Fincomms.to_miss].
    destruct (fincomms_consolidated_rows _ _ _ _ _ _ _ _ _ Cv Hj)
      as (_ & Hcode & _).
    rewrite <- Hcode. apply (Rows _ _ _ _ _ _ _ Cv Hn Hj).
  - intros i w Hin.
    rewrite (fincomms_payment_rows _ _ _ _ _ _ _ _ _ Cv Hin).
    congruence.
Qed.

(** ** C9: a table without an invoice column *)

(** In the Streamlit module [consolidate] hands such a table back as it
    came, rows included, and [match_invoices] then raises. *)
Lemma streamlit_consolidate_without_invoice_column :
  let typed :=
    mkFrame ["debit_erp"; "credit_erp"; "__type"]
      [(0, Streamlit.mkTyped [("debit_erp", Text "100"); ("credit_erp", Text "0")]
                             Streamlit.INV)] in
  let erp :=
    mkFrame ["debit_erp"; "credit_erp"]
      [(0, [("debit_erp", Text "100"); ("credit_erp", Text "0")])] in
  let ven :=
    mkFrame ["invoice_ven"; "debit_ven"; "credit_ven"]
      [(0, [("invoice_ven", Text "INV-1"); ("debit_ven", Text "100");
            ("credit_ven", Text "0")])] in
  Streamlit.consolidate typed "erp" = Streamlit.Unchanged typed /\
  Streamlit.classify erp "erp" = typed /\
  rows typed <> [] /\
  Streamlit.match_invoices (fun _ => "100.0") erp ven = None.
Proof. repeat split; try (vm_compute; reflexivity). discriminate. Qed.

(** C9, as amended (recon_raptor_fincomms.py). For a table without an
    [invoice_<tag>] column, [consolidate_invoices] returns an empty
    consolidated table and an empty payment table and does not raise. *)
Theorem fincomms_consolidate_without_invoice_column
        (series_sum : list float -> float) (round2 : float -> float)
        (df : frame row) (tag : string)
        (amount_func : row -> string -> string -> float) :
  has_column df (Fincomms.col "invoice" tag) = false ->
  Fincomms.consolidate_invoices series_sum round2 df tag amount_func
  = Some (empty_frame, empty_frame) /\
  is_empty_frame (empty_frame (R := Fincomms.cons_row)) = true.
Proof.
  intros H. unfold Fincomms.consolidate_invoices. rewrite H.
  split; reflexivity.
Qed.

Lemma fincomms_consolidate_without_invoice_column_witness :
  Fincomms.consolidate_invoices
    (fun l => fold_left fadd l zero) np_round2
    (mkFrame ["debit_erp"; "credit_erp"]
       [(0, [("debit_erp", Text "100"); ("credit_erp", Text "0")])])
    "erp" Fincomms.calculate_amount_erp
  = Some (empty_frame, empty_frame) /\
  is_empty_frame (empty_frame (R := Fincomms.cons_row)) = true.
Proof.
  apply fincomms_consolidate_without_invoice_column. reflexivity.
Defined.

(** ** Consolidation in the Streamlit module *)

Lemma fneg_fabs_nonpos (x : float) :
  not_nan x = true -> fle (fneg (fabs x)) zero = true.
Proof. destruct x as [[|]|[|]| |[|] m e]; try discriminate; reflexivity. Qed.

Lemma fabs_nonneg (x : float) :
  not_nan x = true -> fle zero (fabs x) = true.
Proof. destruct x as [[|]|[|]| |[|] m e]; try discriminate; reflexivity. Qed.

Lemma base_row_In (g : list (nat * Streamlit.typed_row)) (i : nat)
      (b : Streamlit.typed_row) :
  Streamlit.base_row g = Some (i, b) -> In (i, b) g.
Proof.
  unfold Streamlit.base_row.
  destruct (filter _ g) as [|p l] eqn:F.
  - destruct g as [|q g']; [discriminate|].
    intros E. inversion E; subst. left. reflexivity.
  - intros E. inversion E; subst.
    assert (H : In (i, b) (filter
                (fun p => match Streamlit.t_type (snd p) with
                          | Streamlit.INV => true
                          | _ => false
                          end) g))
      by (rewrite F; left; reflexivity).
    apply filter_In in H as [H _]. exact H.
Qed.

Lemma base_row_some (g : list (nat * Streamlit.typed_row)) :
  g <> [] -> exists p, Streamlit.base_row g = Some p.
Proof.
  unfold Streamlit.base_row. intros H.
  destruct (filter _ g) as [|p l]; [|exists p; reflexivity].
  destruct g as [|q g']; [congruence|exists q; reflexivity].
Qed.

(** The rows [consolidate] emits: one per usable code whose rounded total
    is not zero, built on a row of the group. *)
Lemma streamlit_grouped_rows (df : frame Streamlit.typed_row) (tag : string)
      (g : list (nat * Streamlit.cons_row)) (i : nat)
      (c : Streamlit.cons_row) :
  Streamlit.consolidate df tag = Streamlit.Grouped g ->
  In (i, c) g ->
  let grp := Fincomms.group_of (Streamlit.inv_clean_of tag)
                               (Streamlit.c_inv_clean c) (rows df) in
  is_empty (Streamlit.c_inv_clean c) = false /\
  String.eqb (Streamlit.c_inv_clean c) "0" = false /\
  Streamlit.c_amt c = fabs (py_round2 (Streamlit.group_total tag grp)) /\
  feq (Streamlit.c_amt c) zero = false /\
  exists b, In (i, b) grp /\ Streamlit.c_src c = Streamlit.t_src b /\
            Streamlit.c_type c = Streamlit.t_type b.
Proof.
  unfold Streamlit.consolidate.
  destruct (negb (has_column df ("invoice_" ++ tag))); [discriminate|].
  intros E Hin. inversion E; subst. clear E. cbv zeta.
  apply in_flat_map in Hin as (k & Hk & Hc).
  unfold Streamlit.consolidate_group in Hc.
  destruct (is_empty k || String.eqb k "0") eqn:Hv; [destruct Hc|].
  apply orb_false_iff in Hv as [Hv1 Hv2].
  destruct (feq (fabs (py_round2 (Streamlit.group_total tag _))) zero)
    eqn:Hz; [destruct Hc|].
  destruct (Streamlit.base_row _) as [[i0 b]|] eqn:Hb; [|destruct Hc].
  destruct Hc as [Hc|[]]. inversion Hc; subst. cbn.
  repeat split; try assumption.
  exists b. split; [|split; reflexivity].
  apply base_row_In. exact Hb.
Qed.

(** ** C5: the consolidated amount *)

(** A group made of one credit note of 50 has the rounded total -50; the
    row emitted for it carries 50. *)
Lemma streamlit_consolidated_amount_is_absolute :
  let cn := [("invoice_erp", Text "CN-77"); ("debit_erp", Text "0");
             ("credit_erp", Text "50")] in
  let df := mkFrame ["invoice_erp"; "debit_erp"; "credit_erp"; "__type"]
                    [(0, Streamlit.mkTyped cn Streamlit.CN)] in
  Streamlit.consolidate df "erp"
  = Streamlit.Grouped [(0, Streamlit.mkCons cn Streamlit.CN "77" (of_Z 50))] /\
  py_round2 (Streamlit.group_total "erp" (rows df)) = of_Z (-50) /\
  of_Z 50 <> of_Z (-50).
Proof. repeat split; try (vm_compute; reflexivity). vm_compute. discriminate. Qed.

(** C5, as amended (Streamlit module). The amount of an emitted consolidated
    row is the absolute value of the 2-decimal rounding of the total of its
    group, and is not zero; the total adds, line by line, debit minus credit
    made non-positive for a credit note and non-negative for any other
    line; and every group with a usable code and a non-zero rounded total
    has its row. *)
Theorem streamlit_consolidated_amount
        (df : frame Streamlit.typed_row) (tag : string)
        (g : list (nat * Streamlit.cons_row)) :
  Streamlit.consolidate df tag = Streamlit.Grouped g ->
  let group k := Fincomms.group_of (Streamlit.inv_clean_of tag) k (rows df) in
  let debit r :=
    normalize_number (row_get (Streamlit.t_src r) ("debit_" ++ tag) (Text "0")) in
  let credit r :=
    normalize_number (row_get (Streamlit.t_src r) ("credit_" ++ tag) (Text "0")) in
  (forall i c, In (i, c) g ->
     Streamlit.c_amt c
     = fabs (py_round2 (Streamlit.group_total tag
                          (group (Streamlit.c_inv_clean c)))) /\
     feq (Streamlit.c_amt c) zero = false) /\
  (forall l, Streamlit.group_total tag l
             = fold_left (fun total p =>
                            fadd total (Streamlit.signed_value tag (snd p)))
                         l zero) /\
  (forall r, Streamlit.signed_value tag r
             = if Streamlit.is_cn (Streamlit.t_type r)
               then fneg (fabs (fsub (debit r) (credit r)))
               else fabs (fsub (debit r) (credit r))) /\
  (forall r, not_nan (fsub (debit r) (credit r)) = true ->
             if Streamlit.is_cn (Streamlit.t_type r)
             then fle (Streamlit.signed_value tag r) zero = true
             else fle zero (Streamlit.signed_value tag r) = true) /\
  (forall k, is_empty k = false -> String.eqb k "0" = false ->
             group k <> [] ->
             feq (fabs (py_round2 (Streamlit.group_total tag (group k)))) zero
             = false ->
             exists i c, In (i, c) g /\ Streamlit.c_inv_clean c = k).
Proof.
  intros Hc. cbv zeta. split; [|split; [|split; [|split]]].
  - intros i c Hin.
    destruct (streamlit_grouped_rows df tag g i c Hc Hin)
      as (_ & _ & Ha & Hz & _).
    split; assumption.
  - reflexivity.
  - reflexivity.
  - intros r Hr. unfold Streamlit.signed_value.
    destruct (Streamlit.is_cn (Streamlit.t_type r)).
    + apply fneg_fabs_nonpos. exact Hr.
    + apply fabs_nonneg. exact Hr.
  - intros k Hv1 Hv2 Hne Hz.
    unfold Streamlit.consolidate in Hc.
    destruct (negb (has_column df ("invoice_" ++ tag))); [discriminate|].
    inversion Hc; subst. clear Hc.
    destruct (base_row_some _ Hne) as [[i b] Hb].
    exists i, (Streamlit.mkCons (Streamlit.t_src b) (Streamlit.t_type b) k
                 (fabs (py_round2 (Streamlit.group_total tag
                    (Fincomms.group_of (Streamlit.inv_clean_of tag) k
                                       (rows df)))))).
    split; [|reflexivity].
    apply in_flat_map. exists k. split.
    + apply group_keys_In.
      destruct (Fincomms.group_of (Streamlit.inv_clean_of tag) k (rows df))
        as [|p l] eqn:G; [congruence|].
      assert (Hp : In p (Fincomms.group_of (Streamlit.inv_clean_of tag) k
                                           (rows df)))
        by (rewrite G; left; reflexivity).
      apply group_of_In in Hp as [Hp Hk]. exists p. auto.
    + unfold Streamlit.consolidate_group.
      rewrite Hv1, Hv2, Hz, Hb. cbn. left. reflexivity.
Qed.

Lemma streamlit_consolidated_amount_witness :
  let inv := [("invoice_erp", Text "INV-0042"); ("debit_erp", Text "100,00");
              ("credit_erp", Text "0")] in
  let cn := [("invoice_erp", Text "CN 42"); ("debit_erp", Text "0");
             ("credit_erp", Text "30.50")] in
  let df := mkFrame ["invoice_erp"; "debit_erp"; "credit_erp"; "__type"]
                    [(0, Streamlit.mkTyped cn Streamlit.CN);
                     (1, Streamlit.mkTyped inv Streamlit.INV)] in
  let c := Streamlit.mkCons inv Streamlit.INV "42" (lit 6950 2) in
  Streamlit.c_amt c
  = fabs (py_round2 (Streamlit.group_total "erp"
            (Fincomms.group_of (Streamlit.inv_clean_of "erp")
                               (Streamlit.c_inv_clean c) (rows df)))) /\
  feq (Streamlit.c_amt c) zero = false.
Proof.
  intros inv cn df c.
  assert (Hc : Streamlit.consolidate df "erp" = Streamlit.Grouped [(1, c)])
    by (vm_compute; reflexivity).
  destruct (streamlit_consolidated_amount df "erp" [(1, c)] Hc) as [H _].
  apply (H 1 c). left. reflexivity.
Defined.

(** ** What a greedy loop consumes and what it leaves *)

Lemma filter_all {A : Type} (f : A -> bool) (l : list A) :
  (forall x, In x l -> f x = true) -> filter f l = l.
Proof.
  induction l as [|a l IH]; cbn; intros H; [reflexivity|].
  rewrite (H a) by (left; reflexivity). f_equal. apply IH.
  intros x Hx. apply H. right. exact Hx.
Qed.

Lemma NoDup_map_inj_on {A B : Type} (f : A -> B) (l : list A) (x y : A) :
  NoDup (map f l) -> In x l -> In y l -> f x = f y -> x = y.
Proof.
  induction l as [|a l IH]; cbn; intros N Hx Hy E; [destruct Hx|].
  inversion N as [|? ? Hn N']; subst.
  destruct Hx as [<-|Hx], Hy as [<-|Hy].
  - reflexivity.
  - exfalso. apply Hn. rewrite E. apply in_map. exact Hy.
  - exfalso. apply Hn. rewrite <- E. apply in_map. exact Hx.
  - apply IH; assumption.
Qed.

Lemma NoDup_map_via {A B C : Type} (a : A -> B) (b : A -> C) (l : list A) :
  NoDup (map a l) ->
  (forall x y, In x l -> In y l -> b x = b y -> a x = a y) ->
  NoDup (map b l).
Proof.
  induction l as [|x l IH]; cbn; intros N H; [constructor|].
  inversion N as [|? ? Hn N']; subst. constructor.
  - intros Hin. apply in_map_iff in Hin as (y & E & Hy).
    apply Hn. rewrite <- (H y x); [apply in_map; exact Hy|right; exact Hy
                                  |left; reflexivity|exact E].
  - apply IH; [exact N'|]. intros y z Hy Hz. apply H; right; assumption.
Qed.

Lemma NoDup_map_filter {R K : Type} (key : R -> K) (sel : R -> bool)
      (table : list R) (N : NoDup (map key table)) :
  NoDup (map key (filter sel table)).
Proof.
  induction table as [|r table IH]; cbn; [constructor|].
  cbn in N. inversion N as [|? ? Hn N']; subst.
  destruct (sel r); cbn; [|apply IH; exact N'].
  constructor; [|apply IH; exact N'].
  intros H. apply Hn. apply in_map_iff in H as (y & E & Hy).
  apply filter_In in Hy as [Hy _]. rewrite <- E. apply in_map. exact Hy.
Qed.

Lemma drop_used_app {R : Type} (used : list nat) (l1 l2 : list (nat * R)) :
  drop_used used (l1 ++ l2) = (drop_used used l1 ++ drop_used used l2)%list.
Proof. unfold drop_used. apply filter_app. Qed.

Lemma drop_used_cons_fresh {R : Type} (i : nat) (used : list nat)
      (l : list (nat * R)) :
  ~ In i (labels l) -> drop_used (i :: used) l = drop_used used l.
Proof.
  intros H. unfold drop_used. apply filter_ext_in. intros [j r] Hin.
  cbn. destruct (Nat.eqb_spec j i) as [->|Hne]; [|reflexivity].
  exfalso. apply H. apply (in_map fst) in Hin. exact Hin.
Qed.

Lemma drop_used_cons {R : Type} (used : list nat) (j : nat) (s : R)
      (l : list (nat * R)) :
  drop_used used ((j, s) :: l)
  = if mem j used then drop_used used l else (j, s) :: drop_used used l.
Proof. unfold drop_used. cbn. destruct (mem j used); reflexivity. Qed.

Lemma mem_cons (j i : nat) (used : list nat) :
  mem j (i :: used) = Nat.eqb j i || mem j used.
Proof. reflexivity. Qed.

Lemma drop_used_pick {R : Type} (i : nat) (r : R) (used : list nat)
      (l : list (nat * R)) :
  NoDup (labels l) -> In (i, r) l -> mem i used = false ->
  Permutation (drop_used used l) ((i, r) :: drop_used (i :: used) l).
Proof.
  induction l as [|[j s] l IH]; intros N Hin Hu; [destruct Hin|].
  cbn in N. inversion N as [|? ? Hn N']; subst.
  rewrite !drop_used_cons, mem_cons.
  destruct Hin as [E|Hin].
  - inversion E; subst. rewrite Hu, Nat.eqb_refl. cbn [orb].
    apply perm_skip. rewrite drop_used_cons_fresh by exact Hn. reflexivity.
  - assert (Hji : j <> i).
    { intros ->. apply Hn. apply (in_map fst) in Hin. exact Hin. }
    apply Nat.eqb_neq in Hji. rewrite Hji. cbn [orb].
    destruct (mem j used).
    + apply IH; assumption.
    + rewrite (IH N' Hin Hu). apply perm_swap.
Qed.

Lemma drop_used_labels_NoDup {R : Type} (used : list nat)
      (l : list (nat * R)) :
  NoDup (labels l) -> NoDup (labels (drop_used used l)).
Proof. intros N. unfold labels, drop_used. apply NoDup_map_filter. exact N. Qed.

Section GreedyKeys.
Context {E V M K : Type}.
Variable check_e : bool.
Variable pick : nat -> E -> list nat -> option (nat * V).
Variable mk : nat -> E -> nat -> V -> M.
Variable ven : list (nat * V).
Variable key_e : E -> K.
Variable key_v : V -> K.
Variable key_me key_mv : M -> K.

Hypothesis mk_key_e : forall ei e vi v, key_me (mk ei e vi v) = key_e e.
Hypothesis mk_key_v : forall ei e vi v, key_mv (mk ei e vi v) = key_v v.
Hypothesis pick_sound : forall ei e used_v vi v,
    pick ei e used_v = Some (vi, v) ->
    mem vi used_v = false /\ In (vi, v) ven.

Let ke (p : nat * E) : K := key_e (snd p).
Let kv (p : nat * V) : K := key_v (snd p).

(** The keys of the ERP rows seen so far are those of the records, plus
    others. *)
Lemma greedy_keys_sub_fold (erp done : list (nat * E))
      (st : greedy_state (M := M)) :
  (exists rest, Permutation (map ke done)
                            (map key_me (fst (fst st)) ++ rest)) ->
  exists rest,
    Permutation (map ke (done ++ erp))
                (map key_me (fst (fst (fold_left (greedy_step check_e pick mk)
                                                 erp st))) ++ rest).
Proof.
  revert done st. induction erp as [|[ei e] erp IH]; intros done st H.
  - rewrite app_nil_r. exact H.
  - cbn [fold_left].
    replace (done ++ (ei, e) :: erp)%list
      with ((done ++ [(ei, e)]) ++ erp)%list
      by (rewrite <- app_assoc; reflexivity).
    apply IH. destruct st as [[ms ue] uv]. destruct H as [rest H].
    cbn [fst] in H. unfold greedy_step. cbn [fst snd].
    rewrite map_app. cbn [map].
    assert (Keep : exists rest',
               Permutation (map ke done ++ [ke (ei, e)])
                           (map key_me ms ++ rest')).
    { exists (rest ++ [ke (ei, e)])%list. rewrite app_assoc.
      apply Permutation_app_tail. exact H. }
    destruct (check_e && mem ei ue); [exact Keep|].
    destruct (pick ei e uv) as [[vi v]|]; [|exact Keep].
    cbn [fst]. exists rest. rewrite map_app. cbn [map].
    rewrite mk_key_e. unfold ke at 2. cbn [snd].
    rewrite H. rewrite <- !app_assoc. apply Permutation_app_head.
    apply Permutation_app_comm.
Qed.

Lemma greedy_keys_sub (erp : list (nat * E)) :
  exists rest,
    Permutation (map ke erp)
                (map key_me (fst (fst (greedy check_e pick mk erp))) ++ rest).
Proof.
  apply (greedy_keys_sub_fold erp [] ([], [], [])). exists []. reflexivity.
Qed.

(** With distinct labels, the ERP rows are those of the records and those
    left by [drop_used]. *)
Lemma greedy_keys_erp_fold (erp done : list (nat * E))
      (st : greedy_state (M := M)) :
  NoDup (labels (done ++ erp)) ->
  (let '(ms, ue, uv) := st in
   incl ue (labels done) /\
   Permutation (map ke done) (map key_me ms ++ map ke (drop_used ue done))) ->
  let '(ms, ue, uv) := fold_left (greedy_step check_e pick mk) erp st in
  Permutation (map ke (done ++ erp))
              (map key_me ms ++ map ke (drop_used ue (done ++ erp))).
Proof.
  revert done st. induction erp as [|[ei e] erp IH]; intros done st N H.
  - cbn [fold_left]. destruct st as [[ms ue] uv]. rewrite app_nil_r.
    apply H.
  - cbn [fold_left].
    replace (done ++ (ei, e) :: erp)%list
      with ((done ++ [(ei, e)]) ++ erp)%list in *
      by (rewrite <- app_assoc; reflexivity).
    apply IH; [exact N|].
    destruct st as [[ms ue] uv]. destruct H as [Hi H].
    assert (Hfresh : ~ In ei (labels done)).
    { unfold labels in N. rewrite !map_app in N. cbn in N.
      apply NoDup_app_remove_r in N. apply NoDup_remove_2 in N.
      rewrite app_nil_r in N. exact N. }
    assert (Hue : mem ei ue = false).
    { apply mem_false. intros Hin. apply Hfresh. apply Hi. exact Hin. }
    unfold greedy_step. cbn [fst snd]. rewrite Hue, andb_false_r.
    destruct (pick ei e uv) as [[vi v]|].
    + split.
      * intros x [<-|Hx]; unfold labels; rewrite map_app; apply in_or_app;
          [right; left; reflexivity|left; apply Hi; exact Hx].
      * rewrite drop_used_app, drop_used_cons_fresh by exact Hfresh.
        unfold drop_used at 2. cbn [filter fst mem existsb].
        rewrite Nat.eqb_refl. cbn [orb negb]. rewrite app_nil_r.
        rewrite !map_app. cbn [map]. rewrite mk_key_e.
        unfold ke at 2. cbn [snd]. rewrite H.
        rewrite <- !app_assoc. apply Permutation_app_head.
        apply Permutation_app_comm.
    + split.
      * intros x Hx. unfold labels. rewrite map_app. apply in_or_app.
        left. apply Hi. exact Hx.
      * rewrite drop_used_app. unfold drop_used at 2.
        cbn [filter fst]. rewrite Hue. cbn [negb].
        rewrite !map_app. cbn [map]. rewrite app_assoc.
        apply Permutation_app_tail. exact H.
Qed.

Lemma greedy_keys_erp (erp : list (nat * E)) :
  NoDup (labels erp) ->
  let '(ms, ue, uv) := greedy check_e pick mk erp in
  Permutation (map ke erp) (map key_me ms ++ map ke (drop_used ue erp)).
Proof.
  intros N. apply (greedy_keys_erp_fold erp [] ([], [], []) N).
  split; [intros x []|reflexivity].
Qed.

(** With distinct labels, the vendor rows are those of the records and
    those left by [drop_used]. *)
Lemma greedy_keys_ven_fold (erp : list (nat * E))
      (st : greedy_state (M := M)) :
  NoDup (labels ven) ->
  (let '(ms, ue, uv) := st in
   Permutation (map kv ven) (map key_mv ms ++ map kv (drop_used uv ven))) ->
  let '(ms, ue, uv) := fold_left (greedy_step check_e pick mk) erp st in
  Permutation (map kv ven) (map key_mv ms ++ map kv (drop_used uv ven)).
Proof.
  intros N. revert st. induction erp as [|[ei e] erp IH]; intros st H.
  - exact H.
  - cbn [fold_left]. apply IH. destruct st as [[ms ue] uv].
    unfold greedy_step. cbn [fst snd].
    destruct (check_e && mem ei ue); [exact H|].
    destruct (pick ei e uv) as [[vi v]|] eqn:P; [|exact H].
    apply pick_sound in P as [Hu Hin].
    rewrite map_app. cbn [map]. rewrite mk_key_v, H.
    rewrite <- app_assoc. apply Permutation_app_head.
    rewrite (drop_used_pick vi v uv ven N Hin Hu). cbn [map].
    unfold kv at 1. cbn [snd]. reflexivity.
Qed.

Lemma greedy_keys_ven (erp : list (nat * E)) :
  NoDup (labels ven) ->
  let '(ms, ue, uv) := greedy check_e pick mk erp in
  Permutation (map kv ven) (map key_mv ms ++ map kv (drop_used uv ven)).
Proof.
  intros N. apply (greedy_keys_ven_fold erp ([], [], []) N).
  cbn. unfold drop_used. rewrite filter_all; [reflexivity|].
  intros x _. reflexivity.
Qed.
End GreedyKeys.

(** ** The Streamlit run: codes identify the consolidated entries *)

Lemma rstrip_by_idem (p : ascii -> bool) (t : string) :
  rstrip_by p (rstrip_by p t) = rstrip_by p t.
Proof.
  induction t as [|c r IH]; [reflexivity|]. cbn.
  destruct (is_empty (rstrip_by p r) && p c) eqn:E; [reflexivity|].
  cbn. rewrite IH, E. reflexivity.
Qed.

Lemma rstrip_by_starts (p : ascii -> bool) (t : string) :
  starts_with p t = false -> starts_with p (rstrip_by p t) = false.
Proof.
  destruct t as [|c r]; [reflexivity|]. cbn. intros H.
  rewrite H, andb_false_r. exact H.
Qed.

Lemma strip_idem (s : string) : strip (strip s) = strip s.
Proof.
  unfold strip.
  rewrite (lstrip_by_id is_space (rstrip_by is_space _))
    by (apply rstrip_by_starts, starts_with_lstrip).
  apply rstrip_by_idem.
Qed.

Lemma streamlit_clean_text (s : string) :
  Streamlit_clean.clean_invoice_code (Text s)
  = if is_empty s then "" else streamlit_clean_body (strip s).
Proof. reflexivity. Qed.

Lemma streamlit_clean_str_of (v : cell) :
  Streamlit_clean.clean_invoice_code (Text (str_of v))
  = Streamlit_clean.clean_invoice_code v.
Proof. destruct v; reflexivity. Qed.

(** A usable code: neither empty nor the sentinel. *)
Lemma streamlit_clean_stripped (src : row) (c : string) :
  let code := Streamlit_clean.clean_invoice_code (row_get src c NaN) in
  is_empty code = false -> String.eqb code "0" = false ->
  Streamlit_clean.clean_invoice_code
    (Text (strip (str_of (row_get src c (Text ""))))) = code.
Proof.
  unfold row_get. destruct (row_lookup src c) as [[s|]|]; cbv zeta.
  - cbn [str_of]. rewrite !streamlit_clean_text, strip_idem.
    destruct (is_empty s) eqn:Es; [discriminate|].
    destruct (is_empty (strip s)) eqn:Et; [|reflexivity].
    apply is_empty_true in Et. rewrite Et. discriminate.
  - reflexivity.
  - discriminate.
Qed.

Lemma NoDup_flat_map_keyed {A : Type} (key : A -> string)
      (f : string -> list A) (keys : list string) :
  NoDup keys ->
  (forall k x, In x (f k) -> key x = k) ->
  (forall k, List.length (f k) <= 1) ->
  NoDup (map key (flat_map f keys)).
Proof.
  intros N Hk Hl. induction keys as [|k ks IH]; cbn; [constructor|].
  inversion N as [|? ? Hn N']; subst.
  rewrite map_app. apply NoDup_app.
  - specialize (Hl k). destruct (f k) as [|x [|y l]]; cbn in *;
      [constructor|constructor; [intros []|constructor]|lia].
  - apply IH. exact N'.
  - intros a Ha Hb. apply in_map_iff in Ha as (x & <- & Hx).
    apply in_map_iff in Hb as (y & E & Hy).
    apply in_flat_map in Hy as (k' & Hk' & Hy).
    rewrite (Hk _ _ Hx) in E. rewrite (Hk _ _ Hy) in E. subst k'.
    contradiction.
Qed.

Lemma streamlit_group_small (tag k : string)
      (g : list (nat * Streamlit.typed_row)) :
  List.length (Streamlit.consolidate_group tag k g) <= 1 /\
  forall p, In p (Streamlit.consolidate_group tag k g) ->
            Streamlit.c_inv_clean (snd p) = k.
Proof.
  unfold Streamlit.consolidate_group.
  destruct (is_empty k || String.eqb k "0"); [cbn; split; [lia|intros ? []]|].
  destruct (feq _ zero); [cbn; split; [lia|intros ? []]|].
  destruct (Streamlit.base_row g) as [[i b]|]; cbn;
    [|split; [lia|intros ? []]].
  split; [lia|]. intros p [<-|[]]. reflexivity.
Qed.

(** The rows Tier 1 runs on have pairwise distinct, usable codes. *)
Lemma streamlit_use_rows_codes (float_str : float -> string)
      (df : frame Streamlit.typed_row) (tag : string)
      (use : list (nat * Streamlit.use_row)) :
  Streamlit.use_rows float_str (Streamlit.consolidate df tag) = Some use ->
  NoDup (map (fun p => Streamlit.inv_norm tag (snd p)) use) /\
  (forall p, In p use ->
             is_empty (Streamlit.inv_norm tag (snd p)) = false /\
             String.eqb (Streamlit.inv_norm tag (snd p)) "0" = false).
Proof.
  destruct (Streamlit.consolidate df tag) as [d|g] eqn:C; [discriminate|].
  intros E.
  assert (Hu : use = map (fun p => (fst p,
                            Streamlit.mkUse (Streamlit.c_src (snd p))
                              (Streamlit.clean_amt float_str
                                 (Streamlit.c_amt (snd p)))))
                         (filter (fun p => Streamlit.is_inv_or_cn
                                             (Streamlit.c_type (snd p))) g)).
  { destruct g; [discriminate|]. cbn [Streamlit.use_rows] in E.
    injection E as <-. reflexivity. }
  subst use. clear E.
  assert (Hrow : forall p, In p g ->
             Streamlit.inv_norm tag
               (Streamlit.mkUse (Streamlit.c_src (snd p))
                  (Streamlit.clean_amt float_str (Streamlit.c_amt (snd p))))
             = Streamlit.c_inv_clean (snd p) /\
             is_empty (Streamlit.c_inv_clean (snd p)) = false /\
             String.eqb (Streamlit.c_inv_clean (snd p)) "0" = false).
  { intros [i c] Hin.
    destruct (streamlit_grouped_rows df tag g i c C Hin)
      as (H1 & H2 & _ & _ & b & Hb & Hs & Ht).
    cbn [snd]. apply group_of_In in Hb as [Hb Hk]. cbn [snd] in Hk.
    repeat split; try assumption.
    unfold Streamlit.inv_norm. cbn. rewrite Hs. exact Hk. }
  assert (Hg : NoDup (map (fun p => Streamlit.c_inv_clean (snd p)) g)).
  { unfold Streamlit.consolidate in C.
    destruct (negb (has_column df ("invoice_" ++ tag))); [discriminate|].
    inversion C as [C']. rewrite C'. rewrite <- C' at 1.
    apply NoDup_flat_map_keyed.
    - apply group_keys_NoDup.
    - intros k x Hx. eapply (proj2 (streamlit_group_small tag k _)).
      exact Hx.
    - intros k. eapply (proj1 (streamlit_group_small tag k _)). }
  split.
  - rewrite map_map. cbn [snd].
    rewrite (map_ext_in _ (fun p => Streamlit.c_inv_clean (snd p))).
    + apply NoDup_map_filter. exact Hg.
    + intros p Hp. apply filter_In in Hp as [Hp _]. apply (Hrow p Hp).
  - intros p Hp. apply in_map_iff in Hp as (x & <- & Hx).
    apply filter_In in Hx as [Hx _]. cbn [snd].
    destruct (Hrow x Hx) as (-> & H1 & H2). auto.
Qed.

(** ** Codes taken by records and codes left in a table *)

Lemma code_in_In (c : string) (l : list string) :
  Streamlit.code_in c l = true <-> In c l.
Proof.
  unfold Streamlit.code_in. rewrite existsb_exists. split.
  - intros (x & Hx & E). apply String.eqb_eq in E. subst. exact Hx.
  - intros H. exists c. split; [exact H|apply String.eqb_refl].
Qed.

(** Filtering a table with distinct codes by "code not in [ks]" leaves
    exactly the codes that are not in [ks]. *)
Lemma code_filter_partition {A : Type} (f : A -> string) (l : list A)
      (ks : list string) :
  NoDup (map f l) -> NoDup ks -> incl ks (map f l) ->
  Permutation (map f l)
    (ks ++ map f (filter (fun x => negb (Streamlit.code_in (f x) ks)) l)).
Proof.
  intros Nl Nk I. apply NoDup_Permutation; [exact Nl| |].
  - apply NoDup_app; [exact Nk|apply NoDup_map_filter; exact Nl|].
    intros a Ha Hb. apply in_map_iff in Hb as (x & <- & Hx).
    apply filter_In in Hx as [_ Hx]. apply negb_true_iff in Hx.
    apply code_in_In in Ha. congruence.
  - intros c. rewrite in_app_iff. split.
    + intros Hc. destruct (Streamlit.code_in c ks) eqn:E.
      * left. apply code_in_In. exact E.
      * right. apply in_map_iff in Hc as (x & <- & Hx).
        apply in_map. apply filter_In. split; [exact Hx|].
        rewrite E. reflexivity.
    + intros [Hc|Hc]; [apply I; exact Hc|].
      apply in_map_iff in Hc as (x & <- & Hx).
      apply filter_In in Hx as [Hx _]. apply in_map. exact Hx.
Qed.

Lemma perm_app_disjoint {A : Type} (all ks cs : list A) :
  NoDup all -> Permutation all (ks ++ cs) ->
  forall c, In c cs -> ~ In c ks.
Proof.
  intros N P c Hc Hk.
  assert (N' : NoDup (ks ++ cs)) by (eapply Permutation_NoDup; eassumption).
  clear N P. induction ks as [|k ks IH]; [destruct Hk|].
  cbn in N'. inversion N' as [|? ? Hn N'']; subst.
  destruct Hk as [->|Hk]; [|apply IH; assumption].
  apply Hn. apply in_or_app. right. exact Hc.
Qed.

Lemma perm_app_chain {A : Type} (all ks cs ks' cs' : list A) :
  Permutation all (ks ++ cs) -> Permutation cs (ks' ++ cs') ->
  Permutation all ((ks ++ ks') ++ cs').
Proof.
  intros P Q. rewrite P, Q, app_assoc. reflexivity.
Qed.

Section GreedyVendorCodes.
Context {E V M K : Type}.
Variable check_e : bool.
Variable pick : nat -> E -> list nat -> option (nat * V).
Variable mk : nat -> E -> nat -> V -> M.
Variable ven : list (nat * V).
Variable key_v : V -> K.
Variable key_mv : M -> K.

Hypothesis mk_key_v : forall ei e vi v,
    In (vi, v) ven -> key_mv (mk ei e vi v) = key_v v.
Hypothesis pick_sound : forall ei e used_v vi v,
    pick ei e used_v = Some (vi, v) ->
    mem vi used_v = false /\ In (vi, v) ven.
Hypothesis ven_keys : NoDup (map (fun p => key_v (snd p)) ven).

(** Every record's vendor key is the key of a vendor row whose label is in
    [used_v], and no two records share one. *)
Let taken (st : greedy_state (M := M)) : Prop :=
  NoDup (map key_mv (fst (fst st))) /\
  forall k, In k (map key_mv (fst (fst st))) ->
            exists vi v, In (vi, v) ven /\ key_v v = k /\
                         mem vi (snd st) = true.

Lemma greedy_vendor_codes_fold (erp : list (nat * E))
      (st : greedy_state (M := M)) :
  taken st -> taken (fold_left (greedy_step check_e pick mk) erp st).
Proof.
  revert st. induction erp as [|[ei e] erp IH]; intros st H; [exact H|].
  cbn [fold_left]. apply IH. destruct st as [[ms ue] uv].
  unfold greedy_step. cbn [fst snd].
  destruct (check_e && mem ei ue); [exact H|].
  destruct (pick ei e uv) as [[vi v]|] eqn:P; [|exact H].
  apply pick_sound in P as [Hu Hin]. destruct H as [N H].
  unfold taken in *. cbn [fst snd] in *.
  rewrite map_app. cbn [map]. rewrite (mk_key_v _ _ _ _ Hin). split.
  - apply NoDup_app; [exact N|constructor; [intros []|constructor]|].
    intros k Hk [<-|[]].
    destruct (H _ Hk) as (vj & w & Hw & Ek & Hm).
    assert (Eq : (vj, w) = (vi, v))
      by (apply (NoDup_map_inj_on (fun p => key_v (snd p)) ven);
          assumption).
    inversion Eq; subst. congruence.
  - intros k Hk. apply in_app_or in Hk as [Hk|[<-|[]]].
    + destruct (H _ Hk) as (vj & w & Hw & Ek & Hm).
      exists vj, w. repeat split; try assumption.
      rewrite mem_cons, Hm. apply orb_true_r.
    + exists vi, v. repeat split; try assumption.
      rewrite mem_cons, Nat.eqb_refl. reflexivity.
Qed.

Lemma greedy_vendor_codes (erp : list (nat * E)) :
  NoDup (map key_mv (fst (fst (greedy check_e pick mk erp)))) /\
  incl (map key_mv (fst (fst (greedy check_e pick mk erp))))
       (map (fun p => key_v (snd p)) ven).
Proof.
  assert (H : taken (greedy check_e pick mk erp)).
  { apply greedy_vendor_codes_fold. split; [constructor|intros k []]. }
  destruct H as [N H]. split; [exact N|].
  intros k Hk. destruct (H _ Hk) as (vi & v & Hv & <- & _).
  apply (in_map (fun p => key_v (snd p)) ven (vi, v)). exact Hv.
Qed.
End GreedyVendorCodes.

(** ** Tier 1 of the Streamlit module splits each side by code *)

(** The codes of a missing table are the [__inv_norm] of the rows kept. *)
Lemma streamlit_missing_codes (tag : string) (cols : list string)
      (use : list (nat * Streamlit.use_row)) (matched_inv : list string) :
  miss_codes (Streamlit.missing tag cols use matched_inv)
  = map (fun p => Streamlit.inv_norm tag (snd p))
        (filter (fun p => negb (Streamlit.code_in
                                  (Streamlit.inv_norm tag (snd p))
                                  (map (fun s => Streamlit_clean.clean_invoice_code (Text s))
                                       matched_inv)))
                use).
Proof.
  unfold miss_codes, Streamlit.missing. cbn [rows].
  rewrite <- (map_map snd Streamlit.code_of), reset_index_rows, !map_map.
  apply map_ext. intros p. cbn [snd]. unfold Streamlit.code_of, Streamlit.to_miss.
  cbn [Invoice]. apply streamlit_clean_str_of.
Qed.

Lemma streamlit_missing_labels (tag : string) (cols : list string)
      (use : list (nat * Streamlit.use_row)) (matched_inv : list string) :
  NoDup (labels (rows (Streamlit.missing tag cols use matched_inv))).
Proof.
  unfold Streamlit.missing. cbn [rows]. rewrite reset_index_labels.
  apply seq_NoDup.
Qed.

Lemma streamlit_tier1_erp (cols : list string)
      (erp ven : list (nat * Streamlit.use_row)) :
  NoDup (use_codes "erp" erp) ->
  (forall p, In p erp ->
             is_empty (Streamlit.inv_norm "erp" (snd p)) = false /\
             String.eqb (Streamlit.inv_norm "erp" (snd p)) "0" = false) ->
  let ms := fst (fst (Streamlit.tier1 erp ven)) in
  Permutation (use_codes "erp" erp)
    (map erp_code ms
     ++ miss_codes (Streamlit.missing "erp" cols erp (map erp_invoice ms))).
Proof.
  intros N U ms. rewrite streamlit_missing_codes, map_map.
  change (fun x : match_record =>
            Streamlit_clean.clean_invoice_code (Text (erp_invoice x)))
    with erp_code.
  apply (code_filter_partition (fun p => Streamlit.inv_norm "erp" (snd p)));
    [exact N| |].
  all: destruct (greedy_keys_sub false (Streamlit.tier1_pick ven)
                   Streamlit.tier1_record
                   (fun e => Streamlit_clean.clean_invoice_code
                               (Text (Streamlit.inv_str "erp" e)))
                   erp_code (fun _ _ _ _ => eq_refl) erp) as [rest P].
  all: fold (Streamlit.tier1 erp ven) in P; fold ms in P.
  all: rewrite (map_ext_in _ (fun p => Streamlit.inv_norm "erp" (snd p)))
    in P
    by (intros p Hp; cbn [snd]; destruct (U p Hp) as [U1 U2];
        apply (streamlit_clean_stripped _ _ U1 U2)).
  - apply (Permutation_NoDup P) in N. apply NoDup_app_remove_r in N.
    exact N.
  - intros k Hk. apply (Permutation_in k (Permutation_sym P)).
    apply in_or_app. left. exact Hk.
Qed.

Lemma streamlit_tier1_ven (cols : list string)
      (erp ven : list (nat * Streamlit.use_row)) :
  NoDup (use_codes "ven" ven) ->
  (forall p, In p ven ->
             is_empty (Streamlit.inv_norm "ven" (snd p)) = false /\
             String.eqb (Streamlit.inv_norm "ven" (snd p)) "0" = false) ->
  let ms := fst (fst (Streamlit.tier1 erp ven)) in
  Permutation (use_codes "ven" ven)
    (map ven_code ms
     ++ miss_codes (Streamlit.missing "ven" cols ven
                                      (map vendor_invoice ms))).
Proof.
  intros N U ms. rewrite streamlit_missing_codes, map_map.
  change (fun x : match_record =>
            Streamlit_clean.clean_invoice_code (Text (vendor_invoice x)))
    with ven_code.
  assert (G : NoDup (map ven_code ms) /\
              incl (map ven_code ms) (use_codes "ven" ven)).
  { apply (greedy_vendor_codes false (Streamlit.tier1_pick ven)
             Streamlit.tier1_record ven (Streamlit.inv_norm "ven") ven_code).
    - intros ei e vi v Hv. destruct (U _ Hv) as [U1 U2].
      apply (streamlit_clean_stripped _ _ U1 U2).
    - intros ei e used_v vi v P. apply scan_first_sound in P as (H1 & H2 & _).
      split; assumption.
    - exact N. }
  apply (code_filter_partition (fun p => Streamlit.inv_norm "ven" (snd p)));
    [exact N|apply G|apply G].
Qed.

(** ** Tiers 2 and 3 of the Streamlit module split each side by code *)

Section StreamlitTiers.
Variable fuzzy_ratio : string -> string -> float.
Variable normalize_date : cell -> string.

Lemma streamlit_tier2_split (e v : frame miss_row) :
  NoDup (labels (rows e)) -> NoDup (labels (rows v)) ->
  let '(ms, _, _, re, rv) := Streamlit.tier2_match fuzzy_ratio e v in
  Permutation (miss_codes e) (map erp_code ms ++ miss_codes re) /\
  Permutation (miss_codes v) (map ven_code ms ++ miss_codes rv) /\
  NoDup (labels (rows re)) /\ NoDup (labels (rows rv)).
Proof.
  intros Ne Nv. unfold Streamlit.tier2_match.
  destruct (is_empty_frame e || is_empty_frame v).
  { cbn [map app]. repeat split; try assumption; reflexivity. }
  pose proof (greedy_keys_erp true (Streamlit.tier2_pick fuzzy_ratio (rows v))
                (Streamlit.tier2_record fuzzy_ratio) Streamlit.code_of
                erp_code (fun _ _ _ _ => eq_refl) (rows e) Ne) as PE.
  pose proof (greedy_keys_ven true (Streamlit.tier2_pick fuzzy_ratio (rows v))
                (Streamlit.tier2_record fuzzy_ratio) (rows v)
                Streamlit.code_of ven_code (fun _ _ _ _ => eq_refl)) as PV.
  specialize (PV (fun ei er used_v vi vr P =>
                    let H := scan_first_sound _ _ _ _ _ P in
                    conj (proj1 H) (proj1 (proj2 H))) (rows e) Nv).
  destruct (greedy true (Streamlit.tier2_pick fuzzy_ratio (rows v))
                   (Streamlit.tier2_record fuzzy_ratio) (rows e))
    as [[ms ue] uv].
  unfold miss_codes. cbn [rows].
  repeat split; try assumption; apply drop_used_labels_NoDup; assumption.
Qed.

Lemma streamlit_tier3_pick_sound (ven : list (nat * miss_row)) (ei : nat)
      (er : miss_row) (used_v : list nat) (vi : nat) (vr : miss_row) :
  Streamlit.tier3_pick fuzzy_ratio normalize_date ven ei er used_v
  = Some (vi, vr) ->
  mem vi used_v = false /\ In (vi, vr) ven.
Proof.
  unfold Streamlit.tier3_pick.
  destruct (is_empty (Streamlit.date_of normalize_date er)); [discriminate|].
  intros P. apply scan_first_sound in P as (H1 & H2 & _). split; assumption.
Qed.

Lemma streamlit_tier3_split (e v : frame miss_row) :
  NoDup (labels (rows e)) -> NoDup (labels (rows v)) ->
  let '(ms, _, _, re, rv) :=
    Streamlit.tier3_match fuzzy_ratio normalize_date e v in
  Permutation (miss_codes e) (map erp_code ms ++ miss_codes re) /\
  Permutation (miss_codes v) (map ven_code ms ++ miss_codes rv).
Proof.
  intros Ne Nv. unfold Streamlit.tier3_match.
  destruct (is_empty_frame e || is_empty_frame v).
  { cbn [map app]. split; reflexivity. }
  pose proof (greedy_keys_erp true
                (Streamlit.tier3_pick fuzzy_ratio normalize_date (rows v))
                (Streamlit.tier3_record fuzzy_ratio normalize_date)
                Streamlit.code_of erp_code (fun _ _ _ _ => eq_refl)
                (rows e) Ne) as PE.
  pose proof (greedy_keys_ven true
                (Streamlit.tier3_pick fuzzy_ratio normalize_date (rows v))
                (Streamlit.tier3_record fuzzy_ratio normalize_date) (rows v)
                Streamlit.code_of ven_code (fun _ _ _ _ => eq_refl)
                (streamlit_tier3_pick_sound (rows v)) (rows e) Nv) as PV.
  destruct (greedy true
              (Streamlit.tier3_pick fuzzy_ratio normalize_date (rows v))
              (Streamlit.tier3_record fuzzy_ratio normalize_date) (rows e))
    as [[ms ue] uv].
  unfold miss_codes. cbn [rows]. split; assumption.
Qed.
End StreamlitTiers.

(** ** The de-duplication filters of the page drop nothing *)

Lemma streamlit_drop_invoices_id (used : list string) (df : frame miss_row) :
  (forall c, In c (miss_codes df) ->
             ~ In c (map (fun x => Streamlit_clean.clean_invoice_code (Text x))
                         used)) ->
  Streamlit.drop_invoices used df = df.
Proof.
  intros H. destruct df as [cols rs]. unfold Streamlit.drop_invoices.
  cbn [columns rows]. f_equal. apply filter_all. intros p Hp.
  apply negb_true_iff.
  destruct (Streamlit.code_in (str_of (Invoice (snd p))) used) eqn:E;
    [|reflexivity].
  apply code_in_In in E. exfalso.
  apply (H (Streamlit.code_of (snd p))).
  - unfold miss_codes. cbn [rows].
    apply (in_map (fun p => Streamlit.code_of (snd p))). exact Hp.
  - unfold Streamlit.code_of.
    apply (in_map (fun x => Streamlit_clean.clean_invoice_code (Text x))).
    exact E.
Qed.

Lemma streamlit_drop_codes_id (used : list string) (df : frame miss_row) :
  (forall c, In c (miss_codes df) ->
             ~ In c (map (fun x => Streamlit_clean.clean_invoice_code (Text x))
                         used)) ->
  Streamlit.drop_codes used df = df.
Proof.
  intros H. destruct df as [cols rs]. unfold Streamlit.drop_codes.
  cbn [columns rows]. f_equal. apply filter_all. intros p Hp.
  apply negb_true_iff.
  destruct (Streamlit.code_in _ _) eqn:E; [|reflexivity].
  apply code_in_In in E. exfalso.
  apply (H (Streamlit.code_of (snd p))).
  - unfold miss_codes. cbn [rows].
    apply (in_map (fun p => Streamlit.code_of (snd p))). exact Hp.
  - unfold Streamlit.code_of. rewrite streamlit_clean_str_of. exact E.
Qed.

(** ** recon_raptor_fincomms.py: [match_invoices] conserves the entries *)

(** Rows emitted one per key, each under the label of a row of [table] that
    has that key, carry distinct labels when [table] does. *)
Lemma NoDup_labels_flat_map {A B : Type} (table : list (nat * B))
      (key : B -> string) (f : string -> list (nat * A))
      (keys : list string) :
  NoDup (labels table) -> NoDup keys ->
  (forall k, List.length (f k) <= 1) ->
  (forall k i a, In (i, a) (f k) ->
                 exists b, In (i, b) table /\ key b = k) ->
  NoDup (labels (flat_map f keys)).
Proof.
  intros Nt Nk Hl Hf. induction keys as [|k ks IH]; cbn; [constructor|].
  inversion Nk as [|? ? Hn Nk']; subst.
  unfold labels. rewrite map_app. apply NoDup_app.
  - specialize (Hl k). destruct (f k) as [|x [|y l]]; cbn in *;
      [constructor|constructor; [intros []|constructor]|lia].
  - apply IH. exact Nk'.
  - intros i Hi Hj.
    apply in_map_iff in Hi as ([i1 a1] & E1 & H1). cbn in E1. subst i1.
    apply in_map_iff in Hj as ([i2 a2] & E2 & H2). cbn in E2. subst i2.
    apply in_flat_map in H2 as (k' & Hk' & H2).
    destruct (Hf _ _ _ H1) as (b1 & Hb1 & K1).
    destruct (Hf _ _ _ H2) as (b2 & Hb2 & K2).
    assert (E : (i, b1) = (i, b2))
      by (apply (NoDup_map_inj_on fst table); [exact Nt| | |reflexivity];
          assumption).
    inversion E; subst. contradiction.
Qed.

Section FincommsRunFacts.
Variable series_sum : list float -> float.
Variable round2 : float -> float.

Lemma fincomms_group_small (k : string)
      (g : list (nat * Fincomms.work_row)) :
  List.length (Fincomms.consolidate_group series_sum round2 k g) <= 1 /\
  forall i c, In (i, c) (Fincomms.consolidate_group series_sum round2 k g) ->
              exists b, In (i, b) g /\
                        Fincomms.c_inv_clean c = Fincomms.w_inv_clean b.
Proof.
  unfold Fincomms.consolidate_group.
  destruct (is_empty k || String.eqb k "0"); [cbn; split; [lia|intros ? ? []]|].
  destruct (flt _ _); [cbn; split; [lia|intros ? ? []]|].
  destruct g as [|[i0 b] g]; cbn; [split; [lia|intros ? ? []]|].
  split; [lia|]. intros i c [E|[]]. inversion E; subst.
  exists b. split; [left; reflexivity|reflexivity].
Qed.

(** The consolidated table keeps distinct index labels and has one row per
    code. *)
Lemma fincomms_consolidated_distinct (df : frame row) (tag : string)
      (amount_func : row -> string -> string -> float)
      (cons : frame Fincomms.cons_row) (pay : frame Fincomms.work_row) :
  Fincomms.consolidate_invoices series_sum round2 df tag amount_func
  = Some (cons, pay) ->
  (NoDup (labels (rows df)) -> NoDup (labels (rows cons))) /\
  NoDup (map (fun p => Fincomms.inv_norm (snd p)) (rows cons)).
Proof.
  unfold Fincomms.consolidate_invoices.
  destruct (negb (has_column df (Fincomms.col "invoice" tag))).
  { intros E. inversion E; subst. split; [intros _|]; constructor. }
  destruct (is_empty_frame df); [discriminate|].
  set (work := Fincomms.work_rows df tag amount_func).
  destruct (forallb _ work); [|discriminate].
  set (inv_rows := Fincomms.masked true work).
  set (consolidated := flat_map _ _).
  intros E.
  assert (Hr : rows cons = consolidated).
  { inversion E; subst. destruct consolidated; reflexivity. }
  rewrite Hr. clear E Hr. split.
  - intros N. unfold consolidated.
    apply (NoDup_labels_flat_map work Fincomms.w_inv_clean).
    + unfold labels, work, Fincomms.work_rows. rewrite map_map. exact N.
    + apply group_keys_NoDup.
    + intros k. apply fincomms_group_small.
    + intros k i c Hin.
      apply (proj2 (fincomms_group_small k _)) in Hin as (b & Hb & _).
      apply group_of_In in Hb as [Hb Hk]. cbn [snd] in Hk.
      apply masked_In in Hb as [Hb _]. exists b. split; assumption.
  - unfold consolidated. apply NoDup_flat_map_keyed.
    + apply group_keys_NoDup.
    + intros k [i c] Hin. cbn [snd].
      apply (proj2 (fincomms_group_small k _)) in Hin as (b & Hb & Hc).
      apply group_of_In in Hb as [_ Hk]. cbn [snd] in Hk.
      unfold Fincomms.inv_norm. congruence.
    + intros k. apply fincomms_group_small.
Qed.

Lemma fincomms_clean_of_cell (src : row) (c : string) :
  Fincomms.has_invoice
    (Fincomms_clean.clean_invoice_number (row_get src c NaN)) = Some true ->
  Fincomms_clean.clean_invoice_number (Text (str_of (row_get src c NaN)))
  = Fincomms_clean.clean_invoice_number (row_get src c NaN).
Proof.
  unfold row_get. destruct (row_lookup src c) as [[s|]|];
    [reflexivity|discriminate|discriminate].
Qed.

(** The codes of a formatted missing table are those of the rows left. *)
Lemma fincomms_missing_codes (tag : string) (c : frame Fincomms.cons_row)
      (used : list nat) :
  (forall i r, In (i, r) (rows c) ->
     Fincomms.has_invoice (Fincomms.c_inv_clean r) = Some true /\
     Fincomms.c_inv_clean r
     = Fincomms_clean.clean_invoice_number
         (row_get (Fincomms.c_src r) (Fincomms.col "invoice" tag) NaN)) ->
  fincomms_miss_codes (Fincomms.missing tag c used)
  = map (fun p => Fincomms.inv_norm (snd p)) (drop_used used (rows c)).
Proof.
  intros H. unfold fincomms_miss_codes, Fincomms.missing.
  destruct (is_empty_frame c) eqn:Ec.
  { unfold is_empty_frame in Ec. destruct (rows c); [reflexivity|discriminate]. }
  destruct (drop_used used (rows c)) as [|p l] eqn:E; [reflexivity|].
  cbn [rows]. rewrite <- (map_map snd Fincomms.code_of), reset_index_rows.
  rewrite !map_map. apply map_ext_in. intros [i r] Hin. cbn [snd].
  assert (Hr : In (i, r) (rows c)).
  { rewrite <- E in Hin. unfold drop_used in Hin.
    apply filter_In in Hin as [Hin _]. exact Hin. }
  destruct (H i r Hr) as [Hv Hc].
  unfold Fincomms.code_of, Fincomms.to_miss, Fincomms.inv_norm.
  cbn [Invoice]. rewrite Hc in Hv. rewrite (fincomms_clean_of_cell _ _ Hv).
  symmetry. exact Hc.
Qed.

Lemma fincomms_missing_labels (tag : string) (c : frame Fincomms.cons_row)
      (used : list nat) :
  NoDup (labels (rows (Fincomms.missing tag c used))).
Proof.
  unfold Fincomms.missing. destruct (is_empty_frame c); [constructor|].
  destruct (drop_used used (rows c)); [constructor|].
  cbn [rows]. rewrite reset_index_labels. apply seq_NoDup.
Qed.

(** [match_invoices] loses no consolidated entry and uses none twice: on
    each side the codes of the consolidated rows, which are distinct, are
    the codes of the Tier-1 records followed by those of the missing
    table. *)
Lemma fincomms_match_invoices_conserves (erp_df ven_df : frame row)
      (erp_c ven_c : frame Fincomms.cons_row)
      (erp_p ven_p : frame Fincomms.work_row)
      (matched : list match_record) (miss_erp miss_ven : frame miss_row)
      (erp_payments ven_payments : frame Fincomms.work_row) :
  NoDup (labels (rows erp_df)) -> NoDup (labels (rows ven_df)) ->
  Fincomms.consolidate_invoices series_sum round2 erp_df "erp"
                                Fincomms.calculate_amount_erp
  = Some (erp_c, erp_p) ->
  Fincomms.consolidate_invoices series_sum round2 ven_df "ven"
                                Fincomms.calculate_amount_vendor
  = Some (ven_c, ven_p) ->
  Fincomms.match_invoices series_sum round2 erp_df ven_df
  = Some (matched, miss_erp, miss_ven, erp_payments, ven_payments) ->
  NoDup (map (fun p => Fincomms.inv_norm (snd p)) (rows erp_c)) /\
  NoDup (map (fun p => Fincomms.inv_norm (snd p)) (rows ven_c)) /\
  Permutation (map (fun p => Fincomms.inv_norm (snd p)) (rows erp_c))
    (map fincomms_erp_code matched ++ fincomms_miss_codes miss_erp) /\
  Permutation (map (fun p => Fincomms.inv_norm (snd p)) (rows ven_c))
    (map fincomms_ven_code matched ++ fincomms_miss_codes miss_ven) /\
  NoDup (labels (rows miss_erp)) /\ NoDup (labels (rows miss_ven)).
Proof.
  intros Ne Nv Ce Cv Hm.
  destruct (fincomms_consolidated_distinct _ _ _ _ _ Ce) as [Le Ke].
  destruct (fincomms_consolidated_distinct _ _ _ _ _ Cv) as [Lv Kv].
  specialize (Le Ne). specialize (Lv Nv).
  split; [exact Ke|]. split; [exact Kv|].
  assert (Ue : forall i r, In (i, r) (rows erp_c) ->
             Fincomms.has_invoice (Fincomms.c_inv_clean r) = Some true /\
             Fincomms.c_inv_clean r
             = Fincomms_clean.clean_invoice_number
                 (row_get (Fincomms.c_src r) (Fincomms.col "invoice" "erp")
                          NaN)).
  { intros i r Hin.
    destruct (fincomms_consolidated_rows _ _ _ _ _ _ _ _ _ Ce Hin)
      as (H1 & H2 & _). split; assumption. }
  assert (Uv : forall i r, In (i, r) (rows ven_c) ->
             Fincomms.has_invoice (Fincomms.c_inv_clean r) = Some true /\
             Fincomms.c_inv_clean r
             = Fincomms_clean.clean_invoice_number
                 (row_get (Fincomms.c_src r) (Fincomms.col "invoice" "ven")
                          NaN)).
  { intros i r Hin.
    destruct (fincomms_consolidated_rows _ _ _ _ _ _ _ _ _ Cv Hin)
      as (H1 & H2 & _). split; assumption. }
  set (erp_text := fun e : Fincomms.cons_row =>
         Fincomms_clean.clean_invoice_number
           (Text (str_of (row_get (Fincomms.c_src e) "invoice_erp"
                                  (Text ""))))).
  set (ven_text := fun v : Fincomms.cons_row =>
         Fincomms_clean.clean_invoice_number
           (Text (str_of (row_get (Fincomms.c_src v) "invoice_ven"
                                  (Text ""))))).
  assert (Te : forall l, incl l (rows erp_c) ->
             map (fun p => erp_text (snd p)) l
             = map (fun p => Fincomms.inv_norm (snd p)) l).
  { intros l Hl. apply map_ext_in. intros [i r] Hin. cbn [snd].
    destruct (Ue i r (Hl _ Hin)) as [Hv Hc]. unfold erp_text.
    change "invoice_erp" with (Fincomms.col "invoice" "erp").
    rewrite Hc in Hv. rewrite (fincomms_clean_of_text _ _ Hv).
    symmetry. exact Hc. }
  assert (Tv : forall l, incl l (rows ven_c) ->
             map (fun p => ven_text (snd p)) l
             = map (fun p => Fincomms.inv_norm (snd p)) l).
  { intros l Hl. apply map_ext_in. intros [i r] Hin. cbn [snd].
    destruct (Uv i r (Hl _ Hin)) as [Hv Hc]. unfold ven_text.
    change "invoice_ven" with (Fincomms.col "invoice" "ven").
    rewrite Hc in Hv. rewrite (fincomms_clean_of_text _ _ Hv).
    symmetry. exact Hc. }
  assert (Hdrop : forall (used : list nat) (c : frame Fincomms.cons_row),
             incl (drop_used used (rows c)) (rows c)).
  { intros used c p Hp. unfold drop_used in Hp.
    apply filter_In in Hp as [Hp _]. exact Hp. }
  unfold Fincomms.match_invoices in Hm. rewrite Ce, Cv in Hm.
  destruct (is_empty_frame erp_c && is_empty_frame ven_c) eqn:Eb.
  { inversion Hm; subst. apply andb_prop in Eb as [E1 E2].
    unfold is_empty_frame in E1, E2.
    destruct (rows erp_c); [|discriminate].
    destruct (rows ven_c); [|discriminate].
    repeat split; try reflexivity; constructor. }
  destruct (negb (is_empty_frame erp_c) && negb (is_empty_frame ven_c)).
  - pose proof (greedy_keys_erp true (Fincomms.tier1_pick (rows ven_c))
                  Fincomms.tier1_record erp_text fincomms_erp_code
                  (fun _ _ _ _ => eq_refl) (rows erp_c) Le) as PE.
    pose proof (greedy_keys_ven true (Fincomms.tier1_pick (rows ven_c))
                  Fincomms.tier1_record (rows ven_c) ven_text
                  fincomms_ven_code (fun _ _ _ _ => eq_refl)
                  (fun ei e used_v vi v P =>
                     let H := scan_first_sound _ _ _ _ _ P in
                     conj (proj1 H) (proj1 (proj2 H))) (rows erp_c) Lv)
      as PV.
    unfold Fincomms.tier1 in Hm.
    destruct (greedy true (Fincomms.tier1_pick (rows ven_c))
                     Fincomms.tier1_record (rows erp_c)) as [[ms ue] uv].
    inversion Hm; subst.
    rewrite (fincomms_missing_codes "erp" erp_c ue Ue),
      (fincomms_missing_codes "ven" ven_c uv Uv).
    rewrite <- (Te (rows erp_c)) by apply incl_refl.
    rewrite <- (Tv (rows ven_c)) by apply incl_refl.
    rewrite <- (Te (drop_used ue (rows erp_c))) by apply Hdrop.
    rewrite <- (Tv (drop_used uv (rows ven_c))) by apply Hdrop.
    repeat split; try assumption; apply fincomms_missing_labels.
  - inversion Hm; subst.
    rewrite (fincomms_missing_codes "erp" erp_c [] Ue),
      (fincomms_missing_codes "ven" ven_c [] Uv).
    unfold drop_used. rewrite !filter_all by (intros; reflexivity).
    repeat split; try reflexivity; apply fincomms_missing_labels.
Qed.
End FincommsRunFacts.

Section FincommsTiersConserve.
Variable fuzzy_ratio : string -> string -> float.

Lemma fincomms_tier2_pick_sound (ven : list (nat * miss_row)) (ei : nat)
      (er : miss_row) (used_v : list nat) (vi : nat) (vr : miss_row) :
  Fincomms.tier2_pick fuzzy_ratio ven ei er used_v = Some (vi, vr) ->
  mem vi used_v = false /\ In (vi, vr) ven.
Proof.
  intros P. apply tier2_pick_best in P as (b & a & -> & Hc & _).
  unfold Fincomms.tier2_candidate in Hc. cbn [fst snd] in Hc.
  apply andb_prop in Hc as [Hc _]. apply andb_prop in Hc as [Hc _].
  apply negb_true_iff in Hc. split; [exact Hc|].
  apply in_or_app. right. left. reflexivity.
Qed.

(** [tier2_match], on tables with distinct index labels, splits the codes
    of either side into those of its records and those it leaves. *)
Lemma fincomms_tier2_conserves (e v : frame miss_row) :
  NoDup (labels (rows e)) -> NoDup (labels (rows v)) ->
  let '(ms, re, rv) := Fincomms.tier2_match fuzzy_ratio e v in
  Permutation (fincomms_miss_codes e)
    (map fincomms_erp_code ms ++ fincomms_miss_codes re) /\
  Permutation (fincomms_miss_codes v)
    (map fincomms_ven_code ms ++ fincomms_miss_codes rv) /\
  NoDup (labels (rows re)) /\ NoDup (labels (rows rv)).
Proof.
  intros Ne Nv. unfold Fincomms.tier2_match.
  destruct (is_empty_frame e || is_empty_frame v).
  { cbn [map app]. repeat split; try assumption; reflexivity. }
  pose proof (greedy_keys_erp true (Fincomms.tier2_pick fuzzy_ratio (rows v))
                (Fincomms.tier2_record fuzzy_ratio) Fincomms.code_of
                fincomms_erp_code (fun _ _ _ _ => eq_refl) (rows e) Ne)
    as PE.
  pose proof (greedy_keys_ven true (Fincomms.tier2_pick fuzzy_ratio (rows v))
                (Fincomms.tier2_record fuzzy_ratio) (rows v)
                Fincomms.code_of fincomms_ven_code (fun _ _ _ _ => eq_refl)
                (fincomms_tier2_pick_sound (rows v)) (rows e) Nv) as PV.
  destruct (greedy true (Fincomms.tier2_pick fuzzy_ratio (rows v))
                   (Fincomms.tier2_record fuzzy_ratio) (rows e))
    as [[ms ue] uv].
  unfold fincomms_miss_codes. cbn [rows].
  repeat split; try assumption; apply drop_used_labels_NoDup; assumption.
Qed.

Lemma fincomms_tier3_pick_sound (ven : list (nat * miss_row)) (ei : nat)
      (er : miss_row) (used_v : list nat) (vi : nat) (vr : miss_row) :
  Fincomms.tier3_pick fuzzy_ratio ven ei er used_v = Some (vi, vr) ->
  mem vi used_v = false /\ In (vi, vr) ven.
Proof.
  unfold Fincomms.tier3_pick.
  destruct (is_empty (opt_str (Date er))); [discriminate|].
  intros P. apply scan_first_sound in P as (H1 & H2 & _). split; assumption.
Qed.

(** So does [tier3_match]. *)
Lemma fincomms_tier3_conserves (e v : frame miss_row) :
  NoDup (labels (rows e)) -> NoDup (labels (rows v)) ->
  let '(ms, re, rv) := Fincomms.tier3_match fuzzy_ratio e v in
  Permutation (fincomms_miss_codes e)
    (map fincomms_erp_code ms ++ fincomms_miss_codes re) /\
  Permutation (fincomms_miss_codes v)
    (map fincomms_ven_code ms ++ fincomms_miss_codes rv) /\
  NoDup (labels (rows re)) /\ NoDup (labels (rows rv)).
Proof.
  intros Ne Nv. unfold Fincomms.tier3_match.
  destruct (is_empty_frame e || is_empty_frame v).
  { cbn [map app]. repeat split; try assumption; reflexivity. }
  destruct (negb (has_column e "Date") || negb (has_column v "Date")).
  { cbn [map app]. repeat split; try assumption; reflexivity. }
  pose proof (greedy_keys_erp true (Fincomms.tier3_pick fuzzy_ratio (rows v))
                (Fincomms.tier3_record fuzzy_ratio) Fincomms.code_of
                fincomms_erp_code (fun _ _ _ _ => eq_refl) (rows e) Ne)
    as PE.
  pose proof (greedy_keys_ven true (Fincomms.tier3_pick fuzzy_ratio (rows v))
                (Fincomms.tier3_record fuzzy_ratio) (rows v)
                Fincomms.code_of fincomms_ven_code (fun _ _ _ _ => eq_refl)
                (fincomms_tier3_pick_sound (rows v)) (rows e) Nv) as PV.
  destruct (greedy true (Fincomms.tier3_pick fuzzy_ratio (rows v))
                   (Fincomms.tier3_record fuzzy_ratio) (rows e))
    as [[ms ue] uv].
  unfold fincomms_miss_codes. cbn [rows].
  repeat split; try assumption; apply drop_used_labels_NoDup; assumption.
Qed.
End FincommsTiersConserve.

(** ** Rounding to two decimals never lands strictly between 0 and 0.01 *)

Lemma digits2_pos_bounds (p : positive) :
  (2 ^ (Zpos (digits2_pos p) - 1) <= Zpos p < 2 ^ Zpos (digits2_pos p))%Z.
Proof.
  induction p as [p IH|p IH|]; cbn [digits2_pos].
  - rewrite Pos2Z.inj_succ.
    replace (Z.succ (Zpos (digits2_pos p)) - 1)%Z
      with (Z.succ (Zpos (digits2_pos p) - 1)) by lia.
    rewrite !Z.pow_succ_r by lia. lia.
  - rewrite Pos2Z.inj_succ.
    replace (Z.succ (Zpos (digits2_pos p)) - 1)%Z
      with (Z.succ (Zpos (digits2_pos p) - 1)) by lia.
    rewrite !Z.pow_succ_r by lia. lia.
  - cbn. lia.
Qed.

Lemma shr_1_m (mrs : shr_record) :
  (0 <= shr_m mrs)%Z -> shr_m (shr_1 mrs) = (shr_m mrs / 2)%Z.
Proof.
  destruct mrs as [m r s]. cbn [shr_m]. intros H.
  destruct m as [|[p|p|]|p]; cbn [shr_1 shr_m]; try lia;
    rewrite <- Z.div2_div; reflexivity.
Qed.

Lemma iter_shr_1_m (n : positive) (mrs : shr_record) :
  (0 <= shr_m mrs)%Z ->
  shr_m (iter_pos shr_1 n mrs) = (shr_m mrs / 2 ^ Zpos n)%Z.
Proof.
  revert mrs. induction n as [n IH|n IH|]; intros mrs H; cbn [iter_pos].
  - assert (H1 : (0 <= shr_m (shr_1 mrs))%Z)
      by (rewrite shr_1_m by exact H; apply Z.div_pos; lia).
    assert (H2 : (0 <= shr_m (iter_pos shr_1 n (shr_1 mrs)))%Z)
      by (rewrite IH by exact H1; apply Z.div_pos; lia).
    rewrite IH, IH, shr_1_m by assumption.
    rewrite !Z.div_div by lia. f_equal.
    rewrite (Pos2Z.inj_xI n).
    replace (2 * Zpos n + 1)%Z with (1 + Zpos n + Zpos n)%Z by lia.
    rewrite (Z.pow_add_r 2 (1 + Zpos n) (Zpos n)),
      (Z.pow_add_r 2 1 (Zpos n)) by lia.
    change (2 ^ 1)%Z with 2%Z. ring.
  - assert (H2 : (0 <= shr_m (iter_pos shr_1 n mrs))%Z)
      by (rewrite IH by exact H; apply Z.div_pos; lia).
    rewrite IH, IH by assumption.
    rewrite !Z.div_div by lia. f_equal.
    rewrite (Pos2Z.inj_xO n).
    replace (2 * Zpos n)%Z with (Zpos n + Zpos n)%Z by lia.
    rewrite (Z.pow_add_r 2 (Zpos n) (Zpos n)) by lia. ring.
  - rewrite shr_1_m by exact H. reflexivity.
Qed.

Lemma shr_record_of_loc_m (m : Z) (l : location) :
  shr_m (shr_record_of_loc m l) = m.
Proof. destruct l as [|[| |]]; reflexivity. Qed.

(** Shifting a mantissa down to 53 digits, when its exponent is not too
    small, leaves a positive mantissa and does not lower the exponent. *)
Lemma shr_fexp_positive (q : positive) (ez : Z) (l : location) :
  (-58 <= ez \/ -5 <= Zpos (digits2_pos q) + ez)%Z ->
  exists m e, shr_m (fst (shr_fexp prec emax (Zpos q) ez l)) = Zpos m /\
              snd (shr_fexp prec emax (Zpos q) ez l) = e /\
              (ez <= e)%Z /\ (Zpos (digits2_pos q) + ez - 53 <= e)%Z.
Proof.
  intros H. unfold shr_fexp, shr, fexp, emin, prec, emax.
  cbn [Zdigits2].
  pose proof (digits2_pos_bounds q) as [B1 B2].
  set (d := Zpos (digits2_pos q)) in *.
  destruct (Z.max (d + ez - 53) (3 - 1024 - 53) - ez)%Z as [|n|n] eqn:En;
    cbn [fst snd].
  - exists q, ez. rewrite shr_record_of_loc_m. repeat split; lia.
  - assert (Hn : Zpos n = (d - 53)%Z) by lia.
    rewrite iter_shr_1_m by (rewrite shr_record_of_loc_m; lia).
    rewrite shr_record_of_loc_m.
    assert (Hq : (1 <= Zpos q / 2 ^ Zpos n)%Z).
    { apply Z.div_le_lower_bound; [lia|]. rewrite Z.mul_1_r.
      apply (Z.le_trans _ (2 ^ (d - 1))); [|exact B1].
      apply Z.pow_le_mono_r; lia. }
    destruct (Zpos q / 2 ^ Zpos n)%Z as [|m|m] eqn:Em; try lia.
    exists m, (ez + Zpos n)%Z. repeat split; lia.
  - exists q, ez. rewrite shr_record_of_loc_m. repeat split; lia.
Qed.

Lemma round_nearest_even_positive (m : positive) (l : location) :
  exists m', round_nearest_even (Zpos m) l = Zpos m'.
Proof.
  unfold round_nearest_even.
  destruct l as [|[| |]]; try destruct (Z.even (Zpos m));
    try (exists m; reflexivity); exists (m + 1)%positive; reflexivity.
Qed.

(** The float a rounding step returns for a positive mantissa whose order
    of magnitude is at least [2 ^ -6]. *)
Lemma binary_round_aux_large (sx : bool) (q : positive) (ez : Z)
      (l : location) :
  (-5 <= Zpos (digits2_pos q) + ez)%Z ->
  binary_round_aux prec emax sx (Zpos q) ez l = S754_infinity sx \/
  exists m e, binary_round_aux prec emax sx (Zpos q) ez l
              = S754_finite sx m e /\ (-58 <= e)%Z.
Proof.
  intros H. unfold binary_round_aux.
  destruct (shr_fexp_positive q ez l (or_intror H))
    as (m1 & e1 & Hm1 & He1 & _ & Hle1).
  destruct (shr_fexp prec emax (Zpos q) ez l) as [mrs' e'].
  cbn [fst snd] in Hm1, He1. subst e1. rewrite Hm1.
  destruct (round_nearest_even_positive m1 (loc_of_shr_record mrs'))
    as [m2 ->].
  assert (H58 : (-58 <= e')%Z) by lia.
  destruct (shr_fexp_positive m2 e' loc_Exact (or_introl H58))
    as (m3 & e3 & Hm3 & He3 & Hle3 & _).
  destruct (shr_fexp prec emax (Zpos m2) e' loc_Exact) as [mrs'' e''].
  cbn [fst snd] in Hm3, He3. subst e3. rewrite Hm3.
  destruct (e'' <=? emax - prec)%Z; [right|left; reflexivity].
  exists m3, e''. split; [reflexivity|lia].
Qed.

Lemma lit_cent : lit 1 2 = S754_finite false 5764607523034235 (-59).
Proof. vm_compute. reflexivity. Qed.

(** A positive number of cents reads back as a float that is at least
    0.01. *)
Lemma of_decimal_cents_large (s : bool) (p : positive) :
  flt (fabs (of_decimal s (Zpos p) 2)) (lit 1 2) = false.
Proof.
  destruct (Pos.eq_dec p 1) as [->|Hp]; [destruct s; vm_compute; reflexivity|].
  assert (Hd : (2 <= Zpos (digits2_pos p))%Z).
  { destruct p as [p|p|]; [| |congruence]; cbn [digits2_pos]; lia. }
  pose proof (digits2_pos_bounds p) as [B1 B2].
  unfold of_decimal, fdiv.
  change (Z.to_pos (10 ^ Z.of_nat 2)) with 100%positive.
  unfold SFdiv, SFdiv_core_binary.
  change (Zdigits2 (Zpos 100)) with 7%Z. cbn [Zdigits2].
  set (d := Zpos (digits2_pos p)) in *.
  unfold fexp, emin, prec, emax.
  set (e' := Z.min (Z.max (d + 0 - (7 + 0) - 53) (3 - 1024 - 53)) (0 - 0)).
  set (m' := match (0 - 0 - e')%Z with
             | Zpos _ => Z.shiftl (Zpos p) (0 - 0 - e')
             | Z0 => Zpos p
             | Zneg _ => 0%Z
             end).
  assert (P59 : (2 ^ 59 = 576460752303423488)%Z) by reflexivity.
  assert (P52 : (2 ^ 52 = 4503599627370496)%Z) by reflexivity.
  assert (Hm : (2 ^ 59 <= m' /\ -58 <= e')%Z).
  { destruct (Z_lt_le_dec d 60) as [Hlt|Hge].
    - assert (He : e' = (d - 60)%Z) by (unfold e'; lia).
      split; [|lia]. unfold m'. rewrite He.
      destruct (0 - 0 - (d - 60))%Z as [|n|n] eqn:En; try lia.
      rewrite Z.shiftl_mul_pow2 by lia.
      replace (Zpos n) with (60 - d)%Z by lia.
      replace 59%Z with ((d - 1) + (60 - d))%Z at 1 by lia.
      rewrite Z.pow_add_r by lia.
      apply Z.mul_le_mono_nonneg_r; [apply Z.pow_nonneg; lia|exact B1].
    - assert (He : e' = 0%Z) by (unfold e'; lia).
      split; [|lia]. unfold m'. rewrite He. cbn [Z.sub Z.opp Z.add].
      apply (Z.le_trans _ (2 ^ (d - 1))); [|exact B1].
      apply Z.pow_le_mono_r; lia. }
  destruct Hm as [Hm He]. clearbody m' e'.
  pose proof (Z_div_mod m' 100 eq_refl) as Hq.
  destruct (Z.div_eucl m' 100) as [q r]. destruct Hq as [Hq Hr].
  destruct q as [|q|q]; try lia.
  pose proof (digits2_pos_bounds q) as [_ C2].
  assert (Hdq : (53 <= Zpos (digits2_pos q))%Z).
  { destruct (Z_lt_le_dec (Zpos (digits2_pos q)) 53) as [Hlt|Hge];
      [exfalso|exact Hge].
    assert (2 ^ Zpos (digits2_pos q) <= 2 ^ 52)%Z
      by (apply Z.pow_le_mono_r; lia).
    lia. }
  pose proof (binary_round_aux_large (xorb s false) q e'
                (new_location 100 r)) as R.
  unfold prec, emax in R.
  destruct R as [->|(m & e & -> & Hge)]; [lia| |].
  - reflexivity.
  - rewrite lit_cent. unfold flt, SFltb, fabs. cbn [SFabs SFcompare].
    destruct (Z.compare_spec e (-59)) as [C|C|C]; [exfalso|exfalso|];
      [clear - C Hge; lia|clear - C Hge; lia|reflexivity].
Qed.

Lemma py_round2_small_is_zero (x : float) :
  flt (fabs (py_round2 x)) (lit 1 2) = true ->
  feq (fabs (py_round2 x)) zero = true.
Proof.
  destruct x as [s|s| |s m e].
  - intros _. destruct s; reflexivity.
  - rewrite lit_cent. destruct s; discriminate.
  - rewrite lit_cent. discriminate.
  - unfold py_round2. destruct (scaled_int 100 m e) as [|p|p];
      try (intros _; destruct s; reflexivity).
    rewrite of_decimal_cents_large. discriminate.
Qed.

(** ** The Streamlit module: a group that nets to zero leaves no trace *)

(** The codes Tier 1 runs on are codes of consolidated rows. *)
Lemma streamlit_use_codes_grouped (float_str : float -> string)
      (df : frame Streamlit.typed_row) (tag : string)
      (use : list (nat * Streamlit.use_row)) (k : string) :
  Streamlit.use_rows float_str (Streamlit.consolidate df tag) = Some use ->
  In k (use_codes tag use) ->
  exists g i c, Streamlit.consolidate df tag = Streamlit.Grouped g /\
                In (i, c) g /\ Streamlit.c_inv_clean c = k.
Proof.
  destruct (Streamlit.consolidate df tag) as [d|g] eqn:C; [discriminate|].
  intros E Hk.
  assert (Hu : use = map (fun p => (fst p,
                            Streamlit.mkUse (Streamlit.c_src (snd p))
                              (Streamlit.clean_amt float_str
                                 (Streamlit.c_amt (snd p)))))
                         (filter (fun p => Streamlit.is_inv_or_cn
                                             (Streamlit.c_type (snd p))) g)).
  { destruct g; [discriminate|]. cbn [Streamlit.use_rows] in E.
    injection E as <-. reflexivity. }
  subst use. clear E. unfold use_codes in Hk.
  apply in_map_iff in Hk as (x & <- & Hx).
  apply in_map_iff in Hx as ([i c] & <- & Hp).
  apply filter_In in Hp as [Hp _].
  exists g, i, c. split; [reflexivity|]. split; [exact Hp|].
  destruct (streamlit_grouped_rows df tag g i c C Hp)
    as (_ & _ & _ & _ & b & Hb & Hs & _).
  apply group_of_In in Hb as [_ Hb]. cbn [snd] in Hb.
  unfold Streamlit.inv_norm. cbn. rewrite Hs. symmetry. exact Hb.
Qed.

(** A group whose rounded total is below 0.01 in absolute value has no
    consolidated row: such a total is zero. *)
Lemma streamlit_cancelled_group (df : frame Streamlit.typed_row)
      (tag : string) (g : list (nat * Streamlit.cons_row)) (k : string) :
  Streamlit.consolidate df tag = Streamlit.Grouped g ->
  flt (fabs (py_round2 (Streamlit.group_total tag
               (Fincomms.group_of (Streamlit.inv_clean_of tag) k (rows df)))))
      (lit 1 2) = true ->
  forall i c, In (i, c) g -> Streamlit.c_inv_clean c <> k.
Proof.
  intros C Hn i c Hin E.
  destruct (streamlit_grouped_rows df tag g i c C Hin)
    as (_ & _ & Ha & Hz & _).
  rewrite Ha, E, (py_round2_small_is_zero _ Hn) in Hz. discriminate.
Qed.

(** ** The full run of the Streamlit page *)

(** Whenever both sides have rows to run on, the run returns a result, and
    on each side the codes of the rows Tier 1 starts from are, up to order,
    the codes of the records of the three tiers followed by the codes of the
    final missing table. *)
Lemma streamlit_run_split
  (float_str : float -> string) (fuzzy_ratio : string -> string -> float)
  (normalize_date : cell -> string) (erp_df ven_df : frame row)
  (erp_use ven_use : list (nat * Streamlit.use_row)) :
  Streamlit.use_rows float_str
    (Streamlit.consolidate (Streamlit.classify erp_df "erp") "erp")
  = Some erp_use ->
  Streamlit.use_rows float_str
    (Streamlit.consolidate (Streamlit.classify ven_df "ven") "ven")
  = Some ven_use ->
  exists res,
    Streamlit.reconcile float_str fuzzy_ratio normalize_date erp_df ven_df
    = Some res /\
    Permutation (use_codes "erp" erp_use)
      (map erp_code (Streamlit.r_tier1 res ++ Streamlit.r_tier2 res
                     ++ Streamlit.r_tier3 res)%list
       ++ miss_codes (Streamlit.final_erp_miss res)) /\
    Permutation (use_codes "ven" ven_use)
      (map ven_code (Streamlit.r_tier1 res ++ Streamlit.r_tier2 res
                     ++ Streamlit.r_tier3 res)%list
       ++ miss_codes (Streamlit.final_ven_miss res)).
Proof.
  intros He Hv.
  destruct (streamlit_use_rows_codes _ _ _ _ He) as [NE UE].
  destruct (streamlit_use_rows_codes _ _ _ _ Hv) as [NV UV].
  unfold Streamlit.reconcile, Streamlit.match_invoices. cbv zeta.
  rewrite He, Hv.
  set (t1 := fst (fst (Streamlit.tier1 erp_use ven_use))).
  pose proof (streamlit_tier1_erp (columns (Streamlit.classify erp_df "erp"))
                erp_use ven_use NE UE) as PE1.
  pose proof (streamlit_tier1_ven (columns (Streamlit.classify ven_df "ven"))
                erp_use ven_use NV UV) as PV1.
  cbv zeta in PE1, PV1. fold t1 in PE1, PV1.
  set (me := Streamlit.missing "erp" _ erp_use (map erp_invoice t1)) in *.
  set (mv := Streamlit.missing "ven" _ ven_use (map vendor_invoice t1)) in *.
  assert (Nme : NoDup (labels (rows me))) by apply streamlit_missing_labels.
  assert (Nmv : NoDup (labels (rows mv))) by apply streamlit_missing_labels.
  rewrite (streamlit_drop_invoices_id (map erp_invoice t1) me)
    by (rewrite map_map; exact (perm_app_disjoint _ _ _ NE PE1)).
  rewrite (streamlit_drop_invoices_id (map vendor_invoice t1) mv)
    by (rewrite map_map; exact (perm_app_disjoint _ _ _ NV PV1)).
  pose proof (streamlit_tier2_split fuzzy_ratio me mv Nme Nmv) as T2.
  destruct (Streamlit.tier2_match fuzzy_ratio me mv)
    as [[[[t2 ue2] uv2] re2] rv2].
  destruct T2 as (PE2 & PV2 & Nre2 & Nrv2).
  pose proof (perm_app_chain _ _ _ _ _ PE1 PE2) as PE12.
  pose proof (perm_app_chain _ _ _ _ _ PV1 PV2) as PV12.
  rewrite <- map_app in PE12, PV12.
  rewrite <- !map_app.
  rewrite (streamlit_drop_codes_id (map erp_invoice (t1 ++ t2)) re2)
    by (rewrite map_map; exact (perm_app_disjoint _ _ _ NE PE12)).
  rewrite (streamlit_drop_codes_id (map vendor_invoice (t1 ++ t2)) rv2)
    by (rewrite map_map; exact (perm_app_disjoint _ _ _ NV PV12)).
  replace (match t2 with [] => re2 | _ :: _ => re2 end) with re2
    by (destruct t2; reflexivity).
  replace (match t2 with [] => rv2 | _ :: _ => rv2 end) with rv2
    by (destruct t2; reflexivity).
  pose proof (streamlit_tier3_split fuzzy_ratio normalize_date re2 rv2
                Nre2 Nrv2) as T3.
  destruct (Streamlit.tier3_match fuzzy_ratio normalize_date re2 rv2)
    as [[[[t3 ue3] uv3] re3] rv3].
  destruct T3 as (PE3 & PV3).
  pose proof (perm_app_chain _ _ _ _ _ PE12 PE3) as PE123.
  pose proof (perm_app_chain _ _ _ _ _ PV12 PV3) as PV123.
  rewrite (streamlit_drop_codes_id (map erp_invoice (t1 ++ t2)) re3).
  2:{ rewrite map_map. intros c Hc Hin.
      apply (perm_app_disjoint _ _ _ NE PE123 c Hc).
      apply in_or_app. left. exact Hin. }
  rewrite (streamlit_drop_codes_id (map vendor_invoice (t1 ++ t2)) rv3).
  2:{ rewrite map_map. intros c Hc Hin.
      apply (perm_app_disjoint _ _ _ NV PV123 c Hc).
      apply in_or_app. left. exact Hin. }
  eexists. split; [reflexivity|].
  cbn [Streamlit.r_tier1 Streamlit.r_tier2 Streamlit.r_tier3
       Streamlit.final_erp_miss Streamlit.final_ven_miss].
  rewrite app_assoc, !(map_app _ (t1 ++ t2) t3).
  split; assumption.
Qed.


(** ** C4: a group that nets to zero leaves no trace *)

(** C4. In both modules, on either side, when the rounded net of the lines
    that share a normalised code is below 0.01 in absolute value, the
    consolidated table has no row for that code and no output carries it:
    in recon_raptor_fincomms.py no match record, missing row or payment row
    of [match_invoices] (the code being a usable one); in the Streamlit
    module, whose test is that the rounded net equals zero, no record of
    the three tiers and no row of the final missing table. *)
Theorem cancelled_group_in_no_output :
  (forall (series_sum : list float -> float) (round2 : float -> float)
          (erp_df ven_df : frame row) (matched : list match_record)
          (miss_erp miss_ven : frame miss_row)
          (erp_payments ven_payments : frame Fincomms.work_row)
          (k : string),
      Fincomms.match_invoices series_sum round2 erp_df ven_df
      = Some (matched, miss_erp, miss_ven, erp_payments, ven_payments) ->
      Fincomms.has_invoice k = Some true ->
      (flt (fabs (Fincomms.net_of series_sum round2 k
                    (Fincomms.work_rows erp_df "erp"
                                        Fincomms.calculate_amount_erp)))
           (lit 1 2) = true ->
       (forall cons pay i c,
           Fincomms.consolidate_invoices series_sum round2 erp_df "erp"
                                         Fincomms.calculate_amount_erp
           = Some (cons, pay) ->
           In (i, c) (rows cons) -> Fincomms.c_inv_clean c <> k) /\
       (forall m, In m matched ->
                  Fincomms_clean.clean_invoice_number (Text (erp_invoice m))
                  <> k) /\
       (forall i r, In (i, r) (rows miss_erp) ->
                    Fincomms_clean.clean_invoice_number (Invoice r) <> k) /\
       (forall i w, In (i, w) (rows erp_payments) ->
                    Fincomms.w_inv_clean w <> k)) /\
      (flt (fabs (Fincomms.net_of series_sum round2 k
                    (Fincomms.work_rows ven_df "ven"
                                        Fincomms.calculate_amount_vendor)))
           (lit 1 2) = true ->
       (forall cons pay i c,
           Fincomms.consolidate_invoices series_sum round2 ven_df "ven"
                                         Fincomms.calculate_amount_vendor
           = Some (cons, pay) ->
           In (i, c) (rows cons) -> Fincomms.c_inv_clean c <> k) /\
       (forall m, In m matched ->
                  Fincomms_clean.clean_invoice_number (Text (vendor_invoice m))
                  <> k) /\
       (forall i r, In (i, r) (rows miss_ven) ->
                    Fincomms_clean.clean_invoice_number (Invoice r) <> k) /\
       (forall i w, In (i, w) (rows ven_payments) ->
                    Fincomms.w_inv_clean w <> k))) /\
  (forall (float_str : float -> string)
          (fuzzy_ratio : string -> string -> float)
          (normalize_date : cell -> string) (erp_df ven_df : frame row)
          (res : Streamlit.run_result) (k : string),
      Streamlit.reconcile float_str fuzzy_ratio normalize_date erp_df ven_df
      = Some res ->
      let net tag df :=
        py_round2 (Streamlit.group_total tag
                     (Fincomms.group_of (Streamlit.inv_clean_of tag) k
                        (rows (Streamlit.classify df tag)))) in
      let records := (Streamlit.r_tier1 res ++ Streamlit.r_tier2 res
                      ++ Streamlit.r_tier3 res)%list in
      (flt (fabs (net "erp" erp_df)) (lit 1 2) = true ->
       (forall g i c,
           Streamlit.consolidate (Streamlit.classify erp_df "erp") "erp"
           = Streamlit.Grouped g ->
           In (i, c) g -> Streamlit.c_inv_clean c <> k) /\
       ~ In k (map erp_code records) /\
       ~ In k (miss_codes (Streamlit.final_erp_miss res))) /\
      (flt (fabs (net "ven" ven_df)) (lit 1 2) = true ->
       (forall g i c,
           Streamlit.consolidate (Streamlit.classify ven_df "ven") "ven"
           = Streamlit.Grouped g ->
           In (i, c) g -> Streamlit.c_inv_clean c <> k) /\
       ~ In k (map ven_code records) /\
       ~ In k (miss_codes (Streamlit.final_ven_miss res)))).
Proof.
  split; [exact fincomms_cancelled_group|].
  intros float_str fuzzy_ratio normalize_date erp_df ven_df res k R.
  cbv zeta.
  destruct (Streamlit.use_rows float_str
              (Streamlit.consolidate (Streamlit.classify erp_df "erp") "erp"))
    as [erp_use|] eqn:He.
  2:{ unfold Streamlit.reconcile, Streamlit.match_invoices in R.
      cbv zeta in R. rewrite He in R. discriminate. }
  destruct (Streamlit.use_rows float_str
              (Streamlit.consolidate (Streamlit.classify ven_df "ven") "ven"))
    as [ven_use|] eqn:Hv.
  2:{ unfold Streamlit.reconcile, Streamlit.match_invoices in R.
      cbv zeta in R. rewrite He, Hv in R. discriminate. }
  destruct (streamlit_run_split float_str fuzzy_ratio normalize_date
              erp_df ven_df erp_use ven_use He Hv) as (res' & R' & PE & PV).
  rewrite R in R'. injection R' as <-.
  assert (Side : forall tag df use,
             Streamlit.use_rows float_str
               (Streamlit.consolidate (Streamlit.classify df tag) tag)
             = Some use ->
             flt (fabs (py_round2 (Streamlit.group_total tag
                          (Fincomms.group_of (Streamlit.inv_clean_of tag) k
                             (rows (Streamlit.classify df tag))))))
                 (lit 1 2) = true ->
             (forall g i c,
                 Streamlit.consolidate (Streamlit.classify df tag) tag
                 = Streamlit.Grouped g ->
                 In (i, c) g -> Streamlit.c_inv_clean c <> k) /\
             ~ In k (use_codes tag use)).
  { intros tag df use Hu Hn. split.
    - intros g i c C. apply (streamlit_cancelled_group _ _ _ _ C Hn).
    - intros Hk.
      destruct (streamlit_use_codes_grouped _ _ _ _ _ Hu Hk)
        as (g & i & c & C & Hin & E).
      apply (streamlit_cancelled_group _ _ _ _ C Hn i c Hin E). }
  split; intros Hn.
  - destruct (Side "erp" erp_df erp_use He Hn) as [Hg Hk].
    split; [exact Hg|]. split; intros Hin; apply Hk;
      apply (Permutation_in k (Permutation_sym PE)); apply in_or_app;
      [left|right]; exact Hin.
  - destruct (Side "ven" ven_df ven_use Hv Hn) as [Hg Hk].
    split; [exact Hg|]. split; intros Hin; apply Hk;
      apply (Permutation_in k (Permutation_sym PV)); apply in_or_app;
      [left|right]; exact Hin.
Qed.

Lemma cancelled_group_in_no_output_witness :
  let total := fun l => fold_left fadd l zero in
  let erp :=
    mkFrame ["invoice_erp"; "debit_erp"; "credit_erp"]
      [(0, [("invoice_erp", Text "INV-42"); ("debit_erp", Text "0");
            ("credit_erp", Text "200,00")]);
       (1, [("invoice_erp", Text "CN-42"); ("debit_erp", Text "200,00");
            ("credit_erp", Text "0")]);
       (2, [("invoice_erp", Text "INV-7"); ("debit_erp", Text "0");
            ("credit_erp", Text "50")])] in
  let ven :=
    mkFrame ["invoice_ven"; "debit_ven"; "credit_ven"]
      [(0, [("invoice_ven", Text "7"); ("debit_ven", Text "50");
            ("credit_ven", Text "0")])] in
  (exists matched miss_erp miss_ven erp_payments ven_payments,
      Fincomms.match_invoices total np_round2 erp ven
      = Some (matched, miss_erp, miss_ven, erp_payments, ven_payments) /\
      List.length matched = 1 /\
      (forall m, In m matched ->
                 Fincomms_clean.clean_invoice_number (Text (erp_invoice m))
                 <> "42") /\
      (forall i r, In (i, r) (rows miss_erp) ->
                   Fincomms_clean.clean_invoice_number (Invoice r) <> "42")) /\
  (exists res,
      Streamlit.reconcile (fun _ => "50.0") Difflib.ratio (fun _ => "")
                          erp ven = Some res /\
      List.length (Streamlit.r_tier2 res) = 1 /\
      ~ In "42" (map erp_code (Streamlit.r_tier1 res ++ Streamlit.r_tier2 res
                               ++ Streamlit.r_tier3 res)%list) /\
      ~ In "42" (miss_codes (Streamlit.final_erp_miss res))).
Proof.
  intros total erp ven.
  destruct cancelled_group_in_no_output as [A B]. split.
  - destruct (Fincomms.match_invoices total np_round2 erp ven)
      as [[[[[matched miss_erp] miss_ven] erp_payments] ven_payments]|] eqn:E;
      [|vm_compute in E; discriminate].
    exists matched, miss_erp, miss_ven, erp_payments, ven_payments.
    split; [reflexivity|]. split.
    { vm_compute in E. inversion E. reflexivity. }
    destruct (A total np_round2 erp ven matched miss_erp miss_ven
                erp_payments ven_payments "42" E) as [He _];
      [reflexivity|].
    destruct He as (_ & Hm & Hr & _); [vm_compute; reflexivity|].
    split; assumption.
  - destruct (Streamlit.reconcile (fun _ => "50.0") Difflib.ratio
                                  (fun _ => "") erp ven)
      as [res|] eqn:E; [|vm_compute in E; discriminate].
    exists res. split; [reflexivity|]. split.
    { vm_compute in E. inversion E. reflexivity. }
    destruct (B (fun _ => "50.0") Difflib.ratio (fun _ => "") erp ven res
                "42" E) as [He _].
    destruct He as (_ & Hm & Hr); [vm_compute; reflexivity|].
    split; assumption.
Defined.

(** ** C1: every consolidated entry is consumed once or left missing *)

(** In recon_raptor_fincomms.py the rows are consumed by index label: when
    two ERP lines carry the same label (here 0 for INV-42 and for INV-77),
    the record for INV-42 consumes the label and INV-77 is in no record and
    in no missing table. *)
Lemma fincomms_repeated_label_drops_entry :
  let total := fun l => fold_left fadd l zero in
  let erp_df :=
    mkFrame ["invoice_erp"; "debit_erp"; "credit_erp"]
      [(0, [("invoice_erp", Text "INV-42"); ("debit_erp", Text "0");
            ("credit_erp", Text "100")]);
       (0, [("invoice_erp", Text "INV-77"); ("debit_erp", Text "0");
            ("credit_erp", Text "20")])] in
  let ven_df :=
    mkFrame ["invoice_ven"; "debit_ven"; "credit_ven"]
      [(0, [("invoice_ven", Text "42"); ("debit_ven", Text "100");
            ("credit_ven", Text "0")])] in
  exists erp_c erp_p matched miss_erp miss_ven erp_payments ven_payments,
    Fincomms.consolidate_invoices total np_round2 erp_df "erp"
                                  Fincomms.calculate_amount_erp
    = Some (erp_c, erp_p) /\
    map (fun p => Fincomms.inv_norm (snd p)) (rows erp_c) = ["42"; "77"] /\
    Fincomms.match_invoices total np_round2 erp_df ven_df
    = Some (matched, miss_erp, miss_ven, erp_payments, ven_payments) /\
    map fincomms_erp_code matched = ["42"] /\
    fincomms_miss_codes miss_erp = [] /\
    fincomms_miss_codes miss_ven = [].
Proof.
  intros total erp_df ven_df.
  destruct (Fincomms.consolidate_invoices total np_round2 erp_df "erp"
              Fincomms.calculate_amount_erp) as [[erp_c erp_p]|] eqn:C;
    [|vm_compute in C; discriminate].
  destruct (Fincomms.match_invoices total np_round2 erp_df ven_df)
    as [[[[[matched miss_erp] miss_ven] erp_payments] ven_payments]|] eqn:E;
    [|vm_compute in E; discriminate].
  exists erp_c, erp_p, matched, miss_erp, miss_ven, erp_payments,
         ven_payments.
  split; [reflexivity|].
  split; [vm_compute in C; injection C as <- _; vm_compute; reflexivity|].
  split; [reflexivity|].
  vm_compute in E. injection E as <- <- <- _ _.
  repeat split; vm_compute; reflexivity.
Qed.

(** C1, as amended. A consolidated entry of a side is identified by its
    normalised code; consolidation emits one row per code, so the entries
    of a side carry pairwise distinct codes.

    In the Streamlit module, on tables with distinct column labels,
    whenever both sides have rows to run on, the run of the page (Tier 1,
    the de-duplication filters, Tier 2, Tier 3, the final filters) returns
    a result, and on each side the codes of the consolidated entries are,
    up to order, the codes taken by the records of the three tiers followed
    by the codes of the final missing table: every entry is in exactly one
    record or in the final missing table of its side, never in two records,
    never in both, never in neither.

    recon_raptor_fincomms.py has no caller that chains its tiers. On tables
    with distinct index labels each of its three functions does the same to
    what it is given: [match_invoices] splits the consolidated entries of a
    side into its Tier-1 records and its missing table, [tier2_match] and
    [tier3_match] split a missing table into their records and what they
    leave, and the tables handed on keep distinct labels. *)
Theorem tiers_consume_once :
  (forall (float_str : float -> string)
          (fuzzy_ratio : string -> string -> float)
          (normalize_date : cell -> string) (erp_df ven_df : frame row)
          (erp_use ven_use : list (nat * Streamlit.use_row)),
      distinct_columns erp_df = true -> distinct_columns ven_df = true ->
      Streamlit.use_rows float_str
        (Streamlit.consolidate (Streamlit.classify erp_df "erp") "erp")
      = Some erp_use ->
      Streamlit.use_rows float_str
        (Streamlit.consolidate (Streamlit.classify ven_df "ven") "ven")
      = Some ven_use ->
      exists res,
        Streamlit.reconcile float_str fuzzy_ratio normalize_date erp_df ven_df
        = Some res /\
        NoDup (use_codes "erp" erp_use) /\ NoDup (use_codes "ven" ven_use) /\
        Permutation (use_codes "erp" erp_use)
          (map erp_code (Streamlit.r_tier1 res ++ Streamlit.r_tier2 res
                         ++ Streamlit.r_tier3 res)%list
           ++ miss_codes (Streamlit.final_erp_miss res)) /\
        Permutation (use_codes "ven" ven_use)
          (map ven_code (Streamlit.r_tier1 res ++ Streamlit.r_tier2 res
                         ++ Streamlit.r_tier3 res)%list
           ++ miss_codes (Streamlit.final_ven_miss res))) /\
  (forall (series_sum : list float -> float) (round2 : float -> float)
          (erp_df ven_df : frame row) (matched : list match_record)
          (miss_erp miss_ven : frame miss_row)
          (erp_payments ven_payments : frame Fincomms.work_row),
      NoDup (labels (rows erp_df)) -> NoDup (labels (rows ven_df)) ->
      Fincomms.match_invoices series_sum round2 erp_df ven_df
      = Some (matched, miss_erp, miss_ven, erp_payments, ven_payments) ->
      exists erp_c erp_p ven_c ven_p,
        Fincomms.consolidate_invoices series_sum round2 erp_df "erp"
                                      Fincomms.calculate_amount_erp
        = Some (erp_c, erp_p) /\
        Fincomms.consolidate_invoices series_sum round2 ven_df "ven"
                                      Fincomms.calculate_amount_vendor
        = Some (ven_c, ven_p) /\
        NoDup (map (fun p => Fincomms.inv_norm (snd p)) (rows erp_c)) /\
        NoDup (map (fun p => Fincomms.inv_norm (snd p)) (rows ven_c)) /\
        Permutation (map (fun p => Fincomms.inv_norm (snd p)) (rows erp_c))
          (map fincomms_erp_code matched ++ fincomms_miss_codes miss_erp) /\
        Permutation (map (fun p => Fincomms.inv_norm (snd p)) (rows ven_c))
          (map fincomms_ven_code matched ++ fincomms_miss_codes miss_ven) /\
        NoDup (labels (rows miss_erp)) /\ NoDup (labels (rows miss_ven))) /\
  (forall (fuzzy_ratio : string -> string -> float) (e v : frame miss_row),
      NoDup (labels (rows e)) -> NoDup (labels (rows v)) ->
      let '(ms, re, rv) := Fincomms.tier2_match fuzzy_ratio e v in
      Permutation (fincomms_miss_codes e)
        (map fincomms_erp_code ms ++ fincomms_miss_codes re) /\
      Permutation (fincomms_miss_codes v)
        (map fincomms_ven_code ms ++ fincomms_miss_codes rv) /\
      NoDup (labels (rows re)) /\ NoDup (labels (rows rv))) /\
  (forall (fuzzy_ratio : string -> string -> float) (e v : frame miss_row),
      NoDup (labels (rows e)) -> NoDup (labels (rows v)) ->
      let '(ms, re, rv) := Fincomms.tier3_match fuzzy_ratio e v in
      Permutation (fincomms_miss_codes e)
        (map fincomms_erp_code ms ++ fincomms_miss_codes re) /\
      Permutation (fincomms_miss_codes v)
        (map fincomms_ven_code ms ++ fincomms_miss_codes rv) /\
      NoDup (labels (rows re)) /\ NoDup (labels (rows rv))).
Proof.
  split; [|split; [|split]].
  - intros float_str fuzzy_ratio normalize_date erp_df ven_df erp_use
           ven_use _ _ He Hv.
    destruct (streamlit_use_rows_codes _ _ _ _ He) as [NE _].
    destruct (streamlit_use_rows_codes _ _ _ _ Hv) as [NV _].
    destruct (streamlit_run_split float_str fuzzy_ratio normalize_date
                erp_df ven_df erp_use ven_use He Hv) as (res & R & PE & PV).
    exists res. repeat split; assumption.
  - intros series_sum round2 erp_df ven_df matched miss_erp miss_ven
           erp_payments ven_payments Ne Nv Hm.
    destruct (Fincomms.consolidate_invoices series_sum round2 erp_df "erp"
                Fincomms.calculate_amount_erp) as [[erp_c erp_p]|] eqn:Ce.
    2:{ unfold Fincomms.match_invoices in Hm. rewrite Ce in Hm.
        discriminate. }
    destruct (Fincomms.consolidate_invoices series_sum round2 ven_df "ven"
                Fincomms.calculate_amount_vendor) as [[ven_c ven_p]|] eqn:Cv.
    2:{ unfold Fincomms.match_invoices in Hm. rewrite Ce, Cv in Hm.
        discriminate. }
    exists erp_c, erp_p, ven_c, ven_p.
    split; [reflexivity|]. split; [reflexivity|].
    apply (fincomms_match_invoices_conserves series_sum round2 erp_df ven_df
             erp_c ven_c erp_p ven_p matched miss_erp miss_ven erp_payments
             ven_payments Ne Nv Ce Cv Hm).
  - apply fincomms_tier2_conserves.
  - apply fincomms_tier3_conserves.
Qed.

Lemma tiers_consume_once_witness :
  let float_str := fun x : float =>
    if feq x (lit 695 1) then "69.5" else if feq x (of_Z 20) then "20.0"
    else if feq x (of_Z 5) then "5.0" else "7.0" in
  let e0 := [("invoice_erp", Text "INV-0042"); ("debit_erp", Text "100,00");
             ("credit_erp", Text "0")] in
  let e1 := [("invoice_erp", Text "CN 42"); ("debit_erp", Text "0");
             ("credit_erp", Text "30.50")] in
  let e2 := [("invoice_erp", Text "INV 77"); ("debit_erp", Text "20");
             ("credit_erp", Text "0")] in
  let e3 := [("invoice_erp", Text "INV 90"); ("debit_erp", Text "5");
             ("credit_erp", Text "0")] in
  let v0 := [("invoice_ven", Text "A-770"); ("debit_ven", Text "20");
             ("credit_ven", Text "0")] in
  let v1 := [("invoice_ven", Text "X 91"); ("debit_ven", Text "7");
             ("credit_ven", Text "0")] in
  let v2 := [("invoice_ven", Text "INV-0042"); ("debit_ven", Text "69.5");
             ("credit_ven", Text "0")] in
  let erp_df := mkFrame ["invoice_erp"; "debit_erp"; "credit_erp"]
                        [(0, e0); (1, e1); (2, e2); (3, e3)] in
  let ven_df := mkFrame ["invoice_ven"; "debit_ven"; "credit_ven"]
                        [(0, v0); (1, v1); (2, v2)] in
  let erp_use := [(0, Streamlit.mkUse e0 (lit 695 1));
                  (2, Streamlit.mkUse e2 (of_Z 20));
                  (3, Streamlit.mkUse e3 (of_Z 5))] in
  let ven_use := [(2, Streamlit.mkUse v2 (lit 695 1));
                  (0, Streamlit.mkUse v0 (of_Z 20));
                  (1, Streamlit.mkUse v1 (of_Z 7))] in
  let total := fun l => fold_left fadd l zero in
  (distinct_columns erp_df = true /\ distinct_columns ven_df = true /\
   Streamlit.use_rows float_str
     (Streamlit.consolidate (Streamlit.classify erp_df "erp") "erp")
   = Some erp_use /\
   Streamlit.use_rows float_str
     (Streamlit.consolidate (Streamlit.classify ven_df "ven") "ven")
   = Some ven_use /\
   exists res,
     Streamlit.reconcile float_str Difflib.ratio (fun _ => "") erp_df ven_df
     = Some res /\
     NoDup (use_codes "erp" erp_use) /\ NoDup (use_codes "ven" ven_use) /\
     Permutation (use_codes "erp" erp_use)
       (map erp_code (Streamlit.r_tier1 res ++ Streamlit.r_tier2 res
                      ++ Streamlit.r_tier3 res)%list
        ++ miss_codes (Streamlit.final_erp_miss res)) /\
     Permutation (use_codes "ven" ven_use)
       (map ven_code (Streamlit.r_tier1 res ++ Streamlit.r_tier2 res
                      ++ Streamlit.r_tier3 res)%list
        ++ miss_codes (Streamlit.final_ven_miss res))) /\
  (NoDup (labels (rows erp_df)) /\ NoDup (labels (rows ven_df)) /\
   exists matched miss_erp miss_ven erp_payments ven_payments erp_c ven_c,
     Fincomms.match_invoices total np_round2 erp_df ven_df
     = Some (matched, miss_erp, miss_ven, erp_payments, ven_payments) /\
     List.length matched = 1 /\
     Permutation (map (fun p => Fincomms.inv_norm (snd p)) (rows erp_c))
       (map fincomms_erp_code matched ++ fincomms_miss_codes miss_erp) /\
     Permutation (map (fun p => Fincomms.inv_norm (snd p)) (rows ven_c))
       (map fincomms_ven_code matched ++ fincomms_miss_codes miss_ven)).
Proof.
  intros float_str e0 e1 e2 e3 v0 v1 v2 erp_df ven_df erp_use ven_use total.
  destruct tiers_consume_once as (Run & Tier1 & _ & _). split.
  - assert (He : Streamlit.use_rows float_str
                   (Streamlit.consolidate (Streamlit.classify erp_df "erp")
                                          "erp") = Some erp_use)
      by (vm_compute; reflexivity).
    assert (Hv : Streamlit.use_rows float_str
                   (Streamlit.consolidate (Streamlit.classify ven_df "ven")
                                          "ven") = Some ven_use)
      by (vm_compute; reflexivity).
    split; [reflexivity|]. split; [reflexivity|].
    split; [exact He|]. split; [exact Hv|].
    exact (Run float_str Difflib.ratio (fun _ => "") erp_df ven_df erp_use
               ven_use eq_refl eq_refl He Hv).
  - assert (Ne : NoDup (labels (rows erp_df)))
      by (cbn; repeat constructor; cbn; intuition lia).
    assert (Nv : NoDup (labels (rows ven_df)))
      by (cbn; repeat constructor; cbn; intuition lia).
    split; [exact Ne|]. split; [exact Nv|].
    destruct (Fincomms.match_invoices total np_round2 erp_df ven_df)
      as [[[[[matched miss_erp] miss_ven] erp_payments] ven_payments]|] eqn:E;
      [|vm_compute in E; discriminate].
    destruct (Tier1 total np_round2 erp_df ven_df matched miss_erp miss_ven
                    erp_payments ven_payments Ne Nv E)
      as (erp_c & erp_p & ven_c & ven_p & _ & _ & _ & _ & PE & PV & _).
    exists matched, miss_erp, miss_ven, erp_payments, ven_payments,
           erp_c, ven_c.
    split; [reflexivity|]. split; [|split; assumption].
    vm_compute in E. injection E as <- _ _ _ _. reflexivity.
Defined.

(* ===================================================================== *)
(** * Further properties of the two modules *)
(* ===================================================================== *)

(** ** [normalize_number]: what [float()] is handed and what it refuses *)

Lemma cut_at_dot_spec (body : string) :
  let '(ip, fp) := cut_at_dot body in
  body = ip ++ match fp with Some f => "." ++ f | None => "" end.
Proof.
  induction body as [|c r IH]; [reflexivity|]. cbn [cut_at_dot].
  destruct (Ascii.eqb_spec c ".") as [->|Hc]; [reflexivity|].
  destruct (cut_at_dot r) as [a b]. cbn [append]. f_equal. exact IH.
Qed.

Lemma all_chars_app (p : ascii -> bool) (a b : string) :
  all_chars p (a ++ b) = all_chars p a && all_chars p b.
Proof.
  induction a as [|c r IH]; [reflexivity|]. cbn. rewrite IH.
  apply andb_assoc.
Qed.

(** What [float()] accepts here: an optional [-], then digits and at most
    one period. *)
Lemma py_float_body (s : string) (x : float) :
  py_float s = Some x ->
  exists body, (s = body \/ s = String "-" body) /\
               all_chars is_digit_or_dot body = true.
Proof.
  unfold py_float.
  set (nb := match s with String "-" r => (true, r) | _ => (false, s) end).
  assert (Hs : s = snd nb \/ s = String "-" (snd nb)).
  { unfold nb. destruct s as [|c r]; [left; reflexivity|].
    destruct (Ascii.eqb_spec c "-") as [->|Hc]; [right; reflexivity|].
    left. each_char c; try reflexivity. congruence. }
  destruct nb as [neg body]. cbn [snd] in Hs.
  pose proof (cut_at_dot_spec body) as Hb.
  destruct (cut_at_dot body) as [ip fp].
  destruct (all_chars is_digit ip
            && all_chars is_digit (match fp with Some f => f | None => "" end)
            && negb (is_empty (ip ++ match fp with Some f => f | None => "" end)))
    eqn:E; [|discriminate].
  intros _. exists body. split; [exact Hs|].
  apply andb_prop in E as [E _]. apply andb_prop in E as [E1 E2].
  assert (Hd : forall t, all_chars is_digit t = true ->
                         all_chars is_digit_or_dot t = true).
  { intros t. apply all_chars_impl. intros c Hc. unfold is_digit_or_dot.
    rewrite Hc. reflexivity. }
  rewrite Hb, all_chars_app, (Hd _ E1). destruct fp as [f|]; [|reflexivity].
  cbn. apply Hd. exact E2.
Qed.

Lemma of_decimal_not_nan (neg : bool) (n : Z) (scale : nat) :
  not_nan (of_decimal neg n scale) = true.
Proof.
  unfold of_decimal. destruct n as [|m|m]; try reflexivity.
  unfold fdiv, SFdiv.
  set (my := Z.to_pos (10 ^ Z.of_nat scale)).
  unfold SFdiv_core_binary.
  set (m' := match _ with Zpos _ => _ | Z0 => _ | Zneg _ => _ end).
  assert (Hm : (0 <= m')%Z).
  { unfold m'. destruct (_ - _ - _)%Z; try lia.
    apply Z.shiftl_nonneg. lia. }
  pose proof (Z_div_mod m' (Zpos my) eq_refl) as Hq.
  destruct (Z.div_eucl m' (Zpos my)) as [q r]. destruct Hq as [Hq Hr].
  apply binary_round_aux_not_nan. nia.
Qed.

(** X1. [normalize_number] never returns NaN: whatever the cell holds, the
    result is a number or an infinity. *)
Theorem normalize_number_never_nan (v : cell) :
  not_nan (normalize_number v) = true.
Proof.
  unfold normalize_number.
  destruct (isna v || is_empty (strip (str_of v))); [reflexivity|].
  unfold py_float.
  destruct (match number_text v with
            | String "-" r => (true, r)
            | _ => (false, number_text v)
            end) as [neg body].
  destruct (cut_at_dot body) as [ip fp].
  destruct (_ && _ && _); [|reflexivity].
  apply of_decimal_not_nan.
Qed.

(** *** Commas and minus signs that [float()] refuses *)

Lemma count_replace_other (c old : ascii) (new s : string) :
  Ascii.eqb c old = false -> count c new = 0 ->
  count c (replace old new s) = count c s.
Proof.
  intros Hc Hn. induction s as [|d r IH]; [reflexivity|]. cbn.
  destruct (Ascii.eqb_spec d old) as [->|Hd].
  - rewrite count_app, Hn, IH.
    rewrite Ascii.eqb_sym, Hc. reflexivity.
  - cbn. rewrite IH. reflexivity.
Qed.

Lemma count_replace_n_other (c old : ascii) (new : string) (n : nat)
      (s : string) :
  Ascii.eqb c old = false -> count c new = 0 ->
  count c (replace_n old new n s) = count c s.
Proof.
  intros Hc Hn. revert n. induction s as [|d r IH]; intros [|n];
    try reflexivity. cbn.
  destruct (Ascii.eqb_spec d old) as [->|Hd].
  - rewrite count_app, Hn, IH.
    rewrite Ascii.eqb_sym, Hc. reflexivity.
  - cbn. rewrite IH. reflexivity.
Qed.

Lemma minus_after_digit_replace (old : ascii) (new : string) (seen : bool)
      (s : string) :
  is_digit old = false -> Ascii.eqb old "-" = false ->
  new = "" \/ new = "." ->
  minus_after_digit seen (replace old new s) = minus_after_digit seen s.
Proof.
  intros Hd Hm Hn. revert seen. induction s as [|c r IH]; intros seen;
    [reflexivity|]. cbn [replace].
  destruct (Ascii.eqb_spec c old) as [->|Hc].
  - cbn [minus_after_digit]. rewrite Hd, Hm, andb_false_r, orb_false_r.
    cbn [orb]. destruct Hn as [->| ->]; cbn; rewrite ?andb_false_r;
      rewrite ?orb_false_r; apply IH.
  - cbn [minus_after_digit]. rewrite IH. reflexivity.
Qed.

Lemma minus_after_digit_replace_n (old : ascii) (n : nat) (seen : bool)
      (s : string) :
  is_digit old = false -> Ascii.eqb old "-" = false ->
  minus_after_digit seen (replace_n old "" n s) = minus_after_digit seen s.
Proof.
  intros Hd Hm. revert n seen. induction s as [|c r IH]; intros [|n] seen;
    try reflexivity. cbn [replace_n].
  destruct (Ascii.eqb_spec c old) as [->|Hc].
  - cbn [minus_after_digit append]. rewrite Hd, Hm, andb_false_r, orb_false_r.
    cbn [orb]. apply IH.
  - cbn [minus_after_digit]. rewrite IH. reflexivity.
Qed.

Lemma disambiguate_minus_after_digit (s : string) :
  minus_after_digit false (disambiguate s) = minus_after_digit false s.
Proof.
  unfold disambiguate.
  repeat match goal with |- context [if ?b then _ else _] => destruct b end;
    rewrite ?minus_after_digit_replace, ?minus_after_digit_replace_n;
    auto.
Qed.

Lemma disambiguate_commas (s : string) :
  2 <= count "," s -> count "," (disambiguate s) = count "," s.
Proof.
  intros H. unfold disambiguate.
  destruct (Nat.eqb_spec (count "," s) 1) as [E|_]; [lia|]. cbn [andb].
  destruct (1 <? count "." s); [|reflexivity].
  apply count_replace_n_other; reflexivity.
Qed.

Lemma all_chars_minus_after_digit (seen : bool) (s : string) :
  all_chars is_digit_or_dot s = true -> minus_after_digit seen s = false.
Proof.
  revert seen. induction s as [|c r IH]; intros seen H; [reflexivity|].
  cbn in H. apply andb_prop in H as [Hc Hr]. cbn.
  rewrite (IH _ Hr), orb_false_r.
  destruct (Ascii.eqb_spec c "-") as [->|_]; [discriminate|].
  apply andb_false_r.
Qed.

Lemma all_chars_no_comma (s : string) :
  all_chars is_digit_or_dot s = true -> count "," s = 0.
Proof.
  induction s as [|c r IH]; intros H; [reflexivity|].
  cbn in H. apply andb_prop in H as [Hc Hr]. cbn. rewrite (IH Hr).
  destruct (Ascii.eqb_spec c ",") as [->|_]; [discriminate|reflexivity].
Qed.

Lemma py_float_refuses (s : string) :
  1 <= count "," s \/ minus_after_digit false s = true ->
  py_float s = None.
Proof.
  intros H. destruct (py_float s) as [x|] eqn:E; [|reflexivity].
  exfalso. apply py_float_body in E as (body & Hs & Hb).
  pose proof (all_chars_no_comma _ Hb) as Hc.
  pose proof (all_chars_minus_after_digit false _ Hb) as Hm.
  destruct Hs as [->| ->]; destruct H as [H|H].
  - lia.
  - congruence.
  - cbn in H. lia.
  - change (minus_after_digit false (String "-" body))
      with (minus_after_digit false body) in H. congruence.
Qed.

Lemma minus_after_digit_app (a b : string) (d : ascii) :
  is_digit d = true -> 1 <= count "-" b ->
  forall seen, minus_after_digit seen (a ++ String d b) = true.
Proof.
  intros Hd Hb.
  assert (Tail : forall t, 1 <= count "-" t ->
                           minus_after_digit true t = true).
  { induction t as [|c r IH]; cbn; intros H; [lia|].
    destruct (Ascii.eqb_spec c "-") as [->|_]; [reflexivity|].
    cbn in H. rewrite IH by lia. reflexivity. }
  induction a as [|c r IH]; intros seen; cbn.
  - rewrite Hd, orb_true_r, (Tail _ Hb). apply orb_true_r.
  - rewrite IH. apply orb_true_r.
Qed.

(** X2. After the filter that keeps digits, commas, periods and minus
    signs, text with two or more commas ("1,234,567.89") and text with a
    minus sign anywhere after a digit ("100-", "12-5") is not a number for
    [float()]: [normalize_number] returns 0.0 for it. *)
Theorem normalize_number_refused_text (v : cell) :
  let t := keep is_numeric_char (strip (str_of v)) in
  (2 <= count "," t ->
   normalize_number v = zero) /\
  (forall a d b, t = a ++ String d b -> is_digit d = true ->
                 1 <= count "-" b ->
                 normalize_number v = zero).
Proof.
  cbv zeta. split.
  - intros H. apply normalize_number_unparsable. apply py_float_refuses.
    left. unfold number_text. rewrite disambiguate_commas by exact H. lia.
  - intros a d b Ht Hd Hb. apply normalize_number_unparsable.
    apply py_float_refuses. right. unfold number_text.
    rewrite disambiguate_minus_after_digit, Ht.
    apply minus_after_digit_app; assumption.
Qed.

Lemma normalize_number_refused_text_witness :
  normalize_number (Text "EUR 1,234,567.89") = zero /\
  normalize_number (Text "100,50-") = zero.
Proof.
  split.
  - apply (proj1 (normalize_number_refused_text (Text "EUR 1,234,567.89"))).
    vm_compute. lia.
  - apply (proj2 (normalize_number_refused_text (Text "100,50-"))
                 "100,5" "0"%char "-"); [reflexivity|reflexivity|vm_compute; lia].
Defined.


(** ** Invoice-code normalisation: letter case and shape *)

Lemma map_str_map_str (f g : ascii -> ascii) (s : string) :
  map_str f (map_str g s) = map_str (fun c => f (g c)) s.
Proof. induction s as [|c r IH]; cbn; [|rewrite IH]; reflexivity. Qed.

Lemma map_str_ext (f g : ascii -> ascii) (s : string) :
  (forall c, f c = g c) -> map_str f s = map_str g s.
Proof.
  intros H. induction s as [|c r IH]; cbn; [|rewrite H, IH]; reflexivity.
Qed.

Lemma is_empty_map_str (f : ascii -> ascii) (s : string) :
  is_empty (map_str f s) = is_empty s.
Proof. destruct s; reflexivity. Qed.

Lemma lstrip_by_map_str (p : ascii -> bool) (f : ascii -> ascii)
      (s : string) :
  (forall c, p (f c) = p c) ->
  lstrip_by p (map_str f s) = map_str f (lstrip_by p s).
Proof.
  intros H. induction s as [|c r IH]; [reflexivity|]. cbn.
  rewrite H. destruct (p c); [exact IH|reflexivity].
Qed.

Lemma rstrip_by_map_str (p : ascii -> bool) (f : ascii -> ascii)
      (s : string) :
  (forall c, p (f c) = p c) ->
  rstrip_by p (map_str f s) = map_str f (rstrip_by p s).
Proof.
  intros H. induction s as [|c r IH]; [reflexivity|]. cbn.
  rewrite IH, is_empty_map_str, H.
  destruct (is_empty (rstrip_by p r) && p c); reflexivity.
Qed.

Lemma strip_map_str (f : ascii -> ascii) (s : string) :
  (forall c, is_space (f c) = is_space c) ->
  strip (map_str f s) = map_str f (strip s).
Proof.
  intros H. unfold strip.
  rewrite lstrip_by_map_str, rstrip_by_map_str by exact H. reflexivity.
Qed.

Lemma space_upper_char (c : ascii) : is_space (upper_char c) = is_space c.
Proof. each_char c; reflexivity. Qed.

Lemma space_lower_char (c : ascii) : is_space (lower_char c) = is_space c.
Proof. each_char c; reflexivity. Qed.

Lemma upper_upper_char (c : ascii) : upper_char (upper_char c) = upper_char c.
Proof. each_char c; reflexivity. Qed.

Lemma upper_lower_char (c : ascii) : upper_char (lower_char c) = upper_char c.
Proof. each_char c; reflexivity. Qed.

Lemma lower_lower_char (c : ascii) : lower_char (lower_char c) = lower_char c.
Proof. each_char c; reflexivity. Qed.

Lemma lower_upper_char (c : ascii) : lower_char (upper_char c) = lower_char c.
Proof. each_char c; reflexivity. Qed.

(** X3. On ASCII text both normalisations ignore letter case: a code
    written in upper case, in lower case or in mixed case gets the same
    key. *)
Theorem clean_ignores_letter_case (s : string) :
  all_chars is_ascii s = true ->
  Fincomms_clean.clean_invoice_number (Text (upper s))
  = Fincomms_clean.clean_invoice_number (Text s) /\
  Fincomms_clean.clean_invoice_number (Text (lower s))
  = Fincomms_clean.clean_invoice_number (Text s) /\
  Streamlit_clean.clean_invoice_code (Text (upper s))
  = Streamlit_clean.clean_invoice_code (Text s) /\
  Streamlit_clean.clean_invoice_code (Text (lower s))
  = Streamlit_clean.clean_invoice_code (Text s).
Proof.
  intros _.
  assert (UU : upper (strip (upper s)) = upper (strip s)).
  { unfold upper. rewrite (strip_map_str _ _ space_upper_char).
    rewrite map_str_map_str. apply map_str_ext, upper_upper_char. }
  assert (UL : upper (strip (lower s)) = upper (strip s)).
  { unfold upper, lower. rewrite (strip_map_str _ _ space_lower_char).
    rewrite map_str_map_str. apply map_str_ext, upper_lower_char. }
  assert (LU : lower (strip (upper s)) = lower (strip s)).
  { unfold upper, lower. rewrite (strip_map_str _ _ space_upper_char).
    rewrite map_str_map_str. apply map_str_ext, lower_upper_char. }
  assert (LL : lower (strip (lower s)) = lower (strip s)).
  { unfold lower. rewrite (strip_map_str _ _ space_lower_char).
    rewrite map_str_map_str. apply map_str_ext, lower_lower_char. }
  unfold Fincomms_clean.clean_invoice_number,
    Streamlit_clean.clean_invoice_code.
  cbn [falsy isna str_of orb].
  rewrite (is_empty_map_str upper_char s : is_empty (upper s) = is_empty s).
  rewrite (is_empty_map_str lower_char s : is_empty (lower s) = is_empty s).
  rewrite UU, UL, LU, LL. repeat split; reflexivity.
Qed.

Lemma clean_ignores_letter_case_witness :
  all_chars is_ascii "Inv-0042/b" = true /\
  Fincomms_clean.clean_invoice_number (Text (upper "Inv-0042/b"))
  = Fincomms_clean.clean_invoice_number (Text "Inv-0042/b") /\
  Streamlit_clean.clean_invoice_code (Text (lower "Inv-0042/b"))
  = Streamlit_clean.clean_invoice_code (Text "Inv-0042/b").
Proof.
  assert (A : all_chars is_ascii "Inv-0042/b" = true) by reflexivity.
  destruct (clean_ignores_letter_case "Inv-0042/b" A) as (H1 & _ & _ & H4).
  split; [exact A|]. split; assumption.
Defined.

(** The cleaned code is empty exactly for an empty or missing cell. *)
Lemma fincomms_clean_blank (v : cell) :
  is_empty (Fincomms_clean.clean_invoice_number v) = (falsy v || isna v).
Proof.
  unfold Fincomms_clean.clean_invoice_number.
  destruct (falsy v || isna v); [reflexivity|]. cbv zeta.
  unfold or_default.
  destruct (is_empty (lstrip_by _ _)) eqn:E; [reflexivity | exact E].
Qed.

(** X4. [clean_invoice_number] returns the empty string exactly for an
    empty or missing cell; for any other cell the result is a non-empty
    string of upper-case letters and digits that is either the sentinel
    "0" or does not start with a zero. *)
Theorem clean_invoice_number_shape (v : cell) :
  let c := Fincomms_clean.clean_invoice_number v in
  (falsy v || isna v = true -> c = "") /\
  (falsy v || isna v = false ->
   is_empty c = false /\
   all_chars Fincomms_clean.is_upper_alnum c = true /\
   (c = "0" \/ starts_with Fincomms_clean.is_zero c = false)).
Proof.
  cbv zeta. split.
  - intros H. unfold Fincomms_clean.clean_invoice_number. rewrite H.
    reflexivity.
  - intros H.
    assert (Hne : is_empty (Fincomms_clean.clean_invoice_number v) = false)
      by (rewrite fincomms_clean_blank; exact H).
    destruct (fincomms_clean_shape v) as [E|[E|(H1 & H2 & H3)]].
    + rewrite E in Hne. discriminate.
    + rewrite E. repeat split; try reflexivity. left. reflexivity.
    + repeat split; try assumption. right. exact H3.
Qed.

Lemma clean_invoice_number_shape_witness :
  Fincomms_clean.clean_invoice_number NaN = "" /\
  is_empty (Fincomms_clean.clean_invoice_number (Text "Fact. 2023/0815-b"))
  = false /\
  all_chars Fincomms_clean.is_upper_alnum
    (Fincomms_clean.clean_invoice_number (Text "Fact. 2023/0815-b")) = true.
Proof.
  split.
  - apply (proj1 (clean_invoice_number_shape NaN)). reflexivity.
  - destruct (proj2 (clean_invoice_number_shape (Text "Fact. 2023/0815-b")))
      as (H1 & H2 & _); [reflexivity|]. split; assumption.
Defined.

(** ** [has_valid_invoice_number] against the mask of [consolidate_invoices] *)

Lemma fincomms_clean_strip (s : string) :
  is_empty (strip s) = false ->
  Fincomms_clean.clean_invoice_number (Text (strip s))
  = Fincomms_clean.clean_invoice_number (Text s).
Proof.
  intros H. unfold Fincomms_clean.clean_invoice_number.
  cbn [falsy isna str_of]. rewrite H, strip_idem.
  destruct (is_empty s) eqn:E; [|reflexivity].
  apply is_empty_true in E. subst s. discriminate.
Qed.

(** X5. A text that [has_valid_invoice_number] accepts is one that
    [consolidate_invoices] treats as an invoice (its cleaned code passes
    the mask [x and x != "0"]). The converse fails: a text of a single
    character is never accepted, although a single non-zero digit passes
    the mask. *)
Theorem has_valid_invoice_number_mask :
  (forall v, has_valid_invoice_number v = true ->
             Fincomms.has_invoice (Fincomms_clean.clean_invoice_number v)
             = Some true) /\
  (forall v, String.length (strip (str_of v)) < 2 ->
             has_valid_invoice_number v = false) /\
  (forall d, is_digit d = true -> Ascii.eqb d "0" = false ->
             has_valid_invoice_number (Text (String d "")) = false /\
             Fincomms.has_invoice
               (Fincomms_clean.clean_invoice_number (Text (String d "")))
             = Some true).
Proof.
  split; [|split].
  - intros v. unfold has_valid_invoice_number.
    destruct (falsy v || isna v) eqn:Hv; [discriminate|]. cbv zeta.
    destruct (String.length (strip (str_of v)) <? 2) eqn:Hl; [discriminate|].
    intros H. apply andb_prop in H as [_ H]. apply negb_true_iff in H.
    destruct v as [s|]; [|discriminate]. cbn [str_of] in *.
    assert (Hs : is_empty (strip s) = false).
    { apply Nat.ltb_ge in Hl. destruct (strip s); [cbn in Hl; lia|reflexivity]. }
    rewrite (fincomms_clean_strip s Hs) in H.
    pose proof (fincomms_clean_blank (Text s)) as Hne. rewrite Hv in Hne.
    unfold Fincomms.has_invoice. rewrite Hne, H. reflexivity.
  - intros v Hl. unfold has_valid_invoice_number.
    destruct (falsy v || isna v); [reflexivity|]. cbv zeta.
    apply Nat.ltb_lt in Hl. rewrite Hl. reflexivity.
  - intros d Hd Hz. each_char d; try discriminate; split; reflexivity.
Qed.

Lemma has_valid_invoice_number_mask_witness :
  Fincomms.has_invoice (Fincomms_clean.clean_invoice_number (Text " inv-0042 "))
  = Some true /\
  has_valid_invoice_number (Text " 7 ") = false /\
  has_valid_invoice_number (Text "7") = false.
Proof.
  destruct has_valid_invoice_number_mask as (H1 & H2 & H3).
  split; [|split].
  - apply H1. reflexivity.
  - apply H2. vm_compute. lia.
  - apply (H3 "7"%char); reflexivity.
Defined.

(** ** The rename map of [normalize_columns] *)

Lemma dict_get_set (k v k' : string) (d : dict) :
  dict_get k' (dict_set k v d) =
  if String.eqb k k' then Some v else dict_get k' d.
Proof.
  induction d as [|[a b] d IH]; cbn.
  - reflexivity.
  - destruct (String.eqb_spec a k) as [->|Hak]; cbn.
    + destruct (String.eqb_spec k k'); reflexivity.
    + destruct (String.eqb_spec a k') as [->|Hak'].
      * destruct (String.eqb_spec k k') as [->|]; [contradiction|reflexivity].
      * exact IH.
Qed.

Lemma dict_set_values (k v : string) (d : dict) (kv : string * string) :
  In kv (dict_set k v d) -> kv = (k, v) \/ In kv d.
Proof.
  induction d as [|[a b] d IH]; cbn.
  - intros [<-|[]]. now left.
  - destruct (String.eqb a k); cbn.
    + intros [<-|H]; [now left | right; now right].
    + intros [<-|H]; [right; now left |].
      destruct (IH H) as [->|H']; [now left | right; now right].
Qed.

Lemma dict_set_keys (k v : string) (d : dict) :
  NoDup (map fst d) -> NoDup (map fst (dict_set k v d)).
Proof.
  assert (K : forall x, In x (map fst (dict_set k v d)) ->
                        x = k \/ In x (map fst d)).
  { induction d as [|[a b] d IH]; cbn.
    - intros x [<-|[]]. now left.
    - destruct (String.eqb_spec a k) as [->|Hak]; cbn.
      + intros x [<-|H]; [now left | right; now right].
      + intros x [<-|H]; [right; now left |].
        destruct (IH x H) as [->|H']; [now left | right; now right]. }
  clear K.
  induction d as [|[a b] d IH]; cbn; intros N.
  - constructor; [intros [] | constructor].
  - inversion N as [|? ? Hn N']; subst.
    destruct (String.eqb_spec a k) as [->|Hak]; cbn.
    + constructor; assumption.
    + constructor; [|exact (IH N')].
      intros H. apply Hn. clear - H Hak.
      induction d as [|[a' b'] d IH]; cbn in *.
      * destruct H as [H|[]]. congruence.
      * destruct (String.eqb_spec a' k) as [->|Hk]; cbn in H.
        -- destruct H as [H|H]; [congruence | now right].
        -- destruct H as [H|H]; [now left | right; exact (IH H)].
Qed.

Lemma cols_lower_ind (cols : list string) (d : dict) (col : string) :
  dict_get col (fold_left (fun d c => dict_set c (lower (strip c)) d) cols d) =
  if existsb (String.eqb col) cols then Some (lower (strip col))
  else dict_get col d.
Proof.
  revert d. induction cols as [|c cols IH]; intros d; cbn.
  - reflexivity.
  - rewrite IH, dict_get_set.
    destruct (existsb (String.eqb col) cols); [now rewrite orb_true_r|].
    rewrite orb_false_r, (String.eqb_sym col c).
    destruct (String.eqb_spec c col) as [->|]; reflexivity.
Qed.

Lemma cols_lower_get (cols : list string) (col : string) :
  dict_get col (cols_lower cols) =
  if existsb (String.eqb col) cols then Some (lower (strip col)) else None.
Proof. unfold cols_lower. now rewrite cols_lower_ind. Qed.

Lemma cols_lower_keys (cols : list string) : NoDup (map fst (cols_lower cols)).
Proof.
  unfold cols_lower.
  assert (G : forall d, NoDup (map fst d) ->
    NoDup (map fst (fold_left
                      (fun d c => dict_set c (lower (strip c)) d) cols d))).
  { induction cols as [|c cols IH]; intros d N; cbn; [exact N|].
    apply IH, dict_set_keys, N. }
  apply G. constructor.
Qed.

Lemma dict_set_fresh (k v : string) (d : dict) :
  ~ In k (map fst d) -> dict_set k v d = (d ++ [(k, v)])%list.
Proof.
  induction d as [|[a b] d IH]; cbn; intros H; [reflexivity|].
  destruct (String.eqb_spec a k) as [->|Hak].
  - exfalso. apply H. now left.
  - f_equal. apply IH. intros H'. apply H. now right.
Qed.

Lemma cols_lower_distinct (cols : list string) :
  NoDup cols -> cols_lower cols = map (fun c => (c, lower (strip c))) cols.
Proof.
  unfold cols_lower.
  assert (G : forall d, NoDup (map fst d ++ cols) ->
    fold_left (fun d c => dict_set c (lower (strip c)) d) cols d =
    (d ++ map (fun c => (c, lower (strip c))) cols)%list).
  { induction cols as [|c cols IH]; intros d N; cbn.
    - now rewrite app_nil_r.
    - rewrite IH.
      + rewrite dict_set_fresh.
        * now rewrite <- app_assoc.
        * apply NoDup_remove_2 in N. intros H. apply N.
          apply in_or_app. now left.
      + rewrite dict_set_fresh.
        * rewrite map_app. cbn. rewrite <- app_assoc. exact N.
        * apply NoDup_remove_2 in N. intros H. apply N.
          apply in_or_app. now left. }
  intros N. apply (G []). exact N.
Qed.

Lemma split_head_tagged (tag key : string) :
  no_underscore key = true -> split_head (tagged tag key) = key.
Proof.
  unfold no_underscore, tagged.
  induction key as [|c key IH]; cbn; intros H.
  - reflexivity.
  - apply andb_prop in H as [Hc Hk].
    destruct (Ascii.eqb c "_"); [discriminate|].
    f_equal. exact (IH Hk).
Qed.

Lemma tagged_inj (tag k1 k2 : string) :
  no_underscore k1 = true -> no_underscore k2 = true ->
  tagged tag k1 = tagged tag k2 -> k1 = k2.
Proof.
  intros H1 H2 E.
  rewrite <- (split_head_tagged tag k1 H1), <- (split_head_tagged tag k2 H2).
  now rewrite E.
Qed.

Section FincommsRename.

Variable tag : string.
Variable items : dict.

Let claim (col : string) (acc : option string) (ka : string * list string) :=
  match Fincomms_columns.first_col (snd ka) items with
  | Some c => if String.eqb c col then Some (fst ka) else acc
  | None => acc
  end.

Lemma fincomms_assign_fold (mp : list (string * list string)) :
  forall (used : list string) (m : dict) (acc : string -> option string),
    NoDup (map fst mp) ->
    (forall k, In k (map fst mp) -> no_underscore k = true /\ ~ In k used) ->
    (forall kv, In kv m ->
                exists k, In k used /\ no_underscore k = true /\
                          snd kv = tagged tag k) ->
    (forall col, dict_get col m = option_map (tagged tag) (acc col)) ->
    forall col,
      dict_get col (fold_left (Fincomms_columns.assign tag items) mp m) =
      option_map (tagged tag) (fold_left (claim col) mp (acc col)).
Proof.
  induction mp as [|[key al] mp IH]; intros used m acc N K V G col.
  - cbn. apply G.
  - cbn [fold_left]. cbn [map] in N, K.
    inversion N as [|? ? Hn N']; subst.
    destruct (K key (or_introl eq_refl)) as [Hus Hfresh].
    assert (Hcheck : existsb (String.eqb key)
                       (map (fun kv => split_head (snd kv)) m) = false).
    { destruct (existsb _ _) eqn:E; [|reflexivity].
      apply existsb_exists in E as (x & Hx & Ex).
      apply String.eqb_eq in Ex. subst x.
      apply in_map_iff in Hx as (kv & Ekv & Hkv).
      destruct (V kv Hkv) as (k & Hk & Hku & Es).
      rewrite Es, split_head_tagged in Ekv by exact Hku.
      subst k. contradiction. }
    apply (IH (key :: used)
              (Fincomms_columns.assign tag items m (key, al))
              (fun c => claim c (acc c) (key, al))).
    + exact N'.
    + intros k Hk. destruct (K k (or_intror Hk)) as [A B].
      split; [exact A|]. intros [<-|H]; [contradiction|]. exact (B H).
    + intros kv Hkv. unfold Fincomms_columns.assign in Hkv. cbn [fst snd] in Hkv.
      rewrite Hcheck in Hkv. cbn [negb] in Hkv.
      destruct (Fincomms_columns.first_col al items) as [c|].
      * apply dict_set_values in Hkv as [->|Hkv].
        -- exists key. repeat split; [now left | exact Hus].
        -- destruct (V kv Hkv) as (k & A & B & C).
           exists k. repeat split; [now right | exact B | exact C].
      * destruct (V kv Hkv) as (k & A & B & C).
        exists k. repeat split; [now right | exact B | exact C].
    + intros c'. unfold Fincomms_columns.assign, claim. cbn [fst snd].
      rewrite Hcheck. cbn [negb].
      destruct (Fincomms_columns.first_col al items) as [c|]; [|apply G].
      rewrite dict_get_set.
      destruct (String.eqb c c'); [reflexivity | apply G].
Qed.

Lemma fincomms_claim_from (mp : list (string * list string)) (col : string) :
  forall acc k,
    fold_left (claim col) mp acc = Some k ->
    acc = Some k \/
    exists al, In (k, al) mp /\
               Fincomms_columns.first_col al items = Some col.
Proof.
  induction mp as [|[key al] mp IH]; intros acc k E; cbn in E.
  - now left.
  - destruct (IH _ _ E) as [H|(al' & A & B)].
    + unfold claim in H. cbn [fst snd] in H.
      destruct (Fincomms_columns.first_col al items) as [c|] eqn:F;
        [|now left].
      destruct (String.eqb_spec c col) as [->|]; [|now left].
      injection H as <-. right. exists al. split; [now left | exact F].
    + right. exists al'. split; [now right | exact B].
Qed.

Lemma fincomms_claim_later (mp : list (string * list string)) (col : string) :
  forall acc k al,
    In (k, al) mp ->
    Fincomms_columns.first_col al items = Some col ->
    exists k', In k' (map fst mp) /\ fold_left (claim col) mp acc = Some k'.
Proof.
  induction mp as [|[key al'] mp IH]; intros acc k al H F; [destruct H|].
  cbn [fold_left].
  destruct H as [E|H].
  - injection E as -> ->.
    unfold claim at 2. cbn [fst snd]. rewrite F, String.eqb_refl.
    destruct (fold_left (claim col) mp (Some k)) as [k'|] eqn:E.
    + destruct (fincomms_claim_from _ _ _ _ E) as [H|(al' & A & _)].
      * injection H as <-. exists k. split; [now left | reflexivity].
      * exists k'. split; [right; now apply (in_map fst) in A | reflexivity].
    + exfalso. clear - E.
      revert E. generalize k. induction mp as [|[a b] mp IH]; intros k0 E.
      * discriminate.
      * cbn in E. unfold claim in E at 2. cbn [fst snd] in E.
        destruct (Fincomms_columns.first_col b items) as [c|];
          [destruct (String.eqb c col)|]; eapply IH; exact E.
  - destruct (IH (claim col acc (key, al')) k al H F) as (k' & A & B).
    exists k'. split; [now right | exact B].
Qed.

End FincommsRename.

Lemma fincomms_mapping_keys :
  NoDup (map fst Fincomms_columns.mapping) /\
  forall k, In k (map fst Fincomms_columns.mapping) -> no_underscore k = true.
Proof.
  split.
  - cbn. repeat constructor; cbn; intuition discriminate.
  - cbn. intros k H.
    repeat (destruct H as [<-|H]; [reflexivity|]). destruct H.
Qed.

Lemma fincomms_rename_get (tag : string) (cols : list string) (col : string) :
  dict_get col (Fincomms_columns.rename_map tag cols) =
  option_map (tagged tag)
    (Fincomms_columns.last_claim (cols_lower cols) col
                                 Fincomms_columns.mapping).
Proof.
  destruct fincomms_mapping_keys as [N U].
  unfold Fincomms_columns.rename_map, Fincomms_columns.last_claim.
  apply (fincomms_assign_fold tag (cols_lower cols) Fincomms_columns.mapping
           [] [] (fun _ => None)).
  - exact N.
  - intros k Hk. split; [exact (U k Hk) | intros []].
  - intros kv [].
  - reflexivity.
Qed.

Lemma ensure_column_in (c : string) (cols : list string) :
  In c (ensure_column c cols).
Proof.
  unfold ensure_column.
  destruct (existsb (String.eqb c) cols) eqn:E.
  - apply existsb_exists in E as (x & Hx & Ex).
    apply String.eqb_eq in Ex. now subst x.
  - apply in_or_app. right. now left.
Qed.

Lemma ensure_column_keeps (c x : string) (cols : list string) :
  In x cols -> In x (ensure_column c cols).
Proof.
  unfold ensure_column. intros H.
  destruct (existsb (String.eqb c) cols); [exact H|].
  apply in_or_app. now left.
Qed.

(** X6. [normalize_columns] of recon_raptor_fincomms.py: the test on the
    names already given never stops a renaming, so a column is renamed for
    the last key of the mapping whose first matching column it is; no two
    columns are renamed alike; a column that is the first match of two keys
    takes the later key's name and no column takes the earlier one; and the
    labels always hold the debit and the credit column. *)
Theorem fincomms_normalize_columns_names (tag : string) (cols : list string) :
  let m := Fincomms_columns.rename_map tag cols in
  let items := cols_lower cols in
  (forall col,
      dict_get col m =
      option_map (tagged tag)
        (Fincomms_columns.last_claim items col Fincomms_columns.mapping)) /\
  (forall c1 c2 n, dict_get c1 m = Some n -> dict_get c2 m = Some n ->
                   c1 = c2) /\
  (forall before k1 a1 between k2 a2 after col,
      Fincomms_columns.mapping =
        (before ++ (k1, a1) :: between ++ (k2, a2) :: after)%list ->
      Fincomms_columns.first_col a1 items = Some col ->
      Fincomms_columns.first_col a2 items = Some col ->
      forall c, dict_get c m <> Some (tagged tag k1)) /\
  In (tagged tag "debit") (Fincomms_columns.normalized_columns tag cols) /\
  In (tagged tag "credit") (Fincomms_columns.normalized_columns tag cols).
Proof.
  cbn zeta.
  destruct fincomms_mapping_keys as [N U].
  assert (Uniq : forall k a b,
             In (k, a) Fincomms_columns.mapping ->
             In (k, b) Fincomms_columns.mapping -> a = b).
  { intros k a b Ha Hb. clear - N Ha Hb.
    induction Fincomms_columns.mapping as [|[k' a'] mp IH]; [destruct Ha|].
    cbn in N. inversion N as [|? ? Hn N']; subst.
    destruct Ha as [Ea|Ha], Hb as [Eb|Hb].
    - congruence.
    - injection Ea as -> ->. exfalso. apply Hn.
      now apply (in_map fst) in Hb.
    - injection Eb as -> ->. exfalso. apply Hn.
      now apply (in_map fst) in Ha.
    - exact (IH N' Ha Hb). }
  assert (From : forall col k,
             Fincomms_columns.last_claim (cols_lower cols) col
               Fincomms_columns.mapping = Some k ->
             exists al, In (k, al) Fincomms_columns.mapping /\
                        Fincomms_columns.first_col al (cols_lower cols)
                        = Some col).
  { intros col k E.
    destruct (fincomms_claim_from (cols_lower cols) _ col None k E)
      as [H|H]; [discriminate | exact H]. }
  split; [|split; [|split; [|split]]].
  - intros col. apply fincomms_rename_get.
  - intros c1 c2 n E1 E2.
    rewrite fincomms_rename_get in E1, E2.
    destruct (Fincomms_columns.last_claim _ c1 _) as [k1|] eqn:L1;
      [|discriminate].
    destruct (Fincomms_columns.last_claim _ c2 _) as [k2|] eqn:L2;
      [|discriminate].
    cbn in E1, E2.
    destruct (From _ _ L1) as (al1 & A1 & F1).
    destruct (From _ _ L2) as (al2 & A2 & F2).
    assert (k1 = k2).
    { apply (tagged_inj tag).
      - apply U. now apply (in_map fst) in A1.
      - apply U. now apply (in_map fst) in A2.
      - congruence. }
    subst k2. rewrite (Uniq _ _ _ A1 A2) in F1. congruence.
  - intros before k1 a1 between k2 a2 after col Emp F1 F2 c E.
    rewrite fincomms_rename_get in E.
    destruct (Fincomms_columns.last_claim _ c _) as [k|] eqn:L;
      [|discriminate].
    cbn in E.
    destruct (From _ _ L) as (al & A & F).
    assert (In (k1, a1) Fincomms_columns.mapping) as In1.
    { rewrite Emp. apply in_or_app. right. now left. }
    assert (k = k1).
    { apply (tagged_inj tag).
      - apply U. now apply (in_map fst) in A.
      - apply U. now apply (in_map fst) in In1.
      - congruence. }
    subst k. rewrite (Uniq _ _ _ A In1) in F.
    assert (c = col) by congruence. subst c.
    unfold Fincomms_columns.last_claim in L.
    rewrite Emp in L, N.
    replace (before ++ (k1, a1) :: between ++ (k2, a2) :: after)%list
      with ((before ++ (k1, a1) :: between) ++ (k2, a2) :: after)%list in L, N
      by (rewrite <- app_assoc; reflexivity).
    rewrite fold_left_app in L.
    destruct (fincomms_claim_later (cols_lower cols) ((k2, a2) :: after) col
                (fold_left
                   (fun acc ka =>
                      match Fincomms_columns.first_col (snd ka)
                              (cols_lower cols) with
                      | Some c => if String.eqb c col then Some (fst ka)
                                  else acc
                      | None => acc
                      end) (before ++ (k1, a1) :: between)%list None)
                k2 a2 (or_introl eq_refl) F2) as (k' & Hk' & Ek').
    rewrite Ek' in L. injection L as ->.
    rewrite map_app in N.
    apply NoDup_app_remove_l in N as N2.
    assert (In k1 (map fst (before ++ (k1, a1) :: between)%list)).
    { rewrite map_app. apply in_or_app. right. now left. }
    clear - N H Hk'.
    revert N H Hk'.
    generalize (map fst (before ++ (k1, a1) :: between)%list).
    generalize (map fst ((k2, a2) :: after)).
    intros l2 l1 N H1 H2.
    induction l1 as [|x l1 IH]; [destruct H1|].
    cbn in N. inversion N as [|? ? Hn N']; subst.
    destruct H1 as [->|H1].
    + apply Hn. apply in_or_app. now right.
    + exact (IH N' H1).
  - unfold Fincomms_columns.normalized_columns.
    apply ensure_column_keeps, ensure_column_in.
  - unfold Fincomms_columns.normalized_columns.
    apply ensure_column_in.
Qed.

Lemma fincomms_normalize_columns_names_witness :
  renamed (Fincomms_columns.rename_map "erp" ["Document Date"; "Total"])
          ["Document Date"; "Total"] = ["date_erp"; "amount_erp"] /\
  forall c,
    dict_get c (Fincomms_columns.rename_map "erp" ["Document Date"; "Total"])
    <> Some "invoice_erp".
Proof.
  split; [reflexivity|].
  destruct (fincomms_normalize_columns_names "erp" ["Document Date"; "Total"])
    as (_ & _ & H & _).
  cbv zeta in H.
  exact (H [] "invoice" _ (firstn 3 (tl Fincomms_columns.mapping))
           "date" _ (skipn 5 Fincomms_columns.mapping) "Document Date"
           eq_refl eq_refl eq_refl).
Defined.

Lemma dict_get_absent (k : string) (d : dict) :
  ~ In k (map fst d) -> dict_get k d = None.
Proof.
  induction d as [|[a b] d IH]; cbn; intros H; [reflexivity|].
  destruct (String.eqb_spec a k) as [->|].
  - exfalso. apply H. now left.
  - apply IH. intros H'. apply H. now right.
Qed.

Lemma streamlit_assign_get (tag : string) (ka : string * list string)
      (items : dict) :
  NoDup (map fst items) ->
  forall (m : dict) (col : string),
    dict_get col (Streamlit_columns.assign tag items m ka) =
    match dict_get col items with
    | Some low => if alias_in (snd ka) low then Some (tagged tag (fst ka))
                  else dict_get col m
    | None => dict_get col m
    end.
Proof.
  unfold Streamlit_columns.assign.
  induction items as [|[c low] r IH]; intros N m col; [reflexivity|].
  cbn [map fst] in N. inversion N as [|? ? Hn N']; subst.
  cbn [fold_left fst snd dict_get].
  rewrite (IH N').
  destruct (String.eqb_spec c col) as [->|Hc].
  - rewrite (dict_get_absent col r Hn).
    destruct (alias_in (snd ka) low); [|reflexivity].
    now rewrite dict_get_set, String.eqb_refl.
  - destruct (dict_get col r) as [low'|].
    + destruct (alias_in (snd ka) low'); [reflexivity|].
      destruct (alias_in (snd ka) low); [|reflexivity].
      rewrite dict_get_set.
      destruct (String.eqb_spec c col); [contradiction | reflexivity].
    + destruct (alias_in (snd ka) low); [|reflexivity].
      rewrite dict_get_set.
      destruct (String.eqb_spec c col); [contradiction | reflexivity].
Qed.

Lemma streamlit_rename_fold (tag : string) (items : dict)
      (col low : string) :
  NoDup (map fst items) ->
  dict_get col items = Some low ->
  forall (mp : list (string * list string)) (m : dict) (acc : option string),
    dict_get col m = option_map (tagged tag) acc ->
    dict_get col (fold_left (Streamlit_columns.assign tag items) mp m) =
    option_map (tagged tag)
      (fold_left (fun acc ka => if alias_in (snd ka) low then Some (fst ka)
                                else acc) mp acc).
Proof.
  intros N G. induction mp as [|ka mp IH]; intros m acc E; cbn [fold_left].
  - exact E.
  - apply IH. rewrite (streamlit_assign_get tag ka items N), G.
    destruct (alias_in (snd ka) low); [reflexivity | exact E].
Qed.

Lemma in_existsb_eqb (x : string) (l : list string) :
  In x l -> existsb (String.eqb x) l = true.
Proof.
  intros H. apply existsb_exists. exists x. split; [exact H|].
  apply String.eqb_refl.
Qed.

Lemma streamlit_rename_get (tag : string) (cols : list string) (col : string) :
  In col cols ->
  dict_get col (Streamlit_columns.rename_map tag cols) =
  option_map (tagged tag)
    (Streamlit_columns.last_key (lower (strip col)) Streamlit_columns.mapping).
Proof.
  intros H. unfold Streamlit_columns.rename_map, Streamlit_columns.last_key.
  apply streamlit_rename_fold.
  - apply cols_lower_keys.
  - now rewrite cols_lower_get, in_existsb_eqb.
  - reflexivity.
Qed.

Lemma map_same_not_distinct {A B : Type} (f : A -> B) (l : list A) (a b : A) :
  In a l -> In b l -> a <> b -> f a = f b -> ~ NoDup (map f l).
Proof.
  intros Ha Hb Hab E N.
  induction l as [|x l IH]; [destruct Ha|].
  cbn in N. inversion N as [|? ? Hn N']; subst.
  destruct Ha as [->|Ha], Hb as [->|Hb].
  - now apply Hab.
  - apply Hn. rewrite E. now apply in_map.
  - apply Hn. rewrite <- E. now apply in_map.
  - exact (IH Ha Hb N').
Qed.

Lemma count_occ_two_images {A : Type} (f : A -> string) (l : list A)
      (a b : A) (x : string) :
  In a l -> In b l -> a <> b -> f a = x -> f b = x ->
  2 <= count_occ string_dec (map f l) x.
Proof.
  intros Ha Hb Hab Fa Fb.
  assert (One : forall c t, In c t -> f c = x ->
                            1 <= count_occ string_dec (map f t) x).
  { intros c t Hc Fc. apply (count_occ_In string_dec).
    rewrite <- Fc. now apply in_map. }
  induction l as [|y l IH]; [destruct Ha|]. cbn [map count_occ].
  destruct Ha as [->|Ha], Hb as [->|Hb].
  - now contradiction Hab.
  - rewrite Fa. destruct (string_dec x x); [|contradiction].
    pose proof (One b l Hb Fb). lia.
  - rewrite Fb. destruct (string_dec x x); [|contradiction].
    pose proof (One a l Ha Fa). lia.
  - pose proof (IH Ha Hb). destruct (string_dec (f y) x); lia.
Qed.

Lemma count_occ_ensure_column (c x : string) (cols : list string) :
  count_occ string_dec cols x <= count_occ string_dec (ensure_column c cols) x.
Proof.
  unfold ensure_column. destruct (existsb (String.eqb c) cols); [lia|].
  rewrite count_occ_app. lia.
Qed.

(** X7. [normalize_columns] of the Streamlit module: a column is renamed
    for the last key of the mapping one of whose aliases occurs in its
    lowered label, so a label that holds a debit alias and no reason or date
    alias becomes the debit column whatever else it holds, and two columns
    with the same last key get the same label. When at most one column
    carries the date label the function returns, and the labels it returns
    hold the debit and the credit column; when two columns of a table with
    at least one line take the date label it raises. *)
Theorem streamlit_normalize_columns_names (tag : string) (df : frame row) :
  let cols := columns df in
  let m := Streamlit_columns.rename_map tag cols in
  (forall col,
      In col cols ->
      dict_get col m =
      option_map (tagged tag)
        (Streamlit_columns.last_key (lower (strip col))
                                    Streamlit_columns.mapping)) /\
  (forall col,
      In col cols ->
      alias_in Streamlit_columns.debit_aliases (lower (strip col)) = true ->
      alias_in Streamlit_columns.reason_aliases (lower (strip col)) = false ->
      alias_in Streamlit_columns.date_aliases (lower (strip col)) = false ->
      dict_get col m = Some (tagged tag "debit")) /\
  (forall c1 c2 k,
      In c1 cols -> In c2 cols -> c1 <> c2 ->
      Streamlit_columns.last_key (lower (strip c1)) Streamlit_columns.mapping
      = Some k ->
      Streamlit_columns.last_key (lower (strip c2)) Streamlit_columns.mapping
      = Some k ->
      ~ NoDup (renamed m cols)) /\
  (count_occ string_dec (Streamlit_columns.guaranteed_columns tag cols)
             (tagged tag "date") <= 1 ->
   exists out,
     Streamlit_columns.normalize_columns df tag = Some out /\
     In (tagged tag "debit") out /\ In (tagged tag "credit") out) /\
  (forall c1 c2,
      In c1 cols -> In c2 cols -> c1 <> c2 ->
      Streamlit_columns.last_key (lower (strip c1)) Streamlit_columns.mapping
      = Some "date" ->
      Streamlit_columns.last_key (lower (strip c2)) Streamlit_columns.mapping
      = Some "date" ->
      rows df <> [] ->
      Streamlit_columns.normalize_columns df tag = None).
Proof.
  cbn zeta. split; [|split; [|split; [|split]]].
  - intros col H. now apply streamlit_rename_get.
  - intros col H D R T. rewrite (streamlit_rename_get tag _ col H).
    unfold Streamlit_columns.last_key, Streamlit_columns.mapping.
    cbn [fold_left fst snd]. now rewrite D, R, T.
  - intros c1 c2 k H1 H2 Hne L1 L2. unfold renamed.
    apply (map_same_not_distinct _ (columns df) c1 c2 H1 H2 Hne).
    now rewrite !streamlit_rename_get, L1, L2 by assumption.
  - intros H. unfold Streamlit_columns.normalize_columns. cbv zeta.
    apply Nat.ltb_ge in H. rewrite H. cbn [andb].
    eexists. split; [reflexivity|].
    unfold Streamlit_columns.guaranteed_columns. split.
    + apply ensure_column_keeps, ensure_column_in.
    + apply ensure_column_in.
  - intros c1 c2 H1 H2 Hne L1 L2 Hr.
    unfold Streamlit_columns.normalize_columns. cbv zeta.
    assert (Hne' : is_empty_frame df = false)
      by (unfold is_empty_frame; destruct (rows df);
          [contradiction | reflexivity]).
    rewrite Hne'. cbn [negb]. rewrite andb_true_r.
    assert (C : 2 <= count_occ string_dec
                       (Streamlit_columns.guaranteed_columns tag (columns df))
                       (tagged tag "date")).
    { unfold Streamlit_columns.guaranteed_columns.
      eapply Nat.le_trans; [|apply count_occ_ensure_column].
      eapply Nat.le_trans; [|apply count_occ_ensure_column].
      unfold renamed.
      apply (count_occ_two_images _ (columns df) c1 c2 _ H1 H2 Hne).
      - now rewrite streamlit_rename_get, L1 by assumption.
      - now rewrite streamlit_rename_get, L2 by assumption. }
    apply Nat.ltb_lt in C. now rewrite C.
Qed.

Lemma streamlit_normalize_columns_names_witness :
  let line := fun cols : list string =>
                map (fun c : string => (c, Text "1")) cols in
  let amounts := mkFrame ["Invoice Amount"; "Total"]
                         [(0, line ["Invoice Amount"; "Total"])] in
  let dates := mkFrame ["Invoice"; "Date"; "Posting Date"]
                       [(0, line ["Invoice"; "Date"; "Posting Date"])] in
  dict_get "Invoice Amount"
           (Streamlit_columns.rename_map "erp" (columns amounts))
  = Some "debit_erp" /\
  ~ NoDup (renamed (Streamlit_columns.rename_map "erp" (columns amounts))
                   (columns amounts)) /\
  (exists out,
      Streamlit_columns.normalize_columns amounts "erp" = Some out /\
      In "debit_erp" out /\ In "credit_erp" out) /\
  Streamlit_columns.normalize_columns dates "erp" = None.
Proof.
  intros line amounts dates.
  destruct (streamlit_normalize_columns_names "erp" amounts)
    as (_ & D & S & R & _).
  destruct (streamlit_normalize_columns_names "erp" dates)
    as (_ & _ & _ & _ & X).
  cbv zeta in D, S, R, X.
  split; [|split; [|split]].
  - apply D; [now left | reflexivity | reflexivity | reflexivity].
  - apply (S "Invoice Amount" "Total" "debit");
      [now left | right; now left | discriminate | reflexivity | reflexivity].
  - apply R. vm_compute. lia.
  - apply (X "Date" "Posting Date");
      [right; now left | right; right; now left | discriminate
       | reflexivity | reflexivity | discriminate].
Defined.

(** ** Payment lines and invoice lines (Streamlit module) *)

Lemma strip_prefix_app (a b t : string) :
  strip_prefix (a ++ b) t <> None -> strip_prefix a t <> None.
Proof.
  revert t. induction a as [|c a IH]; intros t H; cbn in *.
  - discriminate.
  - destruct t as [|d t]; [exact H|].
    destruct (Ascii.eqb c d); [exact (IH t H) | exact H].
Qed.

Lemma contains_app (a b t : string) :
  contains (a ++ b) t = true -> contains a t = true.
Proof.
  induction t as [|d t IH]; cbn [contains]; intros H.
  - destruct (strip_prefix (a ++ b) "") eqn:E; [|discriminate].
    destruct (strip_prefix a "") eqn:E'; [reflexivity|].
    exfalso. apply (strip_prefix_app a b ""); [rewrite E; discriminate|].
    exact E'.
  - destruct (strip_prefix a (String d t)) eqn:E'; [reflexivity|].
    destruct (strip_prefix (a ++ b) (String d t)) eqn:E.
    + exfalso. apply (strip_prefix_app a b (String d t));
        [rewrite E; discriminate | exact E'].
    + exact (IH H).
Qed.

Lemma payment_keyword_ignored (txt : string) :
  Streamlit.any_in Streamlit_payments.pay_kw txt = true ->
  Streamlit.any_in Streamlit.pay_kw txt = true.
Proof.
  unfold Streamlit.any_in, Streamlit_payments.pay_kw, Streamlit.pay_kw.
  cbn [existsb]. intros H.
  apply orb_prop in H as [H|H]; [|rewrite H; apply orb_true_r].
  rewrite (contains_app "πληρωμ" "ή" txt H). reflexivity.
Qed.

(** X8. In the Streamlit module a line [extract_payments] takes for a
    payment is typed IGNORE by [match_invoices], so no line of the tables
    the invoice tiers run on is a payment line; and a line whose text holds
    a payment keyword and an excluded word is in neither: it is no payment
    and it is typed IGNORE. *)
Theorem streamlit_payment_lines_ignored (tag : string) :
  (forall r, Streamlit_payments.is_payment r tag = true ->
             Streamlit.doc_type r tag = Streamlit.IGNORE) /\
  (forall df p, In p (rows (Streamlit.classify df tag)) ->
                Streamlit_payments.is_payment (Streamlit.t_src (snd p)) tag
                = false) /\
  (forall r,
      Streamlit.any_in Streamlit_payments.pay_kw
                       (Streamlit_payments.row_text r tag) = true ->
      Streamlit.any_in Streamlit_payments.excl_kw
                       (Streamlit_payments.row_text r tag) = true ->
      Streamlit_payments.is_payment r tag = false /\
      Streamlit.doc_type r tag = Streamlit.IGNORE).
Proof.
  assert (A : forall r, Streamlit_payments.is_payment r tag = true ->
                        Streamlit.doc_type r tag = Streamlit.IGNORE).
  { intros r H. unfold Streamlit_payments.is_payment in H. cbv zeta in H.
    apply andb_prop in H as [H _].
    unfold Streamlit.doc_type. cbv zeta.
    now rewrite (payment_keyword_ignored _ H). }
  split; [exact A|]. split.
  - intros df p H. unfold Streamlit.classify in H. cbn [rows] in H.
    apply filter_In in H as [H T].
    apply in_map_iff in H as (q & <- & _). cbn [snd Streamlit.t_src] in *.
    destruct (Streamlit_payments.is_payment (snd q) tag) eqn:E;
      [|reflexivity].
    cbn [Streamlit.t_type] in T. rewrite (A _ E) in T. discriminate.
  - intros r P X. unfold Streamlit_payments.row_text in P, X. split.
    + unfold Streamlit_payments.is_payment. cbv zeta.
      rewrite X. apply andb_false_r.
    + unfold Streamlit.doc_type. cbv zeta.
      now rewrite (payment_keyword_ignored _ P).
Qed.

Lemma streamlit_payment_lines_ignored_witness :
  Streamlit.doc_type [("reason_erp", Text "Bank transfer 12");
                      ("invoice_erp", Text "INV-7")] "erp"
  = Streamlit.IGNORE /\
  (Streamlit_payments.is_payment
     [("reason_erp", Text "Payment correction");
      ("invoice_erp", Text "INV-8")] "erp" = false /\
   Streamlit.doc_type
     [("reason_erp", Text "Payment correction");
      ("invoice_erp", Text "INV-8")] "erp" = Streamlit.IGNORE).
Proof.
  destruct (streamlit_payment_lines_ignored "erp") as (A & _ & C).
  split.
  - apply A. reflexivity.
  - apply C; reflexivity.
Defined.

(** ** The records of a matching loop *)

Section GreedyRecords.
Context {E V M : Type}.
Variable check_e : bool.
Variable pick : nat -> E -> list nat -> option (nat * V).
Variable mk : nat -> E -> nat -> V -> M.
Variable idx_e idx_v : M -> nat.
Variable ven : list (nat * V).
Variable good : E -> V -> Prop.

Hypothesis mk_idx_e : forall ei e vi v, idx_e (mk ei e vi v) = ei.
Hypothesis mk_idx_v : forall ei e vi v, idx_v (mk ei e vi v) = vi.
Hypothesis pick_good : forall ei e used_v vi v,
    pick ei e used_v = Some (vi, v) ->
    mem vi used_v = false /\ In (vi, v) ven /\ good e v.

(** Every record joins a row of each table for which the inner loop's test
    held; no vendor label is recorded twice, no ERP label either when the
    loop checks [used_e] or the labels are distinct; and the two sets of
    used labels are the labels the records carry. *)
Lemma greedy_records (erp : list (nat * E)) :
  let st := greedy check_e pick mk erp in
  Forall (fun m => exists e v,
              In (idx_e m, e) erp /\ In (idx_v m, v) ven /\ good e v /\
              m = mk (idx_e m) e (idx_v m) v) (fst (fst st)) /\
  NoDup (map idx_v (fst (fst st))) /\
  (check_e = true \/ NoDup (labels erp) -> NoDup (map idx_e (fst (fst st)))) /\
  (forall i, In i (snd (fst st)) <-> In i (map idx_e (fst (fst st)))) /\
  (forall i, In i (snd st) <-> In i (map idx_v (fst (fst st)))).
Proof.
  cbv zeta.
  pose proof (greedy_trace check_e pick mk erp) as T.
  pose proof (greedy_invariant check_e pick mk idx_e idx_v ven
                               mk_idx_e mk_idx_v) as H.
  specialize (H ltac:(intros ei e uv vi v Hp;
                      apply pick_good in Hp as (? & ? & _);
                      split; assumption) erp).
  destruct (greedy check_e pick mk erp) as [[ms ue] uv].
  cbn [fst snd] in *.
  destruct H as (He & Hv & Nv & _ & _ & Ne).
  split; [|split; [|split; [|split]]].
  - eapply Forall_impl; [|exact T].
    intros m (ei & e & vi & v & used & Hin & Hp & ->).
    apply pick_good in Hp as (_ & Hv' & Hg).
    rewrite mk_idx_e, mk_idx_v. exists e, v. auto.
  - rewrite Hv in Nv. apply NoDup_rev in Nv.
    now rewrite rev_involutive in Nv.
  - intros C. specialize (Ne C). rewrite He in Ne. apply NoDup_rev in Ne.
    now rewrite rev_involutive in Ne.
  - intros i. rewrite He. symmetry. apply in_rev.
  - intros i. rewrite Hv. symmetry. apply in_rev.
Qed.
End GreedyRecords.

Lemma drop_used_In {R : Type} (used : list nat) (l : list (nat * R))
      (p : nat * R) :
  In p (drop_used used l) <-> In p l /\ ~ In (fst p) used.
Proof.
  unfold drop_used. rewrite filter_In, negb_true_iff, mem_false. tauto.
Qed.

Lemma is_empty_false (s : string) : is_empty s = false -> s <> "".
Proof. intros H ->. discriminate. Qed.

(** X9. [tier2_match] of recon_raptor_fincomms.py: every record joins a
    row of the ERP table and a row of the vendor table whose absolute
    amounts are not more than 1.00 apart and whose codes have a similarity
    of at least 0.90; no row of either table is in two records; the tables
    returned hold the rows that are in no record, under the columns they
    came with. *)
Theorem fincomms_tier2_records (fuzzy_ratio : string -> string -> float)
        (e v : frame miss_row) :
  let '(ms, re, rv) := Fincomms.tier2_match fuzzy_ratio e v in
  Forall (fun m => exists er vr,
              In (erp_idx m, er) (rows e) /\ In (ven_idx m, vr) (rows v) /\
              fgt (fabs (fsub (Fincomms.amount_of er)
                              (Fincomms.amount_of vr))) (lit 100 2) = false /\
              fge (Fincomms.similarity fuzzy_ratio (Fincomms.code_of er)
                                       (Fincomms.code_of vr)) (lit 90 2)
              = true /\
              m = Fincomms.tier2_record fuzzy_ratio (erp_idx m) er
                                        (ven_idx m) vr) ms /\
  NoDup (map erp_idx ms) /\ NoDup (map ven_idx ms) /\
  (forall p, In p (rows re) <->
             In p (rows e) /\ ~ In (fst p) (map erp_idx ms)) /\
  (forall p, In p (rows rv) <->
             In p (rows v) /\ ~ In (fst p) (map ven_idx ms)) /\
  columns re = columns e /\ columns rv = columns v.
Proof.
  unfold Fincomms.tier2_match.
  destruct (is_empty_frame e || is_empty_frame v).
  { cbn [map]. repeat split; try constructor; try tauto. }
  pose proof (greedy_records true
                (Fincomms.tier2_pick fuzzy_ratio (rows v))
                (Fincomms.tier2_record fuzzy_ratio) erp_idx ven_idx (rows v)
                (fun er vr =>
                   fgt (fabs (fsub (Fincomms.amount_of er)
                                   (Fincomms.amount_of vr))) (lit 100 2)
                   = false /\
                   fge (Fincomms.similarity fuzzy_ratio (Fincomms.code_of er)
                                            (Fincomms.code_of vr)) (lit 90 2)
                   = true)
                (fun _ _ _ _ => eq_refl) (fun _ _ _ _ => eq_refl)) as G.
  specialize (G ltac:(
    intros ei er used vi vr P;
    apply tier2_pick_best in P as (b & a & -> & Hc & _);
    unfold Fincomms.tier2_candidate in Hc; cbn [fst snd] in Hc;
    apply andb_prop in Hc as [Hc Hs]; apply andb_prop in Hc as [Hu Hd];
    apply negb_true_iff in Hu, Hd;
    repeat split; try assumption;
    apply in_or_app; right; left; reflexivity) (rows e)).
  cbv zeta in G.
  destruct (greedy true _ _ (rows e)) as [[ms ue] uv]. cbn [fst snd] in G.
  destruct G as (F & Nv & Ne & Ue & Uv). cbn [rows columns].
  split; [|split; [|split; [|split; [|split; [|split]]]]];
    try reflexivity.
  - eapply Forall_impl; [|exact F].
    intros m (er & vr & A & B & (C & D) & Em). exists er, vr. auto.
  - apply Ne. now left.
  - exact Nv.
  - intros p. rewrite drop_used_In, (Ue (fst p)). tauto.
  - intros p. rewrite drop_used_In, (Uv (fst p)). tauto.
Qed.

(** X10. [tier3_match] of recon_raptor_fincomms.py: every record joins a
    row of each table with the same date text, which is not empty, and an
    edit ratio of the codes of at least 0.75, whatever the amounts; no row
    is in two records; the tables returned hold the rows that are in no
    record; and when one table has no [Date] column nothing is matched. *)
Theorem fincomms_tier3_records (fuzzy_ratio : string -> string -> float)
        (e v : frame miss_row) :
  let '(ms, re, rv) := Fincomms.tier3_match fuzzy_ratio e v in
  Forall (fun m => exists er vr,
              In (erp_idx m, er) (rows e) /\ In (ven_idx m, vr) (rows v) /\
              opt_str (Date er) <> "" /\
              opt_str (Date vr) = opt_str (Date er) /\
              fge (fuzzy_ratio (Fincomms.code_of er) (Fincomms.code_of vr))
                  (lit 75 2) = true /\
              m = Fincomms.tier3_record fuzzy_ratio (erp_idx m) er
                                        (ven_idx m) vr) ms /\
  NoDup (map erp_idx ms) /\ NoDup (map ven_idx ms) /\
  (forall p, In p (rows re) <->
             In p (rows e) /\ ~ In (fst p) (map erp_idx ms)) /\
  (forall p, In p (rows rv) <->
             In p (rows v) /\ ~ In (fst p) (map ven_idx ms)) /\
  columns re = columns e /\ columns rv = columns v /\
  (has_column e "Date" = false \/ has_column v "Date" = false ->
   ms = [] /\ re = e /\ rv = v).
Proof.
  unfold Fincomms.tier3_match.
  destruct (is_empty_frame e || is_empty_frame v).
  { cbn [map]. repeat split; try constructor; try tauto. }
  destruct (negb (has_column e "Date") || negb (has_column v "Date")) eqn:HD.
  { cbn [map]. repeat split; try constructor; try tauto. }
  pose proof (greedy_records true
                (Fincomms.tier3_pick fuzzy_ratio (rows v))
                (Fincomms.tier3_record fuzzy_ratio) erp_idx ven_idx (rows v)
                (fun er vr =>
                   opt_str (Date er) <> "" /\
                   opt_str (Date vr) = opt_str (Date er) /\
                   fge (fuzzy_ratio (Fincomms.code_of er)
                                    (Fincomms.code_of vr)) (lit 75 2) = true)
                (fun _ _ _ _ => eq_refl) (fun _ _ _ _ => eq_refl)) as G.
  specialize (G ltac:(
    intros ei er used vi vr P; unfold Fincomms.tier3_pick in P;
    destruct (is_empty (opt_str (Date er))) eqn:He; [discriminate|];
    apply scan_first_sound in P as (Hu & Hin & Hok);
    unfold Fincomms.tier3_ok in Hok; cbv zeta in Hok;
    apply andb_prop in Hok as [Hd Hr];
    apply negb_true_iff, orb_false_iff in Hd as [_ Hd];
    apply negb_false_iff, String.eqb_eq in Hd;
    repeat split; try assumption;
    [apply is_empty_false; exact He | symmetry; exact Hd]) (rows e)).
  cbv zeta in G.
  destruct (greedy true _ _ (rows e)) as [[ms ue] uv]. cbn [fst snd] in G.
  destruct G as (F & Nv & Ne & Ue & Uv). cbn [rows columns].
  split; [|split; [|split; [|split; [|split; [|split; [|split]]]]]];
    try reflexivity.
  - eapply Forall_impl; [|exact F].
    intros m (er & vr & A & B & (C & D & R) & Em). exists er, vr.
    repeat split; assumption.
  - apply Ne. now left.
  - exact Nv.
  - intros p. rewrite drop_used_In, (Ue (fst p)). tauto.
  - intros p. rewrite drop_used_In, (Uv (fst p)). tauto.
  - apply orb_false_iff in HD as [H1 H2].
    apply negb_false_iff in H1, H2.
    intros [H|H]; congruence.
Qed.

(** X11. Tier 1 of the Streamlit module: every record joins a row of each
    side with the same stripped invoice text, so its two invoice fields are
    equal, whatever the amounts; its status is "Perfect Match" when the
    rounded amounts are at most 0.01 apart and "Difference Match"
    otherwise; no vendor row is in two records, and no ERP row either when
    the labels are distinct. *)
Theorem streamlit_tier1_records (erp ven : list (nat * Streamlit.use_row)) :
  let ms := fst (fst (Streamlit.tier1 erp ven)) in
  Forall (fun m => exists e v,
              In (erp_idx m, e) erp /\ In (ven_idx m, v) ven /\
              Streamlit.inv_str "erp" e = Streamlit.inv_str "ven" v /\
              erp_invoice m = Streamlit.inv_str "erp" e /\
              vendor_invoice m = erp_invoice m /\
              status m =
              Some (if fle (fabs (fsub (Streamlit.amt2 e) (Streamlit.amt2 v)))
                           (lit 1 2)
                    then "Perfect Match" else "Difference Match") /\
              match_type m = None) ms /\
  NoDup (map ven_idx ms) /\
  (NoDup (labels erp) -> NoDup (map erp_idx ms)).
Proof.
  cbv zeta. unfold Streamlit.tier1.
  pose proof (greedy_records false (Streamlit.tier1_pick ven)
                Streamlit.tier1_record erp_idx ven_idx ven
                (fun e v => Streamlit.inv_str "erp" e
                            = Streamlit.inv_str "ven" v)
                (fun _ _ _ _ => eq_refl) (fun _ _ _ _ => eq_refl)) as G.
  specialize (G ltac:(
    intros ei e used vi v P; unfold Streamlit.tier1_pick in P;
    apply scan_first_sound in P as (Hu & Hin & Hok);
    unfold Streamlit.tier1_ok in Hok; apply String.eqb_eq in Hok;
    repeat split; assumption) erp).
  cbv zeta in G. destruct G as (F & Nv & Ne & _).
  split; [|split].
  - eapply Forall_impl; [|exact F].
    intros m (e & v & A & B & C & Em). exists e, v.
    rewrite Em at 3 4 5 6 7. unfold Streamlit.tier1_record. cbv zeta.
    cbn [erp_invoice vendor_invoice status match_type].
    unfold Streamlit.tier1_status.
    repeat split; try assumption. symmetry. exact C.
  - exact Nv.
  - intros N. apply Ne. now right.
Qed.

(** X12. [tier2_match] of the Streamlit module: every record joins a row
    of each table whose rounded amounts are at most 1.00 apart and whose
    codes have a similarity of at least 0.90; no row is in two records; the
    two sets returned are the labels of the records, and the tables returned
    hold the rows that are in no record. *)
Theorem streamlit_tier2_records (fuzzy_ratio : string -> string -> float)
        (e v : frame miss_row) :
  let '(ms, used_e, used_v, re, rv) :=
    Streamlit.tier2_match fuzzy_ratio e v in
  Forall (fun m => exists er vr,
              In (erp_idx m, er) (rows e) /\ In (ven_idx m, vr) (rows v) /\
              fle (fabs (fsub (Streamlit.amount_of er)
                              (Streamlit.amount_of vr))) (lit 100 2) = true /\
              fge (Streamlit.similarity fuzzy_ratio (Streamlit.code_of er)
                                        (Streamlit.code_of vr)) (lit 90 2)
              = true /\
              m = Streamlit.tier2_record fuzzy_ratio (erp_idx m) er
                                         (ven_idx m) vr) ms /\
  NoDup (map erp_idx ms) /\ NoDup (map ven_idx ms) /\
  (forall i, In i used_e <-> In i (map erp_idx ms)) /\
  (forall i, In i used_v <-> In i (map ven_idx ms)) /\
  (forall p, In p (rows re) <->
             In p (rows e) /\ ~ In (fst p) (map erp_idx ms)) /\
  (forall p, In p (rows rv) <->
             In p (rows v) /\ ~ In (fst p) (map ven_idx ms)).
Proof.
  unfold Streamlit.tier2_match.
  destruct (is_empty_frame e || is_empty_frame v).
  { cbn [map]. repeat split; try constructor; try tauto. }
  pose proof (greedy_records true
                (Streamlit.tier2_pick fuzzy_ratio (rows v))
                (Streamlit.tier2_record fuzzy_ratio) erp_idx ven_idx (rows v)
                (fun er vr =>
                   fle (fabs (fsub (Streamlit.amount_of er)
                                   (Streamlit.amount_of vr))) (lit 100 2)
                   = true /\
                   fge (Streamlit.similarity fuzzy_ratio
                          (Streamlit.code_of er) (Streamlit.code_of vr))
                       (lit 90 2) = true)
                (fun _ _ _ _ => eq_refl) (fun _ _ _ _ => eq_refl)) as G.
  specialize (G ltac:(
    intros ei er used vi vr P; unfold Streamlit.tier2_pick in P;
    apply scan_first_sound in P as (Hu & Hin & Hok);
    unfold Streamlit.tier2_ok in Hok; apply andb_prop in Hok as [Hd Hs];
    repeat split; assumption) (rows e)).
  cbv zeta in G.
  destruct (greedy true _ _ (rows e)) as [[ms ue] uv]. cbn [fst snd] in G.
  destruct G as (F & Nv & Ne & Ue & Uv). cbn [rows columns].
  split; [|split; [|split; [|split; [|split; [|split]]]]].
  - eapply Forall_impl; [|exact F].
    intros m (er & vr & A & B & (C & D) & Em). exists er, vr.
    repeat split; assumption.
  - apply Ne. now left.
  - exact Nv.
  - exact Ue.
  - exact Uv.
  - intros p. rewrite drop_used_In, (Ue (fst p)). tauto.
  - intros p. rewrite drop_used_In, (Uv (fst p)). tauto.
Qed.

(** X13. [tier3_match] of the Streamlit module: every record joins a row
    of each table with the same normalised date, which is not empty, and an
    edit ratio of the codes of at least 0.75, whatever the amounts; no row
    is in two records; the tables returned hold the rows that are in no
    record; a table without dates gives no record. *)
Theorem streamlit_tier3_records (fuzzy_ratio : string -> string -> float)
        (normalize_date : cell -> string) (e v : frame miss_row) :
  let '(ms, used_e, used_v, re, rv) :=
    Streamlit.tier3_match fuzzy_ratio normalize_date e v in
  Forall (fun m => exists er vr,
              In (erp_idx m, er) (rows e) /\ In (ven_idx m, vr) (rows v) /\
              Streamlit.date_of normalize_date er <> "" /\
              Streamlit.date_of normalize_date vr
              = Streamlit.date_of normalize_date er /\
              fge (fuzzy_ratio (Streamlit.code_of er) (Streamlit.code_of vr))
                  (lit 75 2) = true /\
              m = Streamlit.tier3_record fuzzy_ratio normalize_date
                    (erp_idx m) er (ven_idx m) vr) ms /\
  NoDup (map erp_idx ms) /\ NoDup (map ven_idx ms) /\
  (forall p, In p (rows re) <->
             In p (rows e) /\ ~ In (fst p) (map erp_idx ms)) /\
  (forall p, In p (rows rv) <->
             In p (rows v) /\ ~ In (fst p) (map ven_idx ms)) /\
  ((forall p, In p (rows e) -> Date (snd p) = None) \/
   (forall p, In p (rows v) -> Date (snd p) = None) -> ms = []).
Proof.
  unfold Streamlit.tier3_match.
  destruct (is_empty_frame e || is_empty_frame v).
  { cbn [map]. repeat split; try constructor; try tauto. }
  pose proof (greedy_records true
                (Streamlit.tier3_pick fuzzy_ratio normalize_date (rows v))
                (Streamlit.tier3_record fuzzy_ratio normalize_date)
                erp_idx ven_idx (rows v)
                (fun er vr =>
                   Streamlit.date_of normalize_date er <> "" /\
                   Streamlit.date_of normalize_date vr
                   = Streamlit.date_of normalize_date er /\
                   fge (fuzzy_ratio (Streamlit.code_of er)
                                    (Streamlit.code_of vr)) (lit 75 2) = true)
                (fun _ _ _ _ => eq_refl) (fun _ _ _ _ => eq_refl)) as G.
  specialize (G ltac:(
    intros ei er used vi vr P; unfold Streamlit.tier3_pick in P;
    destruct (is_empty (Streamlit.date_of normalize_date er)) eqn:He;
      [discriminate|];
    apply scan_first_sound in P as (Hu & Hin & Hok);
    unfold Streamlit.tier3_ok in Hok;
    apply andb_prop in Hok as [_ Hok]; apply andb_prop in Hok as [Hd Hr];
    apply String.eqb_eq in Hd;
    repeat split; try assumption;
    [apply is_empty_false; exact He | symmetry; exact Hd]) (rows e)).
  cbv zeta in G.
  destruct (greedy true _ _ (rows e)) as [[ms ue] uv]. cbn [fst snd] in G.
  destruct G as (F & Nv & Ne & Ue & Uv). cbn [rows columns].
  split; [|split; [|split; [|split; [|split]]]].
  - eapply Forall_impl; [|exact F].
    intros m (er & vr & A & B & (C & D & R) & Em). exists er, vr.
    repeat split; assumption.
  - apply Ne. now left.
  - exact Nv.
  - intros p. rewrite drop_used_In, (Ue (fst p)). tauto.
  - intros p. rewrite drop_used_In, (Uv (fst p)). tauto.
  - intros H. destruct ms as [|m ms]; [reflexivity|]. exfalso.
    inversion F as [|? ? (er & vr & A & B & (C & D & R) & Em) _]; subst.
    destruct H as [H|H].
    + apply C. unfold Streamlit.date_of.
      pose proof (H _ A) as Hd. cbn [snd] in Hd. now rewrite Hd.
    + apply C. rewrite <- D. unfold Streamlit.date_of.
      pose proof (H _ B) as Hd. cbn [snd] in Hd. now rewrite Hd.
Qed.

(** ** The run of the Streamlit page *)

(** X14. In the run of the Streamlit page the four filters on matched
    invoice texts and codes drop no row: whenever [match_invoices] returns,
    the run is [tier2_match] on its two missing tables followed by
    [tier3_match] on what Tier 2 leaves, and the final missing tables are
    the ones Tier 3 returns. *)
Theorem streamlit_filters_drop_nothing
        (float_str : float -> string)
        (fuzzy_ratio : string -> string -> float)
        (normalize_date : cell -> string) (erp_df ven_df : frame row)
        (t1 : list match_record) (me mv : frame miss_row) :
  Streamlit.match_invoices float_str erp_df ven_df = Some (t1, me, mv) ->
  Streamlit.reconcile float_str fuzzy_ratio normalize_date erp_df ven_df
  = Some (let '(t2, _, _, re2, rv2) :=
            Streamlit.tier2_match fuzzy_ratio me mv in
          let '(t3, _, _, re3, rv3) :=
            Streamlit.tier3_match fuzzy_ratio normalize_date re2 rv2 in
          Streamlit.mkRun t1 t2 t3 re3 rv3).
Proof.
  intros Hm. unfold Streamlit.reconcile. rewrite Hm. cbv zeta.
  unfold Streamlit.match_invoices in Hm. cbv zeta in Hm.
  destruct (Streamlit.use_rows float_str
              (Streamlit.consolidate (Streamlit.classify erp_df "erp") "erp"))
    as [erp_use|] eqn:He; [|discriminate].
  destruct (Streamlit.use_rows float_str
              (Streamlit.consolidate (Streamlit.classify ven_df "ven") "ven"))
    as [ven_use|] eqn:Hv; [|discriminate].
  destruct (streamlit_use_rows_codes _ _ _ _ He) as [NE UE].
  destruct (streamlit_use_rows_codes _ _ _ _ Hv) as [NV UV].
  injection Hm as E1 E2 E3.
  match type of E2 with
  | Streamlit.missing _ ?c _ _ = _ =>
      pose proof (streamlit_tier1_erp c erp_use ven_use NE UE) as PE1
  end.
  match type of E3 with
  | Streamlit.missing _ ?c _ _ = _ =>
      pose proof (streamlit_tier1_ven c erp_use ven_use NV UV) as PV1
  end.
  cbv zeta in PE1, PV1.
  rewrite E2, E1 in PE1. rewrite E3, E1 in PV1.
  assert (Nme : NoDup (labels (rows me)))
    by (rewrite <- E2; apply streamlit_missing_labels).
  assert (Nmv : NoDup (labels (rows mv)))
    by (rewrite <- E3; apply streamlit_missing_labels).
  clear E1 E2 E3.
  rewrite (streamlit_drop_invoices_id (map erp_invoice t1) me)
    by (rewrite map_map; exact (perm_app_disjoint _ _ _ NE PE1)).
  rewrite (streamlit_drop_invoices_id (map vendor_invoice t1) mv)
    by (rewrite map_map; exact (perm_app_disjoint _ _ _ NV PV1)).
  pose proof (streamlit_tier2_split fuzzy_ratio me mv Nme Nmv) as T2.
  destruct (Streamlit.tier2_match fuzzy_ratio me mv)
    as [[[[t2 ue2] uv2] re2] rv2].
  destruct T2 as (PE2 & PV2 & Nre2 & Nrv2).
  pose proof (perm_app_chain _ _ _ _ _ PE1 PE2) as PE12.
  pose proof (perm_app_chain _ _ _ _ _ PV1 PV2) as PV12.
  rewrite <- map_app in PE12, PV12.
  rewrite <- !map_app.
  rewrite (streamlit_drop_codes_id (map erp_invoice (t1 ++ t2)) re2)
    by (rewrite map_map; exact (perm_app_disjoint _ _ _ NE PE12)).
  rewrite (streamlit_drop_codes_id (map vendor_invoice (t1 ++ t2)) rv2)
    by (rewrite map_map; exact (perm_app_disjoint _ _ _ NV PV12)).
  replace (match t2 with [] => re2 | _ :: _ => re2 end) with re2
    by (destruct t2; reflexivity).
  replace (match t2 with [] => rv2 | _ :: _ => rv2 end) with rv2
    by (destruct t2; reflexivity).
  pose proof (streamlit_tier3_split fuzzy_ratio normalize_date re2 rv2
                Nre2 Nrv2) as T3.
  destruct (Streamlit.tier3_match fuzzy_ratio normalize_date re2 rv2)
    as [[[[t3 ue3] uv3] re3] rv3].
  destruct T3 as (PE3 & PV3).
  pose proof (perm_app_chain _ _ _ _ _ PE12 PE3) as PE123.
  pose proof (perm_app_chain _ _ _ _ _ PV12 PV3) as PV123.
  rewrite (streamlit_drop_codes_id (map erp_invoice (t1 ++ t2)) re3).
  2:{ rewrite map_map. intros c Hc Hin.
      apply (perm_app_disjoint _ _ _ NE PE123 c Hc).
      apply in_or_app. left. exact Hin. }
  rewrite (streamlit_drop_codes_id (map vendor_invoice (t1 ++ t2)) rv3).
  2:{ rewrite map_map. intros c Hc Hin.
      apply (perm_app_disjoint _ _ _ NV PV123 c Hc).
      apply in_or_app. left. exact Hin. }
  reflexivity.
Qed.

Lemma streamlit_filters_drop_nothing_witness :
  let float_str := fun x : float =>
    if feq x (lit 695 1) then "69.5" else if feq x (of_Z 20) then "20.0"
    else if feq x (of_Z 5) then "5.0" else "7.0" in
  let erp_df :=
    mkFrame ["invoice_erp"; "debit_erp"; "credit_erp"]
      [(0, [("invoice_erp", Text "INV-0042"); ("debit_erp", Text "100,00");
            ("credit_erp", Text "0")]);
       (1, [("invoice_erp", Text "CN 42"); ("debit_erp", Text "0");
            ("credit_erp", Text "30.50")]);
       (2, [("invoice_erp", Text "INV 77"); ("debit_erp", Text "20");
            ("credit_erp", Text "0")]);
       (3, [("invoice_erp", Text "INV 90"); ("debit_erp", Text "5");
            ("credit_erp", Text "0")])] in
  let ven_df :=
    mkFrame ["invoice_ven"; "debit_ven"; "credit_ven"]
      [(0, [("invoice_ven", Text "A-770"); ("debit_ven", Text "20");
            ("credit_ven", Text "0")]);
       (1, [("invoice_ven", Text "X 91"); ("debit_ven", Text "7");
            ("credit_ven", Text "0")]);
       (2, [("invoice_ven", Text "INV-0042"); ("debit_ven", Text "69.5");
            ("credit_ven", Text "0")])] in
  exists t1 me mv,
    Streamlit.match_invoices float_str erp_df ven_df = Some (t1, me, mv) /\
    List.length t1 = 1 /\ List.length (rows me) = 2 /\
    Streamlit.reconcile float_str Difflib.ratio (fun _ => "") erp_df ven_df
    = Some (let '(t2, _, _, re2, rv2) :=
              Streamlit.tier2_match Difflib.ratio me mv in
            let '(t3, _, _, re3, rv3) :=
              Streamlit.tier3_match Difflib.ratio (fun _ => "") re2 rv2 in
            Streamlit.mkRun t1 t2 t3 re3 rv3).
Proof.
  intros float_str erp_df ven_df.
  destruct (Streamlit.match_invoices float_str erp_df ven_df)
    as [[[t1 me] mv]|] eqn:E; [|vm_compute in E; discriminate].
  exists t1, me, mv. split; [reflexivity|].
  split; [vm_compute in E; injection E as <- _ _; reflexivity|].
  split; [vm_compute in E; injection E as _ <- _; reflexivity|].
  exact (streamlit_filters_drop_nothing float_str Difflib.ratio (fun _ => "")
           erp_df ven_df t1 me mv E).
Defined.

Lemma has_column_classify (df : frame row) (tag : string) :
  has_column (Streamlit.classify df tag) ("invoice_" ++ tag)
  = has_column df ("invoice_" ++ tag).
Proof.
  unfold has_column, Streamlit.classify. cbn [columns].
  rewrite existsb_app. cbn. now rewrite !orb_false_r.
Qed.

Lemma flat_map_all_nil {A B : Type} (f : A -> list B) (l : list A) :
  (forall x, In x l -> f x = []) -> flat_map f l = [].
Proof.
  induction l as [|x l IH]; intros H; [reflexivity|]. cbn.
  rewrite (H x (or_introl eq_refl)), IH; [reflexivity|].
  intros y Hy. apply H. now right.
Qed.

Lemma streamlit_side_raises (float_str : float -> string) (df : frame row)
      (tag : string) :
  has_column df ("invoice_" ++ tag) = false \/
  (forall p, In p (rows (Streamlit.classify df tag)) ->
             Streamlit.inv_clean_of tag (snd p) = "" \/
             Streamlit.inv_clean_of tag (snd p) = "0") ->
  Streamlit.use_rows float_str
    (Streamlit.consolidate (Streamlit.classify df tag) tag) = None.
Proof.
  intros H. unfold Streamlit.consolidate. rewrite has_column_classify.
  destruct (has_column df ("invoice_" ++ tag)) eqn:Hc; [|reflexivity].
  destruct H as [H|H]; [discriminate|]. cbn [negb].
  rewrite flat_map_all_nil; [reflexivity|].
  intros k Hk. apply group_keys_In in Hk as (p & Hp & Hk).
  unfold Streamlit.consolidate_group. subst k.
  destruct (H p Hp) as [E|E]; rewrite E; reflexivity.
Qed.

(** X15. [match_invoices] of the Streamlit module raises, and the run of
    the page with it, as soon as one side has no invoice column or has no
    line that is typed INV or CN and carries a code other than the empty
    string and "0": in particular when a side holds payment lines only. *)
Theorem streamlit_match_invoices_raises
        (float_str : float -> string)
        (fuzzy_ratio : string -> string -> float)
        (normalize_date : cell -> string) (erp_df ven_df : frame row) :
  let dead (df : frame row) (tag : string) :=
    has_column df ("invoice_" ++ tag) = false \/
    (forall p, In p (rows (Streamlit.classify df tag)) ->
               Streamlit.inv_clean_of tag (snd p) = "" \/
               Streamlit.inv_clean_of tag (snd p) = "0") in
  dead erp_df "erp" \/ dead ven_df "ven" ->
  Streamlit.match_invoices float_str erp_df ven_df = None /\
  Streamlit.reconcile float_str fuzzy_ratio normalize_date erp_df ven_df
  = None.
Proof.
  cbv zeta. intros H.
  assert (M : Streamlit.match_invoices float_str erp_df ven_df = None).
  { unfold Streamlit.match_invoices. cbv zeta. destruct H as [H|H].
    - now rewrite (streamlit_side_raises float_str erp_df "erp" H).
    - rewrite (streamlit_side_raises float_str ven_df "ven" H).
      destruct (Streamlit.use_rows _ _); reflexivity. }
  split; [exact M|]. unfold Streamlit.reconcile. now rewrite M.
Qed.

Lemma streamlit_match_invoices_raises_witness :
  let erp_df :=
    mkFrame ["invoice_erp"; "reason_erp"; "debit_erp"; "credit_erp"]
      [(0, [("invoice_erp", Text "TR-2291");
            ("reason_erp", Text "Bank transfer March");
            ("debit_erp", Text "500"); ("credit_erp", Text "0")])] in
  let ven_df :=
    mkFrame ["invoice_ven"; "debit_ven"; "credit_ven"]
      [(0, [("invoice_ven", Text "INV 77"); ("debit_ven", Text "20");
            ("credit_ven", Text "0")])] in
  Streamlit.match_invoices (fun _ => "20.0") erp_df ven_df = None /\
  Streamlit.reconcile (fun _ => "20.0") Difflib.ratio (fun _ => "")
                      erp_df ven_df = None.
Proof.
  intros erp_df ven_df.
  apply (streamlit_match_invoices_raises (fun _ => "20.0") Difflib.ratio
           (fun _ => "") erp_df ven_df).
  left. right. intros p H. vm_compute in H. destruct H.
Defined.

(** ** Consolidation and Tier 1 in recon_raptor_fincomms.py *)

Lemma fincomms_mask_booleans (df : frame row) (tag : string)
      (amount_func : row -> string -> string -> float) :
  forallb (fun p => match Fincomms.has_invoice
                            (Fincomms.w_inv_clean (snd p)) with
                    | Some _ => true
                    | None => false
                    end) (Fincomms.work_rows df tag amount_func)
  = negb (existsb
            (fun p =>
               falsy (row_get (snd p) (Fincomms.col "invoice" tag) NaN)
               || isna (row_get (snd p) (Fincomms.col "invoice" tag) NaN))
            (rows df)).
Proof.
  unfold Fincomms.work_rows.
  induction (rows df) as [|p l IH]; [reflexivity|].
  cbn [map forallb existsb fst snd Fincomms.w_inv_clean].
  rewrite IH, negb_orb. f_equal.
  unfold Fincomms.has_invoice. rewrite fincomms_clean_blank.
  destruct (falsy _ || isna _); reflexivity.
Qed.

Lemma fincomms_blank_cell_raises
      (series_sum : list float -> float) (round2 : float -> float)
      (df : frame row) (tag : string)
      (amount_func : row -> string -> string -> float) :
  has_column df (Fincomms.col "invoice" tag) = true ->
  existsb (fun p =>
             falsy (row_get (snd p) (Fincomms.col "invoice" tag) NaN)
             || isna (row_get (snd p) (Fincomms.col "invoice" tag) NaN))
          (rows df) = true ->
  Fincomms.consolidate_invoices series_sum round2 df tag amount_func = None.
Proof.
  intros Hc H. unfold Fincomms.consolidate_invoices.
  rewrite Hc. cbn [negb]. cbv zeta.
  destruct (is_empty_frame df); [reflexivity|].
  now rewrite fincomms_mask_booleans, H.
Qed.

(** X16. [consolidate_invoices] of recon_raptor_fincomms.py, on a table
    that has the invoice column: one line whose invoice cell is empty or
    missing makes the call raise, and [match_invoices] with it, whichever
    side the line is on; on a table with lines and no such cell the call
    returns. *)
Theorem fincomms_blank_invoice_raises
        (series_sum : list float -> float) (round2 : float -> float) :
  let blank (tag : string) (p : nat * row) :=
    falsy (row_get (snd p) (Fincomms.col "invoice" tag) NaN)
    || isna (row_get (snd p) (Fincomms.col "invoice" tag) NaN) in
  (forall df tag amount_func,
      has_column df (Fincomms.col "invoice" tag) = true ->
      existsb (blank tag) (rows df) = true ->
      Fincomms.consolidate_invoices series_sum round2 df tag amount_func
      = None) /\
  (forall df tag amount_func,
      has_column df (Fincomms.col "invoice" tag) = true ->
      existsb (blank tag) (rows df) = false -> rows df <> [] ->
      exists cons pay,
        Fincomms.consolidate_invoices series_sum round2 df tag amount_func
        = Some (cons, pay)) /\
  (forall erp_df ven_df,
      (has_column erp_df "invoice_erp" = true /\
       existsb (blank "erp") (rows erp_df) = true) \/
      (has_column ven_df "invoice_ven" = true /\
       existsb (blank "ven") (rows ven_df) = true) ->
      Fincomms.match_invoices series_sum round2 erp_df ven_df = None).
Proof.
  cbv zeta. split; [|split].
  - intros df tag f. apply fincomms_blank_cell_raises.
  - intros df tag f Hc H Hr. unfold Fincomms.consolidate_invoices.
    rewrite Hc. cbn [negb]. cbv zeta.
    assert (Hne : is_empty_frame df = false)
      by (unfold is_empty_frame; destruct (rows df);
          [contradiction | reflexivity]).
    rewrite Hne, fincomms_mask_booleans, H. cbn [negb].
    eexists _, _. reflexivity.
  - intros erp_df ven_df [[Hc H]|[Hc H]]; unfold Fincomms.match_invoices.
    + now rewrite (fincomms_blank_cell_raises series_sum round2 erp_df "erp"
                     Fincomms.calculate_amount_erp Hc H).
    + rewrite (fincomms_blank_cell_raises series_sum round2 ven_df "ven"
                 Fincomms.calculate_amount_vendor Hc H).
      destruct (Fincomms.consolidate_invoices _ _ erp_df _ _) as [[a b]|];
        reflexivity.
Qed.

Lemma fincomms_blank_invoice_raises_witness :
  let total := fun l => fold_left fadd l zero in
  let erp_df :=
    mkFrame ["invoice_erp"; "debit_erp"; "credit_erp"]
      [(0, [("invoice_erp", Text "INV-0042"); ("debit_erp", Text "0");
            ("credit_erp", Text "100,00")]);
       (1, [("invoice_erp", Text ""); ("debit_erp", Text "0");
            ("credit_erp", Text "12")])] in
  let ven_df :=
    mkFrame ["invoice_ven"; "debit_ven"; "credit_ven"]
      [(0, [("invoice_ven", Text "INV 42"); ("debit_ven", Text "100");
            ("credit_ven", Text "0")])] in
  Fincomms.consolidate_invoices total np_round2 erp_df "erp"
                                Fincomms.calculate_amount_erp = None /\
  (exists cons pay,
      Fincomms.consolidate_invoices total np_round2 ven_df "ven"
                                    Fincomms.calculate_amount_vendor
      = Some (cons, pay)) /\
  Fincomms.match_invoices total np_round2 erp_df ven_df = None.
Proof.
  intros total erp_df ven_df.
  destruct (fincomms_blank_invoice_raises total np_round2) as (A & B & C).
  split; [|split].
  - apply A; reflexivity.
  - apply B; [reflexivity | reflexivity | discriminate].
  - apply C. left. split; reflexivity.
Defined.

Lemma fincomms_consolidated_list
      (series_sum : list float -> float) (round2 : float -> float)
      (df : frame row) (tag : string)
      (amount_func : row -> string -> string -> float)
      (cons : frame Fincomms.cons_row) (pay : frame Fincomms.work_row) :
  has_column df (Fincomms.col "invoice" tag) = true ->
  Fincomms.consolidate_invoices series_sum round2 df tag amount_func
  = Some (cons, pay) ->
  let work := Fincomms.work_rows df tag amount_func in
  rows cons
  = flat_map (fun k => Fincomms.consolidate_group series_sum round2 k
                         (Fincomms.group_of Fincomms.w_inv_clean k
                                            (Fincomms.masked true work)))
             (Fincomms.group_keys Fincomms.w_inv_clean
                                  (Fincomms.masked true work)).
Proof.
  intros Hc. unfold Fincomms.consolidate_invoices. rewrite Hc. cbn [negb].
  cbv zeta. destruct (is_empty_frame df); [discriminate|].
  destruct (forallb _ _); [|discriminate].
  intros E. injection E as <- _.
  destruct (flat_map _ _); reflexivity.
Qed.

(** X17. [consolidate_invoices] of recon_raptor_fincomms.py emits every
    group it does not skip: when the lines that share a usable cleaned code
    have a rounded net that is not below 0.01 in absolute value, the
    consolidated table holds one row for the code, and only one: it sits
    under the label of the first line of the group and carries that line,
    the code, the rounded net and the number of lines. *)
Theorem fincomms_consolidated_complete
        (series_sum : list float -> float) (round2 : float -> float)
        (df : frame row) (tag : string)
        (amount_func : row -> string -> string -> float)
        (cons : frame Fincomms.cons_row) (pay : frame Fincomms.work_row)
        (k : string) :
  let work := Fincomms.work_rows df tag amount_func in
  let group := Fincomms.group_of Fincomms.w_inv_clean k work in
  let net := Fincomms.net_of series_sum round2 k work in
  has_column df (Fincomms.col "invoice" tag) = true ->
  Fincomms.consolidate_invoices series_sum round2 df tag amount_func
  = Some (cons, pay) ->
  Fincomms.has_invoice k = Some true ->
  group <> [] ->
  flt (fabs net) (lit 1 2) = false ->
  exists i b,
    hd_error group = Some (i, b) /\
    In (i, Fincomms.mkCons (Fincomms.w_src b) (Fincomms.w_amount b) k net
                           (List.length group)) (rows cons) /\
    forall j c, In (j, c) (rows cons) -> Fincomms.c_inv_clean c = k ->
                (j, c) = (i, Fincomms.mkCons (Fincomms.w_src b)
                                             (Fincomms.w_amount b) k net
                                             (List.length group)).
Proof.
  cbv zeta. intros Hc E Hk Hg Hn.
  rewrite (fincomms_consolidated_list _ _ _ _ _ _ _ Hc E). cbv zeta.
  set (work := Fincomms.work_rows df tag amount_func) in *.
  set (inv_rows := Fincomms.masked true work).
  assert (G : forall k', Fincomms.has_invoice k' = Some true ->
                Fincomms.group_of Fincomms.w_inv_clean k' inv_rows
                = Fincomms.group_of Fincomms.w_inv_clean k' work).
  { intros k' Hk'. apply group_of_filter. intros p Hp.
    rewrite Hp, Hk'. reflexivity. }
  destruct (Fincomms.group_of Fincomms.w_inv_clean k work)
    as [|[i b] rest] eqn:Eg; [contradiction|].
  assert (Hb : In (i, b) work /\ Fincomms.w_inv_clean b = k).
  { apply (group_of_In Fincomms.w_inv_clean k work (i, b)).
    rewrite Eg. now left. }
  destruct Hb as [Hbw Hbk].
  assert (Row : Fincomms.consolidate_group series_sum round2 k
                  (Fincomms.group_of Fincomms.w_inv_clean k inv_rows)
                = [(i, Fincomms.mkCons (Fincomms.w_src b)
                         (Fincomms.w_amount b) k
                         (Fincomms.net_of series_sum round2 k work)
                         (List.length ((i, b) :: rest)))]).
  { unfold Fincomms.consolidate_group. rewrite (G k Hk).
    apply has_invoice_true in Hk as [H1 H2]. rewrite H1, H2. cbn [orb].
    fold (Fincomms.net_of series_sum round2 k work). rewrite Hn, Eg, Hbk.
    reflexivity. }
  exists i, b. split; [reflexivity|]. split.
  - apply in_flat_map. exists k. split.
    + apply group_keys_In. exists (i, b). split; [|exact Hbk].
      apply masked_In. split; [exact Hbw|]. cbn [snd]. now rewrite Hbk.
    + rewrite Row. now left.
  - intros j c Hin Hck.
    apply in_flat_map in Hin as (k' & Hk' & Hin).
    assert (Hv : Fincomms.has_invoice k' = Some true).
    { apply group_keys_In in Hk' as (p & Hp & Hpk).
      apply masked_In in Hp as [_ Hp]. now rewrite Hpk in Hp. }
    assert (k' = k).
    { unfold Fincomms.consolidate_group in Hin.
      destruct (is_empty k' || String.eqb k' "0"); [destruct Hin|].
      cbv zeta in Hin.
      match type of Hin with
      | context [if ?c then _ else _] => destruct c; [destruct Hin|]
      end.
      destruct (Fincomms.group_of Fincomms.w_inv_clean k' inv_rows)
        as [|[j' b'] rest'] eqn:Eg'; [destruct Hin|].
      destruct Hin as [Hin|[]]. injection Hin as <- <-.
      cbn [Fincomms.c_inv_clean] in Hck.
      assert (Hb' : In (j', b')
                       (Fincomms.group_of Fincomms.w_inv_clean k' inv_rows))
        by (rewrite Eg'; now left).
      apply group_of_In in Hb' as [_ Hb']. cbn [snd] in Hb'. congruence. }
    subst k'. rewrite Row in Hin. destruct Hin as [Hin|[]].
    symmetry. exact Hin.
Qed.

Lemma fincomms_consolidated_complete_witness :
  let total := fun l => fold_left fadd l zero in
  let e0 := [("invoice_erp", Text "INV-0042"); ("debit_erp", Text "0");
             ("credit_erp", Text "100,00")] in
  let e1 := [("invoice_erp", Text "INV 77"); ("debit_erp", Text "0");
             ("credit_erp", Text "20")] in
  let e2 := [("invoice_erp", Text "CN 42"); ("debit_erp", Text "30.50");
             ("credit_erp", Text "0")] in
  let erp_df := mkFrame ["invoice_erp"; "debit_erp"; "credit_erp"]
                        [(0, e0); (1, e1); (2, e2)] in
  exists cons pay,
    Fincomms.consolidate_invoices total np_round2 erp_df "erp"
                                  Fincomms.calculate_amount_erp
    = Some (cons, pay) /\
    In (0, Fincomms.mkCons e0 (of_Z 100) "42" (lit 695 1) 2) (rows cons).
Proof.
  intros total e0 e1 e2 erp_df.
  destruct (Fincomms.consolidate_invoices total np_round2 erp_df "erp"
              Fincomms.calculate_amount_erp) as [[cons pay]|] eqn:E;
    [|vm_compute in E; discriminate].
  exists cons, pay. split; [reflexivity|].
  destruct (fincomms_consolidated_complete total np_round2 erp_df "erp"
              Fincomms.calculate_amount_erp cons pay "42")
    as (i & b & Hh & Hin & _);
    [reflexivity | exact E | reflexivity | discriminate
     | vm_compute; reflexivity |].
  vm_compute in Hh. injection Hh as <- <-.
  exact Hin.
Defined.

(** X18. [match_invoices] of recon_raptor_fincomms.py, when it returns:
    the two invoice texts of every record normalise to the same usable
    code, the record is marked "Tier-1" with one of the two statuses, and no
    consolidated entry is in two records; when one side consolidates to an
    empty table nothing is matched and the missing table of the other side
    lists all its consolidated entries, in order. *)
Theorem fincomms_match_invoices_records
        (series_sum : list float -> float) (round2 : float -> float)
        (erp_df ven_df : frame row) (matched : list match_record)
        (miss_erp miss_ven : frame miss_row)
        (erp_payments ven_payments : frame Fincomms.work_row) :
  Fincomms.match_invoices series_sum round2 erp_df ven_df
  = Some (matched, miss_erp, miss_ven, erp_payments, ven_payments) ->
  Forall (fun m =>
            fincomms_erp_code m = fincomms_ven_code m /\
            Fincomms.has_invoice (fincomms_erp_code m) = Some true /\
            match_type m = Some "Tier-1" /\
            (status m = Some "Perfect Match" \/
             status m = Some "Difference Match")) matched /\
  NoDup (map erp_idx matched) /\ NoDup (map ven_idx matched) /\
  (forall erp_c ven_c erp_p ven_p,
      Fincomms.consolidate_invoices series_sum round2 erp_df "erp"
                                    Fincomms.calculate_amount_erp
      = Some (erp_c, erp_p) ->
      Fincomms.consolidate_invoices series_sum round2 ven_df "ven"
                                    Fincomms.calculate_amount_vendor
      = Some (ven_c, ven_p) ->
      rows erp_c = [] \/ rows ven_c = [] ->
      matched = [] /\
      map snd (rows miss_erp)
      = map (fun p => Fincomms.to_miss "erp" (snd p)) (rows erp_c) /\
      map snd (rows miss_ven)
      = map (fun p => Fincomms.to_miss "ven" (snd p)) (rows ven_c)).
Proof.
  intros Hm. unfold Fincomms.match_invoices in Hm.
  destruct (Fincomms.consolidate_invoices series_sum round2 erp_df "erp"
              Fincomms.calculate_amount_erp) as [[erp_c erp_p]|] eqn:Ce;
    [|discriminate].
  destruct (Fincomms.consolidate_invoices series_sum round2 ven_df "ven"
              Fincomms.calculate_amount_vendor) as [[ven_c ven_p]|] eqn:Cv;
    [|discriminate].
  assert (Miss : forall tag (c : frame Fincomms.cons_row),
             map snd (rows (Fincomms.missing tag c []))
             = map (fun p => Fincomms.to_miss tag (snd p)) (rows c)).
  { intros tag c. unfold Fincomms.missing, is_empty_frame.
    destruct (rows c) as [|p l] eqn:Er; [reflexivity|].
    unfold drop_used. rewrite filter_all by reflexivity.
    cbn [rows]. rewrite reset_index_rows, map_map. reflexivity. }
  destruct (is_empty_frame erp_c && is_empty_frame ven_c) eqn:Eb.
  { injection Hm as <- <- <- _ _.
    apply andb_prop in Eb as [E1 E2]. unfold is_empty_frame in E1, E2.
    split; [constructor|]. split; [constructor|]. split; [constructor|].
    intros erp_c' ven_c' erp_p' ven_p' He Hv _.
    injection He as <- _. injection Hv as <- _.
    destruct (rows erp_c); [|discriminate].
    destruct (rows ven_c); [|discriminate]. repeat split. }
  destruct (negb (is_empty_frame erp_c) && negb (is_empty_frame ven_c))
    eqn:Et.
  - pose proof (fincomms_tier1_records (rows erp_c) (rows ven_c)) as R.
    pose proof (greedy_records true (Fincomms.tier1_pick (rows ven_c))
                  Fincomms.tier1_record erp_idx ven_idx (rows ven_c)
                  (fun _ _ => True)
                  (fun _ _ _ _ => eq_refl) (fun _ _ _ _ => eq_refl)) as G.
    specialize (G ltac:(
      intros ei e used vi v P; unfold Fincomms.tier1_pick in P;
      apply scan_first_sound in P as (Hu & Hin & _);
      repeat split; assumption) (rows erp_c)).
    cbv zeta in G. fold (Fincomms.tier1 (rows erp_c) (rows ven_c)) in G.
    destruct (Fincomms.tier1 (rows erp_c) (rows ven_c)) as [[ms ue] uv].
    cbn [fst snd] in R, G. destruct G as (_ & Nv & Ne & _).
    injection Hm as <- _ _ _ _.
    split; [|split; [apply Ne; now left | split; [exact Nv|]]].
    + eapply Forall_impl; [|exact R].
      intros m (e & v & He & Hv & Heq & Hne & Em).
      destruct (fincomms_consolidated_rows series_sum round2 erp_df "erp"
                  Fincomms.calculate_amount_erp erp_c erp_p _ e Ce He)
        as (He1 & He2 & _).
      destruct (fincomms_consolidated_rows series_sum round2 ven_df "ven"
                  Fincomms.calculate_amount_vendor ven_c ven_p _ v Cv Hv)
        as (Hv1 & Hv2 & _).
      assert (Ke : fincomms_erp_code m = Fincomms.inv_norm e).
      { rewrite Em. unfold fincomms_erp_code, Fincomms.tier1_record.
        cbv zeta. cbn [erp_invoice]. unfold Fincomms.inv_norm.
        rewrite He2 in He1 |- *.
        exact (fincomms_clean_of_text (Fincomms.c_src e) "invoice_erp" He1). }
      assert (Kv : fincomms_ven_code m = Fincomms.inv_norm v).
      { rewrite Em. unfold fincomms_ven_code, Fincomms.tier1_record.
        cbv zeta. cbn [vendor_invoice]. unfold Fincomms.inv_norm.
        rewrite Hv2 in Hv1 |- *.
        exact (fincomms_clean_of_text (Fincomms.c_src v) "invoice_ven" Hv1). }
      split; [congruence|]. split; [rewrite Ke; exact He1|].
      rewrite Em. unfold Fincomms.tier1_record. cbv zeta.
      cbn [match_type status]. split; [reflexivity|].
      unfold Fincomms.tier1_status. destruct (flt _ _); auto.
    + intros erp_c' ven_c' erp_p' ven_p' He Hv Hempty.
      injection He as <- _. injection Hv as <- _.
      apply andb_prop in Et as [E1 E2]. unfold is_empty_frame in E1, E2.
      destruct Hempty as [H|H]; rewrite H in *; discriminate.
  - injection Hm as <- <- <- _ _.
    split; [constructor|]. split; [constructor|]. split; [constructor|].
    intros erp_c' ven_c' erp_p' ven_p' He Hv _.
    injection He as <- _. injection Hv as <- _.
    split; [reflexivity|]. split; apply Miss.
Qed.

Lemma fincomms_match_invoices_records_witness :
  let total := fun l => fold_left fadd l zero in
  let erp_df :=
    mkFrame ["invoice_erp"; "debit_erp"; "credit_erp"]
      [(0, [("invoice_erp", Text "INV-0042"); ("debit_erp", Text "0");
            ("credit_erp", Text "100,00")]);
       (1, [("invoice_erp", Text "INV 77"); ("debit_erp", Text "0");
            ("credit_erp", Text "20")])] in
  let ven_df :=
    mkFrame ["invoice_ven"; "debit_ven"; "credit_ven"]
      [(0, [("invoice_ven", Text "Fact. 42"); ("debit_ven", Text "100");
            ("credit_ven", Text "0")])] in
  exists matched miss_erp miss_ven erp_payments ven_payments,
    Fincomms.match_invoices total np_round2 erp_df ven_df
    = Some (matched, miss_erp, miss_ven, erp_payments, ven_payments) /\
    List.length matched = 1 /\
    Forall (fun m => fincomms_erp_code m = fincomms_ven_code m) matched /\
    NoDup (map erp_idx matched).
Proof.
  intros total erp_df ven_df.
  destruct (Fincomms.match_invoices total np_round2 erp_df ven_df)
    as [[[[[matched miss_erp] miss_ven] erp_payments] ven_payments]|] eqn:E;
    [|vm_compute in E; discriminate].
  exists matched, miss_erp, miss_ven, erp_payments, ven_payments.
  destruct (fincomms_match_invoices_records total np_round2 erp_df ven_df
              matched miss_erp miss_ven erp_payments ven_payments E)
    as (F & Ne & _).
  split; [reflexivity|].
  split; [vm_compute in E; injection E as <- _ _ _ _; reflexivity|].
  split; [|exact Ne].
  eapply Forall_impl; [|exact F]. intros m H. exact (proj1 H).
Defined.



(** ** The two amount parsers of the Streamlit module *)

Lemma count_keep (p : ascii -> bool) (c : ascii) (s : string) :
  p c = true -> count c (keep p s) = count c s.
Proof.
  intros Hc. induction s as [|d r IH]; [reflexivity|]. cbn.
  destruct (Ascii.eqb_spec d c) as [->|Hd].
  - rewrite Hc. cbn. rewrite Ascii.eqb_refl, IH. reflexivity.
  - destruct (p d); cbn; [|exact IH].
    destruct (Ascii.eqb_spec d c); [contradiction|exact IH].
Qed.

Lemma keep_lstrip (p q : ascii -> bool) (s : string) :
  (forall c, q c = true -> p c = false) ->
  keep p (lstrip_by q s) = keep p s.
Proof.
  intros H. induction s as [|c r IH]; [reflexivity|]. cbn.
  destruct (q c) eqn:Hq; [|reflexivity].
  now rewrite (H c Hq).
Qed.

Lemma keep_rstrip (p q : ascii -> bool) (s : string) :
  (forall c, q c = true -> p c = false) ->
  keep p (rstrip_by q s) = keep p s.
Proof.
  intros H. induction s as [|c r IH]; [reflexivity|]. cbn.
  destruct (is_empty (rstrip_by q r) && q c) eqn:E.
  - apply andb_prop in E as [E1 E2]. apply is_empty_true in E1.
    rewrite E1 in IH. cbn in IH. rewrite (H c E2). exact IH.
  - cbn. now rewrite IH.
Qed.

Lemma keep_strip (p : ascii -> bool) (s : string) :
  (forall c, is_space c = true -> p c = false) ->
  keep p (strip s) = keep p s.
Proof.
  intros H. unfold strip. now rewrite keep_rstrip, keep_lstrip.
Qed.

Lemma keep_replace_drop (p : ascii -> bool) (old : ascii) (s : string) :
  p old = false -> keep p (replace old "" s) = keep p s.
Proof.
  intros H. induction s as [|c r IH]; [reflexivity|]. cbn.
  destruct (Ascii.eqb_spec c old) as [->|Hc].
  - cbn. now rewrite H.
  - cbn. now rewrite IH.
Qed.

Lemma keep_amount_replace (s : string) :
  keep Streamlit_balance.is_amount_char (replace "," "." s)
  = replace "," "." (keep is_numeric_char s).
Proof.
  induction s as [|c r IH]; [reflexivity|]. cbn [replace keep].
  destruct (Ascii.eqb_spec c ",") as [->|Hc].
  - cbn. now rewrite IH.
  - assert (E : is_numeric_char c = Streamlit_balance.is_amount_char c).
    { unfold is_numeric_char, Streamlit_balance.is_amount_char.
      destruct (Ascii.eqb_spec c ","); [contradiction|].
      now rewrite orb_false_r. }
    cbn [keep]. rewrite E.
    destruct (Streamlit_balance.is_amount_char c); cbn [replace].
    + destruct (Ascii.eqb_spec c ","); [contradiction|]. now rewrite IH.
    + exact IH.
Qed.

Lemma count_replace_comma (s : string) :
  count "." (replace "," "." s) = count "," s + count "." s.
Proof.
  induction s as [|c r IH]; [reflexivity|]. cbn [replace count].
  destruct (Ascii.eqb_spec c ",") as [->|Hc].
  - cbn. rewrite IH. reflexivity.
  - cbn. rewrite IH. destruct (Ascii.eqb c "."); lia.
Qed.

Lemma py_float_one_dot (s : string) (x : float) :
  py_float s = Some x -> count "." s <= 1.
Proof.
  unfold py_float.
  set (nb := match s with String "-" r => (true, r) | _ => (false, s) end).
  assert (Hs : count "." s = count "." (snd nb)).
  { unfold nb. destruct s as [|c r]; [reflexivity|].
    destruct (Ascii.eqb_spec c "-") as [->|Hc]; [reflexivity|].
    each_char c; reflexivity. }
  destruct nb as [neg body]. cbn [snd] in Hs. rewrite Hs.
  pose proof (cut_at_dot_spec body) as Hb.
  destruct (cut_at_dot body) as [ip fp].
  destruct (all_chars is_digit ip
            && all_chars is_digit (match fp with Some f => f | None => "" end)
            && negb (is_empty (ip ++ match fp with Some f => f | None => "" end)))
    eqn:E; [|discriminate].
  intros _.
  apply andb_prop in E as [E _]. apply andb_prop in E as [E1 E2].
  assert (Hd : forall t, all_chars is_digit t = true -> count "." t = 0).
  { induction t as [|c r IH]; [reflexivity|]. cbn. intros H.
    apply andb_prop in H as [Hc Hr]. rewrite (IH Hr).
    destruct (Ascii.eqb_spec c ".") as [->|]; [discriminate|reflexivity]. }
  rewrite Hb, count_app, (Hd _ E1).
  destruct fp as [f|]; [|cbn; lia].
  cbn. rewrite (Hd _ E2). lia.
Qed.

Lemma amount_char_not_space (c : ascii) :
  is_space c = true -> Streamlit_balance.is_amount_char c = false.
Proof. each_char c; intros H; try reflexivity; discriminate. Qed.

Lemma numeric_char_not_space (c : ascii) :
  is_space c = true -> is_numeric_char c = false.
Proof. each_char c; intros H; try reflexivity; discriminate. Qed.

Lemma parse_amt_text (t : string) :
  keep Streamlit_balance.is_amount_char
       (strip (replace " " "" (replace "," "." t)))
  = replace "," "." (keep is_numeric_char t).
Proof.
  rewrite keep_strip by exact amount_char_not_space.
  rewrite keep_replace_drop by reflexivity.
  apply keep_amount_replace.
Qed.

(** X19. [parse_amt], the parser of the balance columns, turns every comma
    into a period: text with two or more separators, commas and periods
    together, is not a number for it (NaN), "1,234.56" and "1.234,56"
    included. On text with at most one separator it reads what
    [normalize_number] reads, and where [float()] refuses the text it gives
    NaN and [normalize_number] gives 0.0. *)
Theorem parse_amt_separators (t : string) :
  (2 <= count "," t + count "." t ->
   Streamlit_balance.parse_amt (Text t) = S754_nan) /\
  (count "," t + count "." t <= 1 ->
   match py_float (number_text (Text t)) with
   | Some x => Streamlit_balance.parse_amt (Text t) = x /\
               normalize_number (Text t) = x
   | None => Streamlit_balance.parse_amt (Text t) = S754_nan /\
             normalize_number (Text t) = zero
   end).
Proof.
  split.
  - intros H. unfold Streamlit_balance.parse_amt. cbn [str_of].
    destruct (is_empty (strip t)); [reflexivity|]. cbv zeta.
    rewrite parse_amt_text.
    destruct (py_float _) as [x|] eqn:E; [|reflexivity].
    apply py_float_one_dot in E.
    rewrite count_replace_comma in E.
    rewrite !count_keep in E by reflexivity. lia.
  - intros H.
    assert (N : number_text (Text t)
                = replace "," "." (keep is_numeric_char t)).
    { unfold number_text. cbn [str_of].
      rewrite keep_strip by exact numeric_char_not_space.
      set (s := keep is_numeric_char t).
      assert (Hc : count "," s = count "," t)
        by (apply count_keep; reflexivity).
      assert (Hd : count "." s = count "." t)
        by (apply count_keep; reflexivity).
      unfold disambiguate. rewrite Hc, Hd.
      destruct (Nat.eqb_spec (count "," t) 1) as [E1|E1].
      - destruct (Nat.eqb_spec (count "." t) 1) as [E2|E2]; [lia|].
        reflexivity.
      - cbn [andb].
        destruct (Nat.ltb_spec 1 (count "." t)) as [E3|E3]; [lia|].
        symmetry. apply replace_absent. lia. }
    unfold Streamlit_balance.parse_amt, normalize_number.
    cbn [str_of isna orb]. cbv zeta. rewrite parse_amt_text, <- N.
    destruct (is_empty (strip t)) eqn:Es.
    + assert (E : number_text (Text t) = "").
      { rewrite N. apply is_empty_true in Es.
        rewrite <- (keep_strip is_numeric_char t numeric_char_not_space), Es.
        reflexivity. }
      rewrite E. cbn. split; reflexivity.
    + destruct (py_float (number_text (Text t))); split; reflexivity.
Qed.

Lemma parse_amt_separators_witness :
  Streamlit_balance.parse_amt (Text "1,234.56") = S754_nan /\
  Streamlit_balance.parse_amt (Text "1.234,56") = S754_nan /\
  normalize_number (Text "1.234,56") = lit 123456 2 /\
  Streamlit_balance.parse_amt (Text " 12,5 ") = lit 125 1 /\
  normalize_number (Text " 12,5 ") = lit 125 1.
Proof.
  split; [|split; [|split]].
  - apply (proj1 (parse_amt_separators "1,234.56")). vm_compute. lia.
  - apply (proj1 (parse_amt_separators "1.234,56")). vm_compute. lia.
  - vm_compute. reflexivity.
  - pose proof (proj2 (parse_amt_separators " 12,5 ")) as H.
    assert (C : count "," " 12,5 " + count "." " 12,5 " <= 1)
      by (vm_compute; lia).
    specialize (H C).
    assert (P : py_float (number_text (Text " 12,5 ")) = Some (lit 125 1))
      by (vm_compute; reflexivity).
    rewrite P in H. exact H.
Defined.

